(** * File sinks of spdlog: a shallow embedding of [sinks/file_sinks.h]

    The development follows the header:
    - [std::size_t] and [std::string] helpers used by the constructors;
    - a state-and-exception monad for the methods, whose state holds the
      sink object together with the world (file system, clock, [errno],
      and the trace of the calls made);
    - the file capability [FileHelper] (the template parameter, at its
      default) and the calendar capability ([localtime], [mktime]);
    - [rotating_file_sink] (size-triggered), [daily_file_sink]
      (time-triggered) with its two file name calculators, and
      [simple_file_sink], method by method;
    - the definitions the properties are stated with, then the lemmas and
      the theorems C1 to C10 and X1 to X15.

    The public two-argument [calc_filename] calls a function of
    [details/file_helper.h] that is not part of this header and is left
    out. Mutual exclusion is the business of [base_sink]: a method runs
    alone on its sink. *)

From Stdlib Require Import ZArith Lia Ascii.
From stdpp Require Import base gmap strings list pretty.

Local Open Scope Z_scope.

(** ** Machine integers and strings *)

Module SizeT.
(** [std::size_t] is a 64-bit unsigned integer: arithmetic wraps. *)
Definition modulus : Z := 2 ^ 64.
Definition wrap (z : Z) : Z := z mod modulus.
Definition add (a b : Z) : Z := wrap (a + b).
Definition in_range (z : Z) : Prop := 0 <= z < modulus.
(** [std::string::npos], the largest [size_t]. *)
Definition npos : Z := modulus - 1.
End SizeT.

Abbreviation filename_t := string.

Module StdString.
Definition size (s : string) : Z := Z.of_nat (String.length s).

(** The separator of Windows paths, code 92. *)
Definition backslash : ascii := Ascii.ascii_of_nat 92.

(** [s.find_last_of(c)]: index of the last occurrence of [c], or [npos]. *)
Fixpoint find_last_of_from (s : string) (c : ascii) (i : Z) (found : Z) : Z :=
  match s with
  | EmptyString => found
  | String a s' =>
      find_last_of_from s' c (i + 1) (if Ascii.eqb a c then i else found)
  end.
Definition find_last_of (s : string) (c : ascii) : Z :=
  find_last_of_from s c 0 SizeT.npos.

Fixpoint drop (n : nat) (s : string) : string :=
  match n, s with
  | O, _ => s
  | S n', String _ s' => drop n' s'
  | S _, EmptyString => EmptyString
  end.
Fixpoint take (n : nat) (s : string) : string :=
  match n, s with
  | S n', String a s' => String a (take n' s')
  | _, _ => EmptyString
  end.

(** [s.substr(pos, count)]: throws [std::out_of_range] when [pos > size()],
    otherwise the characters [pos, min(pos + count, size()))]. *)
Definition substr (s : string) (pos count : Z) : option string :=
  if size s <? pos then None
  else Some (take (Z.to_nat (Z.min count (size s - pos))) (drop (Z.to_nat pos) s)).
End StdString.

(** ** Exceptions, outcomes and the method monad *)

(** Modelled from the spec: [spdlog_ex] (declared in [common.h], absent
    here) carries a message and, for file-system failures, the OS error
    code that was in [errno] when it was thrown. *)
Inductive exn : Type :=
  | spdlog_ex (msg : string) (last_errno : option Z)
  | out_of_range.

Inductive outcome (A : Type) : Type :=
  | Returned (a : A)
  | Thrown (e : exn).
Arguments Returned {A} a.
Arguments Thrown {A} e.

(** A method is a function of the state; an exception keeps the state
    reached when it was thrown. *)
Definition M (S A : Type) : Type := S -> outcome A * S.

Definition ret {S A} (a : A) : M S A := fun s => (Returned a, s).
Definition throw {S A} (e : exn) : M S A := fun s => (Thrown e, s).
Definition bind {S A B} (m : M S A) (k : A -> M S B) : M S B :=
  fun s => match m s with
           | (Returned a, s') => k a s'
           | (Thrown e, s') => (Thrown e, s')
           end.
Definition get {S} : M S S := fun s => (Returned s, s).
Definition modify {S} (f : S -> S) : M S unit := fun s => (Returned tt, f s).

Notation "x <- m ;; k" := (bind m (fun x => k))
  (at level 100, m at next level, right associativity).
Notation "m ;;; k" := (bind m (fun _ => k))
  (at level 100, right associativity).

Definition when {S} (b : bool) (m : M S unit) : M S unit :=
  if b then m else ret tt.

(** Run a method of a member object inside a method of its owner. *)
Definition zoom {S T A} (proj : S -> T) (upd : T -> S -> S) (m : M T A) : M S A :=
  fun s => let (r, t) := m (proj s) in (r, upd t s).

(** ** The world: file system, clock and [errno] *)

(** File-system calls that the operating system may refuse. *)
Inductive fs_op : Type :=
  | OpOpen (p : filename_t)
  | OpRemove (p : filename_t)
  | OpRename (src dst : filename_t).

(** Calls that reach the world, in the order they are made. An [err] of
    [Some e] records a call that failed with [errno = e]. *)
Inductive event : Type :=
  | EvOpen (p : filename_t) (truncate : bool) (err : option Z)
  | EvClose (p : filename_t)
  | EvWrite (p : filename_t) (bytes : string)
  | EvFlush (p : filename_t)
  | EvExists (p : filename_t) (r : bool)
  | EvRemove (p : filename_t) (err : option Z)
  | EvRename (src dst : filename_t) (err : option Z)
  | EvNow (t : Z)
  | EvTime (t : Z).

Record world : Type := mkWorld {
  files : gmap string string;   (* path |-> content *)
  fault : fs_op -> option Z;    (* calls the OS refuses, with their errno *)
  errno : Z;
  clock : nat -> Z;             (* successive readings, counts of nanoseconds *)
  ticks : nat;                  (* readings consumed so far *)
  gmtoff : Z;                   (* local time minus UTC, in seconds *)
  trace : list event
}.

Definition set_files (f : gmap string string) (w : world) : world :=
  mkWorld f (fault w) (errno w) (clock w) (ticks w) (gmtoff w) (trace w).
Definition set_errno (e : Z) (w : world) : world :=
  mkWorld (files w) (fault w) e (clock w) (ticks w) (gmtoff w) (trace w).
Definition tick (w : world) : world :=
  mkWorld (files w) (fault w) (errno w) (clock w) (S (ticks w)) (gmtoff w) (trace w).
Definition emit (ev : event) (w : world) : world :=
  mkWorld (files w) (fault w) (errno w) (clock w) (ticks w) (gmtoff w) (trace w ++ [ev]).

Definition ENOENT : Z := 2.

Module os.
(** [file_exists(fname)] *)
Definition file_exists (p : filename_t) : M world bool :=
  fun w => let r := bool_decide (is_Some (files w !! p)) in
           (Returned r, emit (EvExists p r) w).

(** [remove(fname)]: 0 on success, non-zero with [errno] set otherwise. *)
Definition remove (p : filename_t) : M world Z :=
  fun w =>
    match fault w (OpRemove p) with
    | Some e => (Returned (-1), emit (EvRemove p (Some e)) (set_errno e w))
    | None =>
        if bool_decide (is_Some (files w !! p))
        then (Returned 0, emit (EvRemove p None) (set_files (delete p (files w)) w))
        else (Returned (-1), emit (EvRemove p (Some ENOENT)) (set_errno ENOENT w))
    end.

(** [rename(src, dst)]: 0 on success, non-zero with [errno] set otherwise;
    an existing [dst] is replaced. *)
Definition rename (src dst : filename_t) : M world Z :=
  fun w =>
    match fault w (OpRename src dst) with
    | Some e => (Returned (-1), emit (EvRename src dst (Some e)) (set_errno e w))
    | None =>
        match files w !! src with
        | Some c =>
            (Returned 0,
             emit (EvRename src dst None)
                  (set_files (<[dst := c]> (delete src (files w))) w))
        | None =>
            (Returned (-1), emit (EvRename src dst (Some ENOENT)) (set_errno ENOENT w))
        end
    end.

(** [std::chrono::system_clock::now()], in nanoseconds since the epoch. *)
Definition now : M world Z :=
  fun w => let t := clock w (ticks w) in (Returned t, emit (EvNow t) (tick w)).
End os.

(** ** The file capability *)

Record log_msg : Type := { formatted : string }.

(** Modelled from the spec: [details::file_helper] (in
    [details/file_helper.h], absent here) is the file capability of section 6:
    [open(path, truncate)], [reopen(truncate)], [write], [flush], [close],
    [size] and the static [file_exists], [remove], [rename]. One file is
    open at a time; a failed call throws at once, without retrying. *)
Module FileHelper.
Record t : Type := mk { _fd : bool; _filename : filename_t }.

Definition init : t := mk false "".

Definition lift {A} (m : M world A) : M (t * world) A :=
  zoom snd (fun w s => (fst s, w)) m.

Definition close : M (t * world) unit :=
  fun '(fh, w) =>
    if _fd fh then (Returned tt, (mk false (_filename fh), emit (EvClose (_filename fh)) w))
    else (Returned tt, (fh, w)).

Definition open (fname : filename_t) (truncate : bool) : M (t * world) unit :=
  close ;;;
  fun '(fh, w) =>
    match fault w (OpOpen fname) with
    | Some e =>
        (Thrown (spdlog_ex ("Failed opening file " +:+ fname +:+ " for writing") (Some e)),
         (mk false fname, emit (EvOpen fname truncate (Some e)) (set_errno e w)))
    | None =>
        let old := if truncate then "" else default "" (files w !! fname) in
        (Returned tt,
         (mk true fname, emit (EvOpen fname truncate None) (set_files (<[fname := old]> (files w)) w)))
    end.

Definition reopen (truncate : bool) : M (t * world) unit :=
  fh <- get ;;
  if decide (_filename (fst fh) = "")
  then throw (spdlog_ex "Failed re opening file - was not opened before" None)
  else open (_filename (fst fh)) truncate.

Definition write (msg : log_msg) : M (t * world) unit :=
  fun '(fh, w) =>
    if _fd fh then
      let old := default "" (files w !! _filename fh) in
      (Returned tt,
       (fh, emit (EvWrite (_filename fh) (formatted msg))
                 (set_files (<[_filename fh := old +:+ formatted msg]> (files w)) w)))
    else
      (Thrown (spdlog_ex ("Failed writing to file " +:+ _filename fh) (Some (errno w))),
       (fh, w)).

Definition flush : M (t * world) unit :=
  fun '(fh, w) => (Returned tt, (fh, emit (EvFlush (_filename fh)) w)).

Definition size : M (t * world) Z :=
  fun '(fh, w) =>
    if _fd fh then
      (Returned (SizeT.wrap (StdString.size (default "" (files w !! _filename fh)))), (fh, w))
    else
      (Thrown (spdlog_ex ("Cannot use size() on closed file " +:+ _filename fh) None),
       (fh, w)).

Definition file_exists (p : filename_t) : M (t * world) bool := lift (os.file_exists p).
Definition remove (p : filename_t) : M (t * world) Z := lift (os.remove p).
Definition rename (src dst : filename_t) : M (t * world) Z := lift (os.rename src dst).
End FileHelper.

(** ** Rotating file sink based on size *)

Module rotating_file_sink.
Record t : Type := mk {
  _extension : filename_t;
  _base_filename : filename_t;
  _max_size : Z;
  _max_files : Z;
  _current_size : Z;
  _file_helper : FileHelper.t
}.

Definition set_current_size (n : Z) (s : t) : t :=
  mk (_extension s) (_base_filename s) (_max_size s) (_max_files s) n (_file_helper s).
Definition set_file_helper (fh : FileHelper.t) (s : t) : t :=
  mk (_extension s) (_base_filename s) (_max_size s) (_max_files s) (_current_size s) fh.

(** Calls on the member [_file_helper]. *)
Definition fh {A} (m : M (FileHelper.t * world) A) : M (t * world) A :=
  zoom (fun s => (_file_helper (fst s), snd s))
       (fun r s => (set_file_helper (fst r) (fst s), snd r)) m.

(** [calc_filename(filename, index, extension)], lines 146-154: the format
    ["{}.{}.{}"] when [index] is not zero, ["{}.{}"] otherwise. *)
Definition calc_filename (filename : filename_t) (index : Z) (extension : filename_t)
  : filename_t :=
  if decide (index = 0) then filename +:+ "." +:+ extension
  else filename +:+ "." +:+ pretty index +:+ "." +:+ extension.

(** Lines 78-92 of the constructor: the split of [filename] into
    [_base_filename] and [_extension]. [ndx + 1] is [size_t] arithmetic. *)
Definition split_filename (filename : filename_t) : outcome (filename_t * filename_t) :=
  let ndx := StdString.find_last_of filename "." in
  let ndxs1 := StdString.find_last_of filename StdString.backslash in
  let ndxs2 := StdString.find_last_of filename "/" in
  if bool_decide (ndx = SizeT.npos) && (bool_decide (ndx < ndxs1) || bool_decide (ndx < ndxs2))
  then Returned (filename, "log")
  else
    match StdString.substr filename 0 ndx,
          StdString.substr filename (SizeT.add ndx 1) SizeT.npos with
    | Some b, Some e => Returned (b, e)
    | _, _ => Thrown out_of_range
    end.

(** The constructor taking a single path, lines 71-95. *)
Definition ctor (filename : filename_t) (max_size max_files : Z) : M world t :=
  fun w =>
    match split_filename filename with
    | Thrown e => (Thrown e, w)
    | Returned (base, ext) =>
        let s := mk ext base max_size max_files 0 FileHelper.init in
        match (fh (FileHelper.open (calc_filename base 0 ext) false) ;;;
               n <- fh FileHelper.size ;;
               modify (fun st => (set_current_size n (fst st), snd st))) (s, w) with
        | (Returned _, (s', w')) => (Returned s', w')
        | (Thrown e, (_, w')) => (Thrown e, w')
        end
    end.

(** The constructor taking base name and extension, lines 97-108. *)
Definition ctor2 (base_filename extension : filename_t) (max_size max_files : Z)
  : M world t :=
  fun w =>
    let s := mk extension base_filename max_size max_files 0 FileHelper.init in
    match (fh (FileHelper.open (calc_filename base_filename 0 extension) false) ;;;
           n <- fh FileHelper.size ;;
           modify (fun st => (set_current_size n (fst st), snd st))) (s, w) with
    | (Returned _, (s', w')) => (Returned s', w')
    | (Thrown e, (_, w')) => (Thrown e, w')
    end.

(** One iteration of the loop of [_rotate], lines 167-180, for [i = S j]. *)
Definition _rotate_step (j : nat) : M (t * world) unit :=
  st <- get ;;
  let src := calc_filename (_base_filename (fst st)) (Z.of_nat j) (_extension (fst st)) in
  let target := calc_filename (_base_filename (fst st)) (Z.of_nat (S j)) (_extension (fst st)) in
  target_exists <- fh (FileHelper.file_exists target) ;;
  when target_exists
    (rc <- fh (FileHelper.remove target) ;;
     if negb (rc =? 0)
     then st' <- get ;;
          throw (spdlog_ex ("rotating_file_sink: failed removing " +:+ target)
                           (Some (errno (snd st'))))
     else ret tt) ;;;
  src_exists <- fh (FileHelper.file_exists src) ;;
  if src_exists
  then rc <- fh (FileHelper.rename src target) ;;
       if negb (rc =? 0)
       then st' <- get ;;
            throw (spdlog_ex ("rotating_file_sink: failed renaming " +:+ src
                                +:+ " to " +:+ target)
                             (Some (errno (snd st'))))
       else ret tt
  else ret tt.

(** [for (auto i = _max_files; i > 0; --i)] *)
Fixpoint _rotate_loop (i : nat) : M (t * world) unit :=
  match i with
  | O => ret tt
  | S j => _rotate_step j ;;; _rotate_loop j
  end.

(** [_rotate()], lines 161-183. *)
Definition _rotate : M (t * world) unit :=
  fh FileHelper.close ;;;
  st <- get ;;
  _rotate_loop (Z.to_nat (_max_files (fst st))) ;;;
  fh (FileHelper.reopen true).

(** [_sink_it(msg)], lines 129-138. *)
Definition _sink_it (msg : log_msg) : M (t * world) unit :=
  modify (fun st => (set_current_size
                       (SizeT.add (_current_size (fst st)) (StdString.size (formatted msg)))
                       (fst st), snd st)) ;;;
  st <- get ;;
  when (bool_decide (_current_size (fst st) > _max_size (fst st)))
    (_rotate ;;;
     modify (fun st => (set_current_size (StdString.size (formatted msg)) (fst st), snd st))) ;;;
  fh (FileHelper.write msg).

(** [_flush()], lines 140-143. *)
Definition _flush : M (t * world) unit := fh FileHelper.flush.
End rotating_file_sink.

(** ** The calendar capability *)

(** [std::tm], the fields the sinks use. *)
Record tm : Type := mkTm {
  tm_sec : Z;
  tm_min : Z;
  tm_hour : Z;
  tm_mday : Z;   (* 1..31 *)
  tm_mon : Z;    (* 0..11 *)
  tm_year : Z    (* years since 1900 *)
}.

Module Calendar.
(** Days since 1970-01-01 to (year, month, day) of the proleptic
    Gregorian calendar. Years are counted from March inside a 400-year
    era, so that the leap day is the last day of its year. *)
Definition civil_from_days (z : Z) : Z * Z * Z :=
  let z := z + 719468 in
  let era := z / 146097 in
  let doe := z mod 146097 in
  let c := Z.min (doe / 36524) 3 in
  let r := doe - c * 36524 in
  let q := r / 1461 in
  let r2 := r - q * 1461 in
  let y1 := Z.min (r2 / 365) 3 in
  let doy := r2 - y1 * 365 in
  let yoe := 100 * c + 4 * q + y1 in
  let mp := (5 * doy + 2) / 153 in
  let d := doy - (153 * mp + 2) / 5 + 1 in
  let m := if mp <? 10 then mp + 3 else mp - 9 in
  (yoe + era * 400 + (if m <=? 2 then 1 else 0), m, d).

Definition days_from_civil (y m d : Z) : Z :=
  let y := y - (if m <=? 2 then 1 else 0) in
  let era := y / 400 in
  let yoe := y mod 400 in
  let mp := if 2 <? m then m - 3 else m + 9 in
  let doy := (153 * mp + 2) / 5 + d - 1 in
  let doe := yoe * 365 + yoe / 4 - yoe / 100 + doy in
  era * 146097 + doe - 719468.

(** Modelled from the spec: [details::os::localtime(time_t)] (in
    [details/os.h], absent here) returns the calendar fields of an instant
    in local time; the zone is at the fixed offset [off] from UTC. *)
Definition localtime (off : Z) (t : Z) : tm :=
  let l := t + off in
  let '(y, m, d) := civil_from_days (l / 86400) in
  let sod := l mod 86400 in
  mkTm (sod mod 60) (sod / 60 mod 60) (sod / 3600) d (m - 1) (y - 1900).

(** [std::mktime]: the instant of the given local calendar fields;
    out-of-range fields are carried over. *)
Definition mktime (off : Z) (date : tm) : Z :=
  let y := tm_year date + 1900 + tm_mon date / 12 in
  let m := tm_mon date mod 12 + 1 in
  days_from_civil y m (tm_mday date) * 86400
    + tm_hour date * 3600 + tm_min date * 60 + tm_sec date - off.
End Calendar.

Module chrono.
(** [system_clock::time_point] counts nanoseconds in a signed 64-bit
    integer. Arithmetic on the count that leaves its range wraps around,
    as it does on the two's complement machines the library runs on. *)
Definition ticks_per_second : Z := 1000000000.
Definition min_rep : Z := - 2 ^ 63.
Definition max_rep : Z := 2 ^ 63 - 1.
Definition wrap (x : Z) : Z := (x + 2 ^ 63) mod 2 ^ 64 - 2 ^ 63.
(** [system_clock::to_time_t]: a [duration_cast], truncating toward zero. *)
Definition to_time_t (tp : Z) : Z := Z.quot tp ticks_per_second.
(** [system_clock::from_time_t]: seconds to nanoseconds, in the count. *)
Definition from_time_t (t : Z) : Z := wrap (t * ticks_per_second).
Definition hours (h : Z) : Z := h * 3600 * ticks_per_second.
(** [time_point + duration], in the count. *)
Definition plus (tp d : Z) : Z := wrap (tp + d).
End chrono.

Module os_time.
(** Modelled from the spec: [details::os::localtime()] without argument
    reads the clock ([time(nullptr)]) and returns its local calendar
    fields. *)
Definition localtime_now : M world tm :=
  fun w =>
    let t := chrono.to_time_t (clock w (ticks w)) in
    (Returned (Calendar.localtime (gmtoff w) t), emit (EvTime t) (tick w)).
End os_time.

(** ** Daily file names *)

Module fmt.
Fixpoint zeros (n : nat) : string :=
  match n with O => "" | S n' => String "0" (zeros n') end.
(** The format [{:0Wd}]: decimal, zero-padded to a minimal width of [W],
    the sign counting in the width. *)
Definition d0 (width : nat) (z : Z) : string :=
  if z <? 0
  then "-" +:+ zeros (width - 1 - String.length (pretty (- z))) +:+ pretty (- z)
  else zeros (width - String.length (pretty z)) +:+ pretty z.
End fmt.

(** The template parameter [FileNameCalc]: a static [calc_filename] that
    reads the local time and formats a name from it. *)
Class FileNameCalc : Type := { name_format : tm -> filename_t -> filename_t -> filename_t }.

Definition calc_filename `{FileNameCalc} (basename extension : filename_t)
  : M world filename_t :=
  date <- os_time.localtime_now ;;
  ret (name_format date basename extension).

(** [default_daily_file_name_calculator], lines 198-210: the format
    ["{}_{:04d}-{:02d}-{:02d}_{:02d}-{:02d}.{}"]. The two statements before
    the format (a second declaration of [basename] from an undeclared
    [filename]) do not compile and take no part in the format. *)
#[export] Instance default_daily_file_name_calculator : FileNameCalc := {
  name_format date basename extension :=
    basename +:+ "_" +:+ fmt.d0 4 (tm_year date + 1900) +:+ "-"
      +:+ fmt.d0 2 (tm_mon date + 1) +:+ "-" +:+ fmt.d0 2 (tm_mday date) +:+ "_"
      +:+ fmt.d0 2 (tm_hour date) +:+ "-" +:+ fmt.d0 2 (tm_min date)
      +:+ "." +:+ extension
}.

(** [dateonly_daily_file_name_calculator], lines 215-227: the format
    ["{}_{:04d}-{:02d}-{:02d}.{}"]. *)
Definition dateonly_daily_file_name_calculator : FileNameCalc := {|
  name_format date basename extension :=
    basename +:+ "_" +:+ fmt.d0 4 (tm_year date + 1900) +:+ "-"
      +:+ fmt.d0 2 (tm_mon date + 1) +:+ "-" +:+ fmt.d0 2 (tm_mday date)
      +:+ "." +:+ extension
|}.

(** ** Rotating file sink based on date *)

Module daily_file_sink.
Record t : Type := mk {
  _extension : filename_t;
  _base_filename : filename_t;
  _rotation_h : Z;
  _rotation_m : Z;
  _rotation_tp : Z;
  _file_helper : FileHelper.t
}.

Definition set_rotation_tp (tp : Z) (s : t) : t :=
  mk (_extension s) (_base_filename s) (_rotation_h s) (_rotation_m s) tp (_file_helper s).
Definition set_file_helper (fh : FileHelper.t) (s : t) : t :=
  mk (_extension s) (_base_filename s) (_rotation_h s) (_rotation_m s) (_rotation_tp s) fh.

Definition fh {A} (m : M (FileHelper.t * world) A) : M (t * world) A :=
  zoom (fun s => (_file_helper (fst s), snd s))
       (fun r s => (set_file_helper (fst r) (fst s), snd r)) m.
Definition env {A} (m : M world A) : M (t * world) A :=
  zoom snd (fun w s => (fst s, w)) m.

(** Lines 247-261 of the constructor: the split of [filename]. The test
    compares [ndxs2] with [ndx] twice; [ndxs1] is computed and not used. *)
Definition split_filename (filename : filename_t) : outcome (filename_t * filename_t) :=
  let ndx := StdString.find_last_of filename "." in
  let ndxs1 := StdString.find_last_of filename StdString.backslash in
  let ndxs2 := StdString.find_last_of filename "/" in
  if bool_decide (ndx = SizeT.npos) && (bool_decide (ndxs2 < ndx) || bool_decide (ndxs2 < ndx))
  then Returned (filename, "txt")
  else
    match StdString.substr filename 0 ndx,
          StdString.substr filename (SizeT.add ndx 1) SizeT.npos with
    | Some b, Some e => Returned (b, e)
    | _, _ => Thrown out_of_range
    end.

(** [_next_rotation_tp()], lines 300-314. *)
Definition _next_rotation_tp : M (t * world) Z :=
  now <- env os.now ;;
  st <- get ;;
  let tnow := chrono.to_time_t now in
  let date := Calendar.localtime (gmtoff (snd st)) tnow in
  let date := mkTm 0 (_rotation_m (fst st)) (_rotation_h (fst st))
                   (tm_mday date) (tm_mon date) (tm_year date) in
  let rotation_time := chrono.from_time_t (Calendar.mktime (gmtoff (snd st)) date) in
  if bool_decide (rotation_time > now) then ret rotation_time
  else ret (chrono.plus rotation_time (chrono.hours 24)).

Definition invalid_rotation_time (rotation_hour rotation_minute : Z) : bool :=
  bool_decide (rotation_hour < 0) || bool_decide (rotation_hour > 23)
  || bool_decide (rotation_minute < 0) || bool_decide (rotation_minute > 59).

Section WithCalc.
Context `{FileNameCalc}.

(** The body of the single-path constructor, lines 243-263, on the
    object whose members were initialised at lines 241-242. *)
Definition ctor_body (filename : filename_t) (rotation_hour rotation_minute : Z)
  : M (t * world) unit :=
  (if invalid_rotation_time rotation_hour rotation_minute
   then throw (spdlog_ex "daily_file_sink: Invalid rotation time in ctor" None)
   else ret tt) ;;;
  tp <- _next_rotation_tp ;;
  modify (fun st => (set_rotation_tp tp (fst st), snd st)) ;;;
  match split_filename filename with
  | Thrown e => throw e
  | Returned (base, ext) =>
      modify (fun st => (mk ext base (_rotation_h (fst st)) (_rotation_m (fst st))
                            (_rotation_tp (fst st)) (_file_helper (fst st)), snd st)) ;;;
      name <- env (calc_filename base ext) ;;
      fh (FileHelper.open name false)
  end.

Definition ctor (filename : filename_t) (rotation_hour rotation_minute : Z)
  : M world t :=
  fun w =>
    let s := mk "" "" rotation_hour rotation_minute 0 FileHelper.init in
    match ctor_body filename rotation_hour rotation_minute (s, w) with
    | (Returned _, (s', w')) => (Returned s', w')
    | (Thrown e, (_, w')) => (Thrown e, w')
    end.

(** The constructor taking base name and extension, lines 265-281. *)
Definition ctor2 (base_filename extension : filename_t)
    (rotation_hour rotation_minute : Z) : M world t :=
  fun w =>
    let s := mk extension base_filename rotation_hour rotation_minute 0
                FileHelper.init in
    match ((if invalid_rotation_time rotation_hour rotation_minute
            then throw (spdlog_ex "daily_file_sink: Invalid rotation time in ctor" None)
            else ret tt) ;;;
           tp <- _next_rotation_tp ;;
           modify (fun st => (set_rotation_tp tp (fst st), snd st)) ;;;
           name <- env (calc_filename base_filename extension) ;;
           fh (FileHelper.open name false)) (s, w) with
    | (Returned _, (s', w')) => (Returned s', w')
    | (Thrown e, (_, w')) => (Thrown e, w')
    end.

(** [_sink_it(msg)], lines 284-292. *)
Definition _sink_it (msg : log_msg) : M (t * world) unit :=
  now <- env os.now ;;
  st <- get ;;
  when (bool_decide (now >= _rotation_tp (fst st)))
    (name <- env (calc_filename (_base_filename (fst st)) (_extension (fst st))) ;;
     fh (FileHelper.open name false) ;;;
     tp <- _next_rotation_tp ;;
     modify (fun st => (set_rotation_tp tp (fst st), snd st))) ;;;
  fh (FileHelper.write msg).

(** [_flush()], lines 294-297. *)
Definition _flush : M (t * world) unit := fh FileHelper.flush.
End WithCalc.
End daily_file_sink.


(** ** Trivial file sink with a single file as target *)

Module simple_file_sink.
Record t : Type := mk {
  _file_helper : FileHelper.t;
  _force_flush : bool
}.

Definition set_file_helper (fh : FileHelper.t) (s : t) : t := mk fh (_force_flush s).

Definition fh {A} (m : M (FileHelper.t * world) A) : M (t * world) A :=
  zoom (fun s => (_file_helper (fst s), snd s))
       (fun r s => (set_file_helper (fst r) (fst s), snd r)) m.

(** The constructor, lines 30-34; [truncate] defaults to [false]. *)
Definition ctor (filename : filename_t) (truncate : bool) : M world t :=
  fun w =>
    match fh (FileHelper.open filename truncate) (mk FileHelper.init false, w) with
    | (Returned _, (s', w')) => (Returned s', w')
    | (Thrown e, (_, w')) => (Thrown e, w')
    end.

(** [set_force_flush(force_flush)], lines 36-39. *)
Definition set_force_flush (force_flush : bool) : M (t * world) unit :=
  modify (fun st => (mk (_file_helper (fst st)) force_flush, snd st)).

(** [_sink_it(msg)], lines 42-49. *)
Definition _sink_it (msg : log_msg) : M (t * world) unit :=
  fh (FileHelper.write msg) ;;;
  st <- get ;;
  when (_force_flush (fst st)) (fh FileHelper.flush).

(** [_flush()], lines 51-54. *)
Definition _flush : M (t * world) unit := fh FileHelper.flush.
End simple_file_sink.
(** * Properties *)

(** ** Worlds used as concrete inputs *)

(** An empty file system where no call is refused, no clock reading has
    been consumed and the clock always shows [t]; local time is UTC. *)
Definition quiet_world (t : Z) : world :=
  mkWorld ∅ (fun _ => None) 0 (fun _ => t) 0 0 [].

(** ** The backup index chain of a size-triggered sink *)

Module chain.
Import rotating_file_sink.

(** The file at backup index [i]; index 0 is the active file. *)
Definition name (s : t) (i : nat) : filename_t :=
  calc_filename (_base_filename s) (Z.of_nat i) (_extension s).

(** The sink writes to its index-0 file, which is open: what both
    constructors establish and every returning write keeps. *)
Definition wf (s : t) : Prop :=
  FileHelper._fd (_file_helper s) = true
  ∧ FileHelper._filename (_file_helper s) = name s 0.

(** The number of backup files, as the loop counts them. *)
Definition backups (s : t) : nat := Z.to_nat (_max_files s).

(** The sink once [_file_helper.close()] has run, and once the index-0
    file is open again. *)
Definition closed (s : t) : t :=
  set_file_helper (FileHelper.mk false (FileHelper._filename (_file_helper s))) s.
Definition reopened (s : t) : t :=
  set_file_helper (FileHelper.mk true (name s 0)) s.
Definition close_events (s : t) : list event :=
  if FileHelper._fd (_file_helper s)
  then [EvClose (FileHelper._filename (_file_helper s))] else [].
Definition after_close (s : t) (w : world) : t * world :=
  if FileHelper._fd (_file_helper s)
  then (closed s, emit (EvClose (FileHelper._filename (_file_helper s))) w)
  else (s, w).

(** The file helper of the sink is bound to the index-0 file. *)
Definition named (s : t) : Prop :=
  FileHelper._filename (_file_helper s) = name s 0.

(** The calls of iteration [i = S j] of the loop when it goes through, on
    the files [F]; [target_exists] says whether [name s (S j)] exists. *)
Definition step_events (s : t) (F : gmap string string) (j : nat) (target_exists : bool)
  : list event :=
  [EvExists (name s (S j)) target_exists]
  ++ (if target_exists then [EvRemove (name s (S j)) None] else [])
  ++ [EvExists (name s j) (bool_decide (is_Some (F !! name s j)))]
  ++ (if bool_decide (is_Some (F !! name s j))
      then [EvRename (name s j) (name s (S j)) None] else []).

(** The calls of the whole descending pass from index [i]: below the first
    iteration every target has just been moved away. *)
Fixpoint loop_events (s : t) (F : gmap string string) (i : nat) (target_exists : bool)
  : list event :=
  match i with
  | O => []
  | S j => step_events s F j target_exists ++ loop_events s F j false
  end.

Definition is_truncating_open (ev : event) : bool :=
  match ev with EvOpen _ true None => true | _ => false end.

(** Rotations in a trace: [_rotate] is the only caller of a truncating
    open, and makes one. *)
Definition rotations (evs : list event) : nat :=
  length (List.filter is_truncating_open evs).

Definition is_failed_call (ev : event) : bool :=
  match ev with
  | EvOpen _ _ (Some _) | EvRemove _ (Some _) | EvRename _ _ (Some _) => true
  | _ => false
  end.

(** What iteration [i = S j] leaves on disk when it goes through. *)
Definition moved (s : t) (j : nat) (F : gmap string string) : gmap string string :=
  match F !! name s j with
  | Some c => <[name s (S j) := c]> (delete (name s j) (delete (name s (S j)) F))
  | None => delete (name s (S j)) F
  end.

(** [F'] is [F] with the chain moved up by one below index [n]: index
    [k + 1] holds what index [k] held, index 0 is vacant, what index [n]
    held is gone, and no other path changed. *)
Definition shifted (s : t) (n : nat) (F F' : gmap string string) : Prop :=
  (∀ k, (k < n)%nat → F' !! name s (S k) = F !! name s k)
  ∧ F' !! name s 0 = match n with O => F !! name s 0 | S _ => None end
  ∧ (∀ p, (∀ k, (k ≤ n)%nat → p ≠ name s k) → F' !! p = F !! p).

(** The exception that reports the failed call [ev]. *)
Definition reports (e : exn) (ev : event) : Prop :=
  match ev with
  | EvRemove p (Some c) =>
      e = spdlog_ex ("rotating_file_sink: failed removing " +:+ p) (Some c)
  | EvRename src dst (Some c) =>
      e = spdlog_ex ("rotating_file_sink: failed renaming " +:+ src +:+ " to " +:+ dst)
                    (Some c)
  | EvOpen p _ (Some c) =>
      e = spdlog_ex ("Failed opening file " +:+ p +:+ " for writing") (Some c)
  | _ => False
  end.
End chain.

(** The parts of the world a sink cannot change. *)
Definition same_oracle (w w' : world) : Prop :=
  fault w' = fault w ∧ clock w' = clock w ∧ gmtoff w' = gmtoff w.

(** No file-system call is refused. *)
Definition unrefused (w : world) : Prop := ∀ op, fault w op = None.

(** ** The rotation instant of a time-triggered sink *)

Module daily.
Import daily_file_sink.

(** What the constructors check. *)
Definition valid_time (s : t) : Prop :=
  0 <= _rotation_h s <= 23 ∧ 0 <= _rotation_m s <= 59.

(** The first second of the local day of [t], a [time_t]. *)
Definition day_start (off t : Z) : Z := (t + off) / 86400 * 86400 - off.

(** The rotation time of day on the local day of the instant [now]. *)
Definition candidate (s : t) (off now : Z) : Z :=
  (day_start off (chrono.to_time_t now) + _rotation_h s * 3600 + _rotation_m s * 60)
  * chrono.ticks_per_second.

(** The candidate if it is strictly after [now], else 24 hours later. *)
Definition next_tp (s : t) (off now : Z) : Z :=
  if bool_decide (candidate s off now > now) then candidate s off now
  else candidate s off now + 24 * 3600 * 1000000000.

(** What [_next_rotation_tp] computes in the 64-bit count of a
    [time_point]: the conversion of the candidate and the addition of 24
    hours both wrap. *)
Definition computed_tp (s : t) (off now : Z) : Z :=
  let rotation_time :=
    chrono.from_time_t
      (day_start off (chrono.to_time_t now) + _rotation_h s * 3600 + _rotation_m s * 60) in
  if bool_decide (rotation_time > now) then rotation_time
  else chrono.plus rotation_time (chrono.hours 24).

(** A clock reading at least 48 hours away from both ends of the range of
    the count (the years 1677 and 2262): the candidate of its day and the
    instant 24 hours after it are in the range. *)
Definition safe_reading (now : Z) : Prop :=
  chrono.min_rep + chrono.hours 48 <= now <= chrono.max_rep - chrono.hours 48.

(** The name [FileNameCalc] gives the sink at the clock reading [now]. *)
Definition dated_name `{FileNameCalc} (s : t) (off now : Z) : filename_t :=
  name_format (Calendar.localtime off (chrono.to_time_t now))
              (_base_filename s) (_extension s).

Definition close_events (s : t) : list event :=
  if FileHelper._fd (_file_helper s)
  then [EvClose (FileHelper._filename (_file_helper s))] else [].

(** The world once an open file helper has been closed. *)
Definition closing (s : t) (w : world) : world :=
  if FileHelper._fd (_file_helper s)
  then emit (EvClose (FileHelper._filename (_file_helper s))) w else w.

Definition is_unlink (ev : event) : bool :=
  match ev with EvRemove _ _ | EvRename _ _ _ => true | _ => false end.

Definition is_clock_read (ev : event) : bool :=
  match ev with EvNow _ => true | _ => false end.

(** Readings of [system_clock::now()] in a trace: a write makes one for
    its test, and every run of [_next_rotation_tp] makes one. *)
Definition clock_reads (evs : list event) : nat :=
  length (List.filter is_clock_read evs).

(** Every file of [F] is still in [F'], with at most more content. *)
Definition preserved (F F' : gmap string string) : Prop :=
  ∀ p c, F !! p = Some c → ∃ c', F' !! p = Some (c +:+ c').
End daily.

(** ** Concrete sinks and worlds *)

Module fixtures.
(** A size-triggered sink on ["log.txt"] with at most 10 bytes per file and
    two backups, 8 bytes into its active file. *)
Definition sink : rotating_file_sink.t :=
  rotating_file_sink.mk "txt" "log" 10 2 8 (FileHelper.mk true "log.txt").

(** The same sink without backups. *)
Definition sink0 : rotating_file_sink.t :=
  rotating_file_sink.mk "txt" "log" 10 0 8 (FileHelper.mk true "log.txt").

Definition disk : gmap string string :=
  <["log.txt" := "12345678"]> (<["log.1.txt" := "older"]> (<["log.2.txt" := "oldest"]>
    (<["other.txt" := "keep"]> ∅))).

(** A world where every call goes through. *)
Definition calm : world := mkWorld disk (fun _ => None) 0 (fun _ => 0) 0 0 [].

(** A world where renaming ["log.1.txt"] is refused with [EACCES] (13). *)
Definition refuse_rename (op : fs_op) : option Z :=
  match op with
  | OpRename src _ => if String.eqb src "log.1.txt" then Some 13 else None
  | _ => None
  end.
Definition stuck : world := mkWorld disk refuse_rename 0 (fun _ => 0) 0 0 [].

(** Instants of 2024, in nanoseconds, local time being UTC. *)
Definition at_2024_01_01_11h : Z := 1704106800 * 1000000000.
Definition at_2024_01_01_13h : Z := 1704114000 * 1000000000.
Definition at_2024_01_02_00_00_00 : Z := 1704153600 * 1000000000.
Definition at_2024_01_02_00_00_01 : Z := 1704153601 * 1000000000.
Definition at_2024_01_03_00_00_00 : Z := 1704240000 * 1000000000.
(** 2262-04-11 23:47:16, less than a day before the last instant of the
    64-bit count, which is 2262-04-11 23:47:16.854775807. *)
Definition at_2262_04_11_23_47_16 : Z := 9223372036 * 1000000000.

(** A time-triggered sink rotating at midnight, writing to the file of
    2024-01-01 11:00 and due at [tp]. *)
Definition midnight_sink (tp : Z) : daily_file_sink.t :=
  daily_file_sink.mk "txt" "log" 0 0 tp (FileHelper.mk true "log_2024-01-01_11-00.txt").

(** A clock that shows 11:00 on 2024-01-01 for its first two readings and
    13:00 afterwards. *)
Definition morning_then_afternoon (n : nat) : Z :=
  match n with
  | O | S O => at_2024_01_01_11h
  | _ => at_2024_01_01_13h
  end.
Definition noon_world : world :=
  mkWorld ∅ (fun _ => None) 0 morning_then_afternoon 0 0 [].

(** The sink [dateonly_daily_file_name_calculator] gives when constructed
    at 11:00 on 2024-01-01 to rotate at 12:00, and the world it leaves. *)
Definition noon_sink : daily_file_sink.t :=
  daily_file_sink.mk "txt" "log" 12 0 (1704110400 * 1000000000)
    (FileHelper.mk true "log_2024-01-01.txt").
Definition noon_world_constructed : world :=
  mkWorld (<["log_2024-01-01.txt" := ""]> ∅) (fun _ => None) 0 morning_then_afternoon 2 0
    [EvNow at_2024_01_01_11h; EvTime 1704106800; EvOpen "log_2024-01-01.txt" false None].

Definition short_msg : log_msg := {| formatted := "ab" |}.
Definition long_msg : log_msg := {| formatted := "abcdef" |}.
Definition huge_msg : log_msg := {| formatted := "0123456789abcdefghij" |}.
End fixtures.

(** ** Tactics for running the methods of the size-triggered sink *)

(** Unfold the monad and the file calls; [id_lemma] is the fact that
    putting back the file helper of a sink changes nothing. *)
Ltac mrun id_lemma :=
  cbv [bind get modify when ret throw rotating_file_sink.fh zoom
       FileHelper.file_exists FileHelper.remove FileHelper.rename FileHelper.lift
       os.file_exists os.remove os.rename]; cbn;
  rewrite ?id_lemma.

(** Unfold one iteration of the loop, with its two file names kept
    abstract; [ne_lemma] says that distinct indices give distinct names. *)
Ltac name_step s j ne_lemma id_lemma :=
  unfold rotating_file_sink._rotate_step; unfold bind at 1; unfold get at 1;
  cbv beta iota; cbn [fst snd];
  change (rotating_file_sink.calc_filename (rotating_file_sink._base_filename s)
            (Z.of_nat j) (rotating_file_sink._extension s)) with (chain.name s j);
  change (rotating_file_sink.calc_filename (rotating_file_sink._base_filename s)
            (Z.of_nat (S j)) (rotating_file_sink._extension s))
    with (chain.name s (S j));
  let Hne := fresh "Hne" in
  assert (chain.name s j ≠ chain.name s (S j)) as Hne by (apply ne_lemma; lia);
  unfold chain.moved, chain.step_events;
  generalize dependent (chain.name s (S j)); intros target;
  generalize dependent (chain.name s j); intros src Hne;
  mrun id_lemma.

(** One case split on the next file-system answer. *)
Ltac mcase id_lemma :=
  cbn; rewrite ?id_lemma;
  match goal with
  | H : fault ?w ?op = _ |- context [fault ?w ?op] => rewrite H
  | H : ?m !! ?k = _ |- context [?m !! ?k] => rewrite H
  | Hne : ?a ≠ ?b |- context [delete ?b _ !! ?a] =>
      rewrite (lookup_delete_ne _ b a) by congruence
  | |- context [match fault ?w ?op with _ => _ end] => destruct (fault w op) eqn:?
  | |- context [files ?w !! ?k] => destruct (files w !! k) eqn:?
  end.

(** ** Sequences of calls *)

(** A caller that hands the records of [l] to a sink one after the other,
    stopping at the first exception. *)
Fixpoint each {S A} (f : A -> M S unit) (l : list A) : M S unit :=
  match l with
  | [] => ret tt
  | a :: l' => f a ;;; each f l'
  end.

(** The bytes of a list of records, in order. *)
Fixpoint bytes_of (msgs : list log_msg) : string :=
  match msgs with
  | [] => ""
  | m :: msgs' => formatted m +:+ bytes_of msgs'
  end.

(** [n] runs of a method, stopping at the first exception. *)
Fixpoint times {S} (n : nat) (m : M S unit) : M S unit :=
  match n with
  | O => ret tt
  | S n' => m ;;; times n' m
  end.

(** The calls of a simple sink for the records of [msgs]. *)
Definition simple_events (fn : filename_t) (force_flush : bool) (msgs : list log_msg)
  : list event :=
  flat_map (fun m => EvWrite fn (formatted m)
                     :: (if force_flush then [EvFlush fn] else [])) msgs.

(** [c] occurs in [s]. *)
Fixpoint contains (c : ascii) (s : string) : bool :=
  match s with
  | EmptyString => false
  | String a s' => Ascii.eqb a c || contains c s'
  end.

(** ** The byte count of a size-triggered sink *)

Module accounting.
Import rotating_file_sink.

(** [_current_size] is the length of the active file, as a [size_t]. *)
Definition tracks (s : t) (w : world) : Prop :=
  ∃ c, files w !! chain.name s 0 = Some c
       ∧ _current_size s = SizeT.wrap (StdString.size c).

(** The record fits a [size_t], as every string in memory does. *)
Definition fits (msg : log_msg) : Prop :=
  StdString.size (formatted msg) < SizeT.modulus.

(** The paths removed by the calls of [evs], in order. *)
Fixpoint removed (evs : list event) : list filename_t :=
  match evs with
  | [] => []
  | EvRemove p _ :: evs' => p :: removed evs'
  | _ :: evs' => removed evs'
  end.
End accounting.

(** ** Digits and dates *)

Definition is_digit (c : ascii) : bool :=
  (48 <=? nat_of_ascii c)%nat && (nat_of_ascii c <=? 57)%nat.

Fixpoint digits_only (s : string) : bool :=
  match s with
  | EmptyString => true
  | String a s' => is_digit a && digits_only s'
  end.

(** The fields a file name shows are not negative, as those of every date
    from the year 0 on. *)
Definition plain_date (date : tm) : Prop :=
  0 <= tm_year date + 1900 ∧ 0 <= tm_mon date + 1 ∧ 0 <= tm_mday date
  ∧ 0 <= tm_hour date ∧ 0 <= tm_min date.

(** The same minute, the same day, on the calendar. *)
Definition same_minute (d1 d2 : tm) : Prop :=
  tm_year d1 = tm_year d2 ∧ tm_mon d1 = tm_mon d2 ∧ tm_mday d1 = tm_mday d2
  ∧ tm_hour d1 = tm_hour d2 ∧ tm_min d1 = tm_min d2.
Definition same_day (d1 d2 : tm) : Prop :=
  tm_year d1 = tm_year d2 ∧ tm_mon d1 = tm_mon d2 ∧ tm_mday d1 = tm_mday d2.

(** ** The calls of a time-triggered sink that is not due *)

(** One clock reading and one write for each record of [msgs], the
    readings being those of [clock] from the [k]-th on. *)
Fixpoint quiet_events (fn : filename_t) (clock : nat -> Z) (k : nat) (msgs : list log_msg)
  : list event :=
  match msgs with
  | [] => []
  | m :: msgs' => EvNow (clock k) :: EvWrite fn (formatted m) :: quiet_events fn clock (S k) msgs'
  end.

(** A world at 11:00 on 2024-01-01 that holds the file of that minute. *)
Definition morning_world : world :=
  mkWorld (<["log_2024-01-01_11-00.txt" := "x"]> ∅) (fun _ => None) 0
    fixtures.morning_then_afternoon 0 0 [].

(** ** Strings and file names *)

Lemma string_app_nil_l (s : string) : "" +:+ s = s.
Proof. reflexivity. Qed.

Lemma string_app_cons (a : ascii) (s t : string) : String a s +:+ t = String a (s +:+ t).
Proof. reflexivity. Qed.

Lemma string_app_nil_r (s : string) : s +:+ "" = s.
Proof. induction s; [reflexivity|]. rewrite string_app_cons. now f_equal. Qed.

Lemma string_length_app (s1 s2 : string) :
  String.length (s1 +:+ s2) = (String.length s1 + String.length s2)%nat.
Proof.
  induction s1 as [|a s1 IH]; [reflexivity|].
  rewrite string_app_cons. simpl. now rewrite IH.
Qed.

Lemma string_app_inj_r (s1 s2 t : string) : s1 +:+ t = s2 +:+ t → s1 = s2.
Proof.
  revert s2. induction s1 as [|a s1 IH]; intros [|b s2] Heq.
  - reflexivity.
  - apply (f_equal String.length) in Heq.
    rewrite !string_length_app in Heq. simpl in Heq. lia.
  - apply (f_equal String.length) in Heq.
    rewrite !string_length_app in Heq. simpl in Heq. lia.
  - rewrite !string_app_cons in Heq. injection Heq as -> Heq. f_equal. now apply IH.
Qed.

Lemma string_app_nonempty (s t : string) : s +:+ "." +:+ t ≠ "".
Proof.
  intros Heq. apply (f_equal String.length) in Heq.
  rewrite !string_length_app in Heq. simpl in Heq. lia.
Qed.

(** ** [size_t] arithmetic and [find_last_of] *)

Lemma SizeT_add_small (a b : Z) :
  0 <= a → 0 <= b → a + b < SizeT.modulus → SizeT.add a b = a + b.
Proof. intros Ha Hb Hlt. unfold SizeT.add, SizeT.wrap. apply Z.mod_small. lia. Qed.

Lemma find_last_of_from_range (s : string) (c : ascii) (i found : Z) :
  0 <= i → found = SizeT.npos ∨ 0 <= found < i →
  StdString.find_last_of_from s c i found = SizeT.npos
  ∨ 0 <= StdString.find_last_of_from s c i found < i + StdString.size s.
Proof.
  revert i found. induction s as [|a s IH]; intros i found Hi Hfound.
  - cbn. unfold StdString.size. cbn. destruct Hfound; [now left | right; lia].
  - cbn [StdString.find_last_of_from].
    destruct (IH (i + 1) (if Ascii.eqb a c then i else found)) as [Hr | Hr].
    + lia.
    + destruct (Ascii.eqb a c); [right; lia | destruct Hfound; [now left | right; lia]].
    + now left.
    + right. unfold StdString.size in *. cbn [String.length]. lia.
Qed.

(** An index returned by [find_last_of] is [npos] or lies inside the string. *)
Lemma find_last_of_range (s : string) (c : ascii) :
  StdString.find_last_of s c = SizeT.npos
  ∨ 0 <= StdString.find_last_of s c < StdString.size s.
Proof.
  unfold StdString.find_last_of.
  destruct (find_last_of_from_range s c 0 SizeT.npos) as [Hr | Hr]; auto; lia.
Qed.

Module chain_facts.
Import rotating_file_sink chain.

Lemma name_0 s : name s 0 = _base_filename s +:+ "." +:+ _extension s.
Proof. reflexivity. Qed.

Lemma name_S s j :
  name s (S j) = _base_filename s +:+ "." +:+ pretty (Z.of_nat (S j)) +:+ "." +:+ _extension s.
Proof.
  unfold name, calc_filename. destruct (decide (Z.of_nat (S j) = 0)); [lia | reflexivity].
Qed.

Lemma name_nonempty s i : name s i ≠ "".
Proof. destruct i; [rewrite name_0 | rewrite name_S]; apply string_app_nonempty. Qed.

(** Distinct indices name distinct files. *)
Lemma name_inj s i j : name s i = name s j → i = j.
Proof.
  destruct i as [|i], j as [|j]; rewrite ?name_0, ?name_S; intros Heq.
  - reflexivity.
  - do 2 apply String.app_inj in Heq.
    apply (f_equal String.length) in Heq. rewrite !string_length_app in Heq.
    simpl in Heq. lia.
  - do 2 apply String.app_inj in Heq.
    apply (f_equal String.length) in Heq. rewrite !string_length_app in Heq.
    simpl in Heq. lia.
  - do 2 apply String.app_inj in Heq.
    change (pretty (Z.of_nat (S i)) +:+ ("." +:+ _extension s)
            = pretty (Z.of_nat (S j)) +:+ ("." +:+ _extension s)) in Heq.
    apply string_app_inj_r in Heq. apply (inj pretty) in Heq. lia.
Qed.

Lemma name_ne s i j : i ≠ j → name s i ≠ name s j.
Proof. intros Hne Heq. apply Hne. eapply name_inj, Heq. Qed.
End chain_facts.

(** ** The constructors *)

(** The test of the size-triggered constructor never holds for a string
    that fits in memory: no index exceeds [npos], so the branch that keeps
    the whole path and appends ["log"] is dead, and every path is cut at
    [ndx] ([substr(0, npos)] being the whole string, [npos + 1] being 0). *)
Lemma rotating_split_never_defaults (filename : filename_t) :
  StdString.size filename <= SizeT.npos →
  rotating_file_sink.split_filename filename
  = match StdString.substr filename 0 (StdString.find_last_of filename "."),
          StdString.substr filename (SizeT.add (StdString.find_last_of filename ".") 1)
                           SizeT.npos with
    | Some b, Some e => Returned (b, e)
    | _, _ => Thrown out_of_range
    end.
Proof.
  intros Hsize. unfold rotating_file_sink.split_filename. cbv zeta.
  destruct (bool_decide (StdString.find_last_of filename "." = SizeT.npos)) eqn:Hdot;
    [|reflexivity].
  apply bool_decide_eq_true in Hdot. rewrite Hdot.
  rewrite (bool_decide_eq_false_2 (SizeT.npos < StdString.find_last_of filename StdString.backslash)),
          (bool_decide_eq_false_2 (SizeT.npos < StdString.find_last_of filename "/")).
  - reflexivity.
  - destruct (find_last_of_range filename "/"); lia.
  - destruct (find_last_of_range filename StdString.backslash); lia.
Qed.

(** C1 (the code departs from the claim). The claim: a path whose filename
    component has no dot keeps the whole path as base and gets the default
    extension. The size-triggered constructor tests [ndx == npos] together
    with [ndx < ndxs1 || ndx < ndxs2], which no path satisfies, and the
    time-triggered constructor only recognises a dot-free path that has a
    ['/']: ["a.b/c"] is split at the directory's dot by both, and the
    dot-free ["abc"] gets itself as extension. *)
Theorem C1_split_at_directory_dot :
  rotating_file_sink.split_filename "a.b/c" = Returned ("a", "b/c")
  ∧ rotating_file_sink.split_filename "abc" = Returned ("abc", "abc")
  ∧ daily_file_sink.split_filename "a.b/c" = Returned ("a", "b/c")
  ∧ daily_file_sink.split_filename "abc" = Returned ("abc", "abc")
  ∧ (∃ s w, rotating_file_sink.ctor "a.b/c" 1024 3 (quiet_world 0) = (Returned s, w)
            ∧ rotating_file_sink._base_filename s = "a"
            ∧ rotating_file_sink._extension s = "b/c")
  ∧ (∃ s w, daily_file_sink.ctor "a.b/c" 0 0 (quiet_world 0) = (Returned s, w)
            ∧ daily_file_sink._base_filename s = "a"
            ∧ daily_file_sink._extension s = "b/c").
Proof.
  repeat split; try reflexivity.
  - eexists _, _. split; [vm_compute; reflexivity|]. split; reflexivity.
  - eexists _, _. split; [vm_compute; reflexivity|]. split; reflexivity.
Qed.

(** C6. Constructing a time-triggered sink with an hour outside [0,23] or a
    minute outside [0,59] throws the configuration error at once: the world
    is left as it was (no clock reading, no file opened, nothing traced) and
    no sink is returned, so the values are not clamped. Both constructors. *)
Theorem C6_invalid_rotation_time_throws `{FileNameCalc}
    (filename extension : filename_t) (rotation_hour rotation_minute : Z) (w : world) :
  rotation_hour < 0 ∨ 23 < rotation_hour ∨ rotation_minute < 0 ∨ 59 < rotation_minute →
  daily_file_sink.ctor filename rotation_hour rotation_minute w
    = (Thrown (spdlog_ex "daily_file_sink: Invalid rotation time in ctor" None), w)
  ∧ daily_file_sink.ctor2 filename extension rotation_hour rotation_minute w
    = (Thrown (spdlog_ex "daily_file_sink: Invalid rotation time in ctor" None), w).
Proof.
  intros Hbad.
  assert (daily_file_sink.invalid_rotation_time rotation_hour rotation_minute = true) as Hinv.
  { unfold daily_file_sink.invalid_rotation_time.
    rewrite !orb_true_iff, !bool_decide_eq_true. lia. }
  unfold daily_file_sink.ctor, daily_file_sink.ctor2, daily_file_sink.ctor_body, bind.
  rewrite Hinv. split; reflexivity.
Qed.

Lemma C6_rotation_hour_24_throws :
  (24 < 0 ∨ 23 < 24 ∨ 0 < 0 ∨ 59 < 0)
  ∧ daily_file_sink.ctor "logs/daily.txt" 24 0 (quiet_world 0)
    = (Thrown (spdlog_ex "daily_file_sink: Invalid rotation time in ctor" None), quiet_world 0).
Proof.
  split; [lia|].
  apply (C6_invalid_rotation_time_throws "logs/daily.txt" "" 24 0 (quiet_world 0)). lia.
Defined.

(** ** One pass of [_rotate] *)

Module rotate_facts.
Import rotating_file_sink chain chain_facts.

Lemma set_file_helper_id s : set_file_helper (_file_helper s) s = s.
Proof. now destruct s. Qed.

Lemma same_oracle_refl w : same_oracle w w.
Proof. repeat split. Qed.

Lemma same_oracle_trans w1 w2 w3 : same_oracle w1 w2 → same_oracle w2 w3 → same_oracle w1 w3.
Proof. unfold same_oracle. intros (-> & -> & ->) (-> & -> & ->). repeat split. Qed.

Lemma rotate_step_returns s w j s' w' :
  _rotate_step j (s, w) = (Returned tt, (s', w')) →
  s' = s ∧ same_oracle w w'
  ∧ trace w' = trace w ++ step_events s (files w) j
                            (bool_decide (is_Some (files w !! name s (S j))))
  ∧ files w' = moved s j (files w).
Proof.
  name_step s j name_ne set_file_helper_id. unfold same_oracle.
  repeat mcase set_file_helper_id; cbn; try discriminate; intros ?; simplify_eq; cbn;
    rewrite ?set_file_helper_id, <- ?app_assoc; repeat split; try reflexivity.
  all: rewrite (delete_id _ target) by done; reflexivity.
Qed.

Lemma rotate_step_throws s w j e s' w' :
  _rotate_step j (s, w) = (Thrown e, (s', w')) →
  s' = s ∧ same_oracle w w'
  ∧ ∃ pre ev c,
      trace w' = trace w ++ pre ++ [ev]
      ∧ Forall (λ x, is_failed_call x = false) pre
      ∧ rotations pre = 0%nat
      ∧ (ev = EvRemove (name s (S j)) (Some c)
         ∨ ev = EvRename (name s j) (name s (S j)) (Some c))
      ∧ reports e ev ∧ errno w' = c
      ∧ ∀ p, p ≠ name s (S j) → files w' !! p = files w !! p.
Proof.
  name_step s j name_ne set_file_helper_id. unfold same_oracle.
  repeat mcase set_file_helper_id; cbn; try discriminate; intros ?; simplify_eq; cbn;
    rewrite ?set_file_helper_id, <- ?app_assoc; repeat split; try reflexivity.
  - eexists [EvExists target true], _, _. cbn. repeat split; eauto.
  - eexists [EvExists target true; EvRemove target None; EvExists src true], _, _.
    cbn. repeat split; eauto 10.
    intros p Hp. now rewrite lookup_delete_ne.
  - eexists [EvExists target false; EvExists src true], _, _.
    cbn. repeat split; eauto 10.
Qed.

Lemma moved_target s j F : moved s j F !! name s (S j) = F !! name s j.
Proof.
  unfold moved. destruct (F !! name s j) eqn:Hs.
  - apply lookup_insert_eq.
  - apply lookup_delete_eq.
Qed.

Lemma moved_src s j F : moved s j F !! name s j = None.
Proof.
  assert (name s (S j) ≠ name s j) by (apply name_ne; lia).
  unfold moved. destruct (F !! name s j) eqn:Hs.
  - rewrite lookup_insert_ne by done. apply lookup_delete_eq.
  - now rewrite lookup_delete_ne.
Qed.

Lemma moved_other s j F p :
  p ≠ name s j → p ≠ name s (S j) → moved s j F !! p = F !! p.
Proof.
  intros H1 H2. unfold moved. destruct (F !! name s j) eqn:Hs.
  - now rewrite lookup_insert_ne, !lookup_delete_ne.
  - now rewrite lookup_delete_ne.
Qed.

(** The calls of a pass only depend on the files below its first index. *)
Lemma loop_events_ext s F G i b :
  (∀ k, (k < i)%nat → F !! name s k = G !! name s k) →
  loop_events s F i b = loop_events s G i b.
Proof.
  revert b. induction i as [|j IH]; intros b Hext; [reflexivity|].
  cbn [loop_events]. unfold step_events. rewrite (Hext j) by lia.
  f_equal. apply IH. intros k Hk. apply Hext. lia.
Qed.

Lemma loop_events_names s s0 F i b :
  (∀ k, name s0 k = name s k) → loop_events s0 F i b = loop_events s F i b.
Proof.
  intros Hname. revert b. induction i as [|j IH]; intros b; [reflexivity|].
  cbn [loop_events]. unfold step_events. now rewrite IH, !Hname.
Qed.

Lemma rotate_loop_S j st :
  _rotate_loop (S j) st
  = match _rotate_step j st with
    | (Returned _, st') => _rotate_loop j st'
    | (Thrown e, st') => (Thrown e, st')
    end.
Proof. reflexivity. Qed.

(** A pass that goes through moves the chain up by one, in the order of
    [loop_events]. *)
Lemma rotate_loop_returns i : ∀ s w s' w',
  _rotate_loop i (s, w) = (Returned tt, (s', w')) →
  s' = s ∧ same_oracle w w'
  ∧ trace w' = trace w ++ loop_events s (files w) i
                            (bool_decide (is_Some (files w !! name s i)))
  ∧ shifted s i (files w) (files w').
Proof.
  induction i as [|j IH]; intros s w s' w' Hrun.
  - cbn in Hrun. unfold ret in Hrun. simplify_eq. cbn. rewrite app_nil_r.
    repeat split; intros; (reflexivity || lia).
  - rewrite rotate_loop_S in Hrun.
    destruct (_rotate_step j (s, w)) as [[[]|e] [s1 w1]] eqn:Hstep; [|discriminate].
    apply rotate_step_returns in Hstep as (-> & Ho1 & Htr1 & Hf1).
    apply IH in Hrun as (-> & Ho2 & Htr2 & Hsh1 & Hsh2 & Hsh3).
    split; [reflexivity|]. split; [eapply same_oracle_trans; eassumption|].
    split.
    + rewrite Htr2, Htr1, Hf1, moved_src, <- app_assoc. cbn [loop_events].
      do 2 f_equal. apply loop_events_ext. intros k Hk.
      apply moved_other; apply name_ne; lia.
    + rewrite Hf1 in *. repeat split.
      * intros k Hk. destruct (decide (k = j)) as [->|Hkj].
        -- rewrite Hsh3, moved_target; [reflexivity|].
           intros k Hk'. apply name_ne. lia.
        -- rewrite Hsh1 by lia. apply moved_other; apply name_ne; lia.
      * rewrite Hsh2. destruct j as [|j]; [apply moved_src | reflexivity].
      * intros p Hp. rewrite Hsh3 by (intros k Hk; apply Hp; lia).
        apply moved_other; apply Hp; lia.
Qed.

Lemma step_events_succeed s F j b :
  Forall (λ x, is_failed_call x = false) (step_events s F j b).
Proof.
  unfold step_events. destruct b, (bool_decide (is_Some (F !! name s j)));
    repeat constructor.
Qed.

Lemma loop_events_succeed s F i b :
  Forall (λ x, is_failed_call x = false) (loop_events s F i b).
Proof.
  revert b. induction i as [|j IH]; intros b; [constructor|].
  cbn [loop_events]. apply Forall_app. split; [apply step_events_succeed | apply IH].
Qed.

Lemma close_events_succeed s : Forall (λ x, is_failed_call x = false) (close_events s).
Proof. unfold close_events. destruct (FileHelper._fd (_file_helper s)); repeat constructor. Qed.

Lemma close_events_no_open s : rotations (close_events s) = 0%nat.
Proof. unfold close_events. now destruct (FileHelper._fd (_file_helper s)). Qed.

Lemma rotations_app l1 l2 : rotations (l1 ++ l2) = (rotations l1 + rotations l2)%nat.
Proof. unfold rotations. now rewrite List.filter_app, length_app. Qed.

Lemma loop_events_no_open s F i b : rotations (loop_events s F i b) = 0%nat.
Proof.
  revert b. induction i as [|j IH]; intros b; [reflexivity|].
  cbn [loop_events]. unfold rotations in *. rewrite List.filter_app, length_app, IH.
  unfold step_events. destruct b, (bool_decide (is_Some (F !! name s j))); reflexivity.
Qed.

(** A pass that throws stops at the failed call of some iteration
    [i = S j]: nothing follows it, and the files below are as they were. *)
Lemma rotate_loop_throws i : ∀ s w e s' w',
  _rotate_loop i (s, w) = (Thrown e, (s', w')) →
  s' = s ∧ same_oracle w w'
  ∧ ∃ j pre ev c,
      (j < i)%nat
      ∧ trace w' = trace w ++ pre ++ [ev]
      ∧ Forall (λ x, is_failed_call x = false) pre
      ∧ rotations pre = 0%nat
      ∧ (ev = EvRemove (name s (S j)) (Some c)
         ∨ ev = EvRename (name s j) (name s (S j)) (Some c))
      ∧ reports e ev ∧ errno w' = c
      ∧ (∀ k, (k ≤ j)%nat → files w' !! name s k = files w !! name s k)
      ∧ (∀ p, (∀ k, (k ≤ i)%nat → p ≠ name s k) → files w' !! p = files w !! p).
Proof.
  induction i as [|i IH]; intros s w e s' w' Hrun.
  - cbn in Hrun. unfold ret in Hrun. discriminate.
  - rewrite rotate_loop_S in Hrun.
    destruct (_rotate_step i (s, w)) as [[[]|e1] [s1 w1]] eqn:Hstep.
    + apply rotate_step_returns in Hstep as (-> & Ho1 & Htr1 & Hf1).
      apply IH in Hrun
        as (-> & Ho2 & j & pre & ev & c & Hj & Htr & Hpre & Hrot & Hev & Hrep & Herr & Hlow & Hout).
      split; [reflexivity|]. split; [eapply same_oracle_trans; eassumption|].
      exists j, (step_events s (files w) i
                   (bool_decide (is_Some (files w !! name s (S i)))) ++ pre), ev, c.
      split; [lia|]. split; [rewrite Htr, Htr1, <- !app_assoc; reflexivity|].
      split; [apply Forall_app; split; [apply step_events_succeed | exact Hpre]|].
      split.
      { unfold rotations in *. rewrite List.filter_app, length_app, Hrot.
        unfold step_events.
        destruct (bool_decide (is_Some (files w !! name s (S i)))),
                 (bool_decide (is_Some (files w !! name s i))); reflexivity. }
      repeat (split; [assumption|]). split.
      * intros k Hk. rewrite Hlow, Hf1 by lia. apply moved_other; apply name_ne; lia.
      * intros p Hp. rewrite Hout, Hf1 by (intros k Hk; apply Hp; lia).
        apply moved_other; apply Hp; lia.
    + injection Hrun as <- <- <-.
      apply rotate_step_throws in Hstep
        as (-> & Ho & pre & ev & c & Htr & Hpre & Hrot & Hev & Hrep & Herr & Hfiles).
      split; [reflexivity|]. split; [assumption|].
      exists i, pre, ev, c. split; [lia|].
      repeat (split; [assumption|]). split.
      * intros k Hk. apply Hfiles, name_ne. lia.
      * intros p Hp. apply Hfiles, Hp. lia.
Qed.

(** *** [_rotate] as a whole *)

Lemma rotate_eq s w :
  _rotate (s, w)
  = match _rotate_loop (backups s) (after_close s w) with
    | (Returned _, st) => fh (FileHelper.reopen true) st
    | (Thrown e, st) => (Thrown e, st)
    end.
Proof.
  unfold _rotate, after_close, closed, backups.
  unfold bind at 1. unfold fh at 1, zoom, FileHelper.close. cbn.
  destruct (FileHelper._fd (_file_helper s)); cbn; rewrite ?set_file_helper_id;
    reflexivity.
Qed.

Lemma after_close_spec s w :
  ∃ s0 w0, after_close s w = (s0, w0)
    ∧ FileHelper._fd (_file_helper s0) = false
    ∧ FileHelper._filename (_file_helper s0) = FileHelper._filename (_file_helper s)
    ∧ (∀ i, name s0 i = name s i) ∧ backups s0 = backups s
    ∧ reopened s0 = reopened s
    ∧ same_oracle w w0 ∧ files w0 = files w ∧ errno w0 = errno w
    ∧ trace w0 = trace w ++ close_events s.
Proof.
  unfold after_close, close_events, closed.
  destruct s as [ext base ms mf cs [fd fn]]. cbn. destruct fd; cbn.
  - eexists _, _. split; [reflexivity|]. cbn. repeat split; reflexivity.
  - eexists _, _. split; [reflexivity|]. cbn. rewrite app_nil_r. repeat split; reflexivity.
Qed.

Lemma reopen_eq s w :
  FileHelper._fd (_file_helper s) = false → named s →
  fh (FileHelper.reopen true) (s, w)
  = match fault w (OpOpen (name s 0)) with
    | None =>
        (Returned tt,
         (reopened s,
          emit (EvOpen (name s 0) true None)
               (set_files (<[name s 0 := ""]> (files w)) w)))
    | Some c =>
        (Thrown (spdlog_ex ("Failed opening file " +:+ name s 0 +:+ " for writing") (Some c)),
         (set_file_helper (FileHelper.mk false (name s 0)) s,
          emit (EvOpen (name s 0) true (Some c)) (set_errno c w)))
    end.
Proof.
  unfold named, reopened. intros Hfd Hfn.
  unfold fh, zoom, FileHelper.reopen, bind, get. cbn [fst snd].
  rewrite Hfn. destruct (decide (name s 0 = "")) as [He|_].
  { now apply name_nonempty in He. }
  unfold FileHelper.open, bind, FileHelper.close. cbn. rewrite Hfd.
  destruct (fault w (OpOpen (name s 0))); reflexivity.
Qed.

Lemma write_eq msg s w :
  fh (FileHelper.write msg) (s, w)
  = if FileHelper._fd (_file_helper s)
    then (Returned tt,
          (s, emit (EvWrite (FileHelper._filename (_file_helper s)) (formatted msg))
                (set_files
                   (<[FileHelper._filename (_file_helper s) :=
                        default "" (files w !! FileHelper._filename (_file_helper s))
                          +:+ formatted msg]> (files w)) w)))
    else (Thrown (spdlog_ex ("Failed writing to file "
                               +:+ FileHelper._filename (_file_helper s))
                            (Some (errno w))), (s, w)).
Proof.
  unfold fh, zoom, FileHelper.write. cbn.
  destruct (FileHelper._fd (_file_helper s)); cbn; now rewrite set_file_helper_id.
Qed.

Lemma sink_it_eq msg s w :
  _sink_it msg (s, w)
  = let total := SizeT.add (_current_size s) (StdString.size (formatted msg)) in
    if bool_decide (total > _max_size s)
    then match _rotate (set_current_size total s, w) with
         | (Returned _, (s2, w2)) =>
             fh (FileHelper.write msg)
                (set_current_size (StdString.size (formatted msg)) s2, w2)
         | (Thrown e, st) => (Thrown e, st)
         end
    else fh (FileHelper.write msg) (set_current_size total s, w).
Proof.
  unfold _sink_it. unfold bind at 1, modify at 1. cbn [fst snd].
  unfold bind at 1, get at 1. cbn [fst snd _current_size _max_size set_current_size].
  unfold bind at 1, when.
  destruct (bool_decide _); [|reflexivity].
  unfold bind at 1.
  destruct (_rotate _) as [[[]|e] [s2 w2]]; reflexivity.
Qed.

Lemma rotate_returns s w s' w' :
  named s → _rotate (s, w) = (Returned tt, (s', w')) →
  s' = reopened s ∧ same_oracle w w' ∧ fault w (OpOpen (name s 0)) = None
  ∧ trace w' = trace w ++ close_events s
                 ++ loop_events s (files w) (backups s)
                      (bool_decide (is_Some (files w !! name s (backups s))))
                 ++ [EvOpen (name s 0) true None]
  ∧ ∃ F1, shifted s (backups s) (files w) F1 ∧ files w' = <[name s 0 := ""]> F1.
Proof.
  intros Hnamed. rewrite rotate_eq.
  destruct (after_close_spec s w)
    as (s0 & w0 & -> & Hfd & Hfn & Hname & Hn & Hre & Ho0 & Hf0 & He0 & Htr0).
  destruct (_rotate_loop (backups s) (s0, w0)) as [[[]|e] [s1 w1]] eqn:Hloop;
    [|discriminate].
  apply rotate_loop_returns in Hloop as (-> & Ho1 & Htr1 & Hsh).
  assert (named s0) as Hnamed0 by (unfold named in *; rewrite Hfn, Hname; exact Hnamed).
  rewrite (reopen_eq _ _ Hfd Hnamed0), Hname.
  destruct Ho1 as (Hfault & Hck & Hoff). destruct Ho0 as (Hfault0 & Hck0 & Hoff0).
  rewrite Hfault, Hfault0.
  destruct (fault w (OpOpen (name s 0))) eqn:Hopen; [discriminate|].
  intros [= <- <-]. cbn.
  split; [exact Hre|]. split; [repeat split; cbn; congruence|]. split; [reflexivity|].
  split.
  - rewrite Htr1, Htr0, Hf0, !Hname, <- !app_assoc.
    do 2 f_equal. now rewrite (loop_events_names s s0).
  - exists (files w1). split; [|reflexivity].
    rewrite Hf0 in Hsh. destruct Hsh as (H1 & H2 & H3). repeat split.
    + intros k Hk. rewrite <- !Hname. now apply H1.
    + rewrite <- !Hname. exact H2.
    + intros p Hp. apply H3. intros k Hk. rewrite Hname. now apply Hp.
Qed.

Lemma rotate_throws s w e s' w' :
  named s → _rotate (s, w) = (Thrown e, (s', w')) →
  same_oracle w w'
  ∧ ∃ pre ev c,
      trace w' = trace w ++ pre ++ [ev]
      ∧ Forall (λ x, is_failed_call x = false) pre
      ∧ rotations (pre ++ [ev]) = 0%nat
      ∧ reports e ev ∧ errno w' = c
      ∧ ((∃ j, (j < backups s)%nat
               ∧ (ev = EvRemove (name s (S j)) (Some c)
                  ∨ ev = EvRename (name s j) (name s (S j)) (Some c))
               ∧ (∀ k, (k ≤ j)%nat → files w' !! name s k = files w !! name s k)
               ∧ (∀ p, (∀ k, (k ≤ backups s)%nat → p ≠ name s k) →
                       files w' !! p = files w !! p))
         ∨ ev = EvOpen (name s 0) true (Some c)).
Proof.
  intros Hnamed. rewrite rotate_eq.
  destruct (after_close_spec s w)
    as (s0 & w0 & -> & Hfd & Hfn & Hname & Hn & Hre & Ho0 & Hf0 & He0 & Htr0).
  destruct (_rotate_loop (backups s) (s0, w0)) as [[[]|e1] [s1 w1]] eqn:Hloop.
  - apply rotate_loop_returns in Hloop as (-> & Ho1 & Htr1 & Hsh).
    assert (named s0) as Hnamed0 by (unfold named in *; rewrite Hfn, Hname; exact Hnamed).
    rewrite (reopen_eq _ _ Hfd Hnamed0), Hname.
    destruct (fault w1 (OpOpen (name s 0))) as [c|] eqn:Hopen; [|discriminate].
    intros [= <- <- <-]. cbn.
    split.
    { destruct Ho1 as (? & ? & ?), Ho0 as (? & ? & ?). repeat split; cbn; congruence. }
    exists (close_events s
              ++ loop_events s0 (files w0) (backups s)
                   (bool_decide (is_Some (files w0 !! name s0 (backups s))))),
      (EvOpen (name s 0) true (Some c)), c.
    split; [rewrite Htr1, Htr0, <- !app_assoc; reflexivity|].
    split.
    { apply Forall_app. split; [apply close_events_succeed | apply loop_events_succeed]. }
    split.
    { now rewrite !rotations_app, close_events_no_open, loop_events_no_open. }
    split; [reflexivity|]. split; [reflexivity|]. now right.
  - intros [= <- <- <-].
    apply rotate_loop_throws in Hloop
      as (-> & Ho1 & j & pre & ev & c & Hj & Htr & Hpre & Hrot & Hev & Hrep & Herr & Hlow & Hout).
    split; [eapply same_oracle_trans; eassumption|].
    exists (close_events s ++ pre), ev, c.
    split; [rewrite Htr, Htr0, <- !app_assoc; reflexivity|].
    split.
    { apply Forall_app. split; [apply close_events_succeed | exact Hpre]. }
    split.
    { rewrite !rotations_app, close_events_no_open, Hrot.
      destruct Hev as [-> | ->]; reflexivity. }
    split; [exact Hrep|]. split; [exact Herr|]. left. exists j.
    split; [exact Hj|]. rewrite <- !Hname. split; [exact Hev|]. split.
    + intros k Hk. rewrite <- Hf0, <- Hname. now apply Hlow.
    + intros p Hp. rewrite <- Hf0. apply Hout. intros k Hk. rewrite Hname. now apply Hp.
Qed.

(** *** Nothing refused: everything returns *)

Lemma rotate_step_total s w j :
  unrefused w → ∃ w', _rotate_step j (s, w) = (Returned tt, (s, w')).
Proof.
  intros Hok. name_step s j name_ne set_file_helper_id.
  repeat (cbn; rewrite ?set_file_helper_id;
          first [ rewrite Hok
                | rewrite lookup_delete_ne by congruence
                | match goal with
                  | H : ?m !! ?k = _ |- context [?m !! ?k] => rewrite H
                  | |- context [files ?w !! ?k] => destruct (files w !! k) eqn:?
                  end ]);
    cbn; rewrite ?set_file_helper_id; eexists; reflexivity.
Qed.

Lemma unrefused_same_oracle w w' : same_oracle w w' → unrefused w → unrefused w'.
Proof. intros (Hf & _) Hok op. rewrite Hf. apply Hok. Qed.

Lemma rotate_loop_total i : ∀ s w,
  unrefused w → ∃ w', _rotate_loop i (s, w) = (Returned tt, (s, w')).
Proof.
  induction i as [|j IH]; intros s w Hok.
  - exists w. reflexivity.
  - rewrite rotate_loop_S.
    destruct (rotate_step_total s w j Hok) as (w1 & Hstep). rewrite Hstep.
    apply IH. apply rotate_step_returns in Hstep as (_ & Ho & _).
    eapply unrefused_same_oracle; eassumption.
Qed.

Lemma rotate_total s w :
  named s → unrefused w → ∃ w', _rotate (s, w) = (Returned tt, (reopened s, w')).
Proof.
  intros Hnamed Hok. rewrite rotate_eq.
  destruct (after_close_spec s w)
    as (s0 & w0 & -> & Hfd & Hfn & Hname & Hn & Hre & Ho0 & Hf0 & He0 & Htr0).
  destruct (rotate_loop_total (backups s) s0 w0) as (w1 & Hloop).
  { eapply unrefused_same_oracle; eassumption. }
  rewrite Hloop.
  assert (named s0) as Hnamed0 by (unfold named in *; rewrite Hfn, Hname; exact Hnamed).
  rewrite (reopen_eq _ _ Hfd Hnamed0).
  apply rotate_loop_returns in Hloop as (_ & Ho1 & _).
  assert (unrefused w1) as Hok1.
  { eapply unrefused_same_oracle; [exact Ho1|].
    eapply unrefused_same_oracle; eassumption. }
  rewrite Hok1, Hre. eexists. reflexivity.
Qed.

Lemma reopened_wf s : wf s → reopened s = s.
Proof.
  unfold wf, reopened. destruct s as [ext base ms mf cs [fd fn]]. cbn.
  intros [-> ->]. reflexivity.
Qed.

Lemma wf_named s : wf s → named s.
Proof. now intros [_ ?]. Qed.

Lemma wf_reopened s : wf (reopened s).
Proof. now destruct s. Qed.
End rotate_facts.

(** ** The size-triggered sink *)

Section RotatingClaims.
Import rotating_file_sink chain chain_facts rotate_facts fixtures.

Lemma wf_set_current_size n s : wf s → wf (set_current_size n s).
Proof. now destruct s. Qed.

Lemma close_events_wf s : wf s → close_events s = [EvClose (name s 0)].
Proof. unfold wf, close_events. now intros [-> ->]. Qed.

Lemma reopened_closed s : wf s → reopened (closed s) = s.
Proof.
  destruct s as [ext base ms mf cs [fd fn]]. unfold wf, reopened, closed, name. cbn.
  intros [-> ->]. reflexivity.
Qed.

(** Both constructors return a sink that satisfies [wf]. *)
Lemma ctor2_wf base ext max_size max_files w s w' :
  ctor2 base ext max_size max_files w = (Returned s, w') → wf s.
Proof.
  unfold ctor2, bind, fh, zoom, FileHelper.open, FileHelper.close, FileHelper.size,
    bind, modify. cbn.
  destruct (fault w (OpOpen _)); cbn; [discriminate|].
  intros [= <- <-]. split; reflexivity.
Qed.

Lemma ctor_wf filename max_size max_files w s w' :
  ctor filename max_size max_files w = (Returned s, w') → wf s.
Proof.
  unfold ctor. destruct (split_filename filename) as [[base ext]|]; [|discriminate].
  apply ctor2_wf.
Qed.

(** C2. A write adds the record's length to [_current_size] (in [size_t]
    arithmetic). The calls it makes are those of [evs] followed by the one
    write of the record to the active file, and [evs] holds a rotation, and
    then exactly one, if and only if the new total exceeds [_max_size]. In
    that case [evs] is the trace of one run of [_rotate], [_current_size]
    becomes the record's length, the record is the whole content of the new
    active file, and the previous content, without the record, sits at
    index 1 when backups are kept. Otherwise nothing precedes the write and
    the record is appended to the active file. When no call is refused the
    write returns. *)
Theorem C2_write_rotates_when_size_exceeded (msg : log_msg) (s : t) (w : world) :
  wf s →
  let total := SizeT.add (_current_size s) (StdString.size (formatted msg)) in
  (unrefused w → ∃ s' w', _sink_it msg (s, w) = (Returned tt, (s', w')))
  ∧ ∀ s' w', _sink_it msg (s, w) = (Returned tt, (s', w')) →
      ∃ evs,
        trace w' = trace w ++ evs ++ [EvWrite (name s 0) (formatted msg)]
        ∧ (rotations evs = 1%nat ↔ total > _max_size s)
        ∧ (total > _max_size s →
             (∃ w1, _rotate (set_current_size total s, w)
                    = (Returned tt, (set_current_size total s, w1))
                    ∧ trace w1 = trace w ++ evs)
             ∧ _current_size s' = StdString.size (formatted msg)
             ∧ files w' !! name s 0 = Some (formatted msg)
             ∧ ((0 < backups s)%nat → files w' !! name s 1 = files w !! name s 0))
        ∧ (total <= _max_size s →
             evs = [] ∧ _current_size s' = total
             ∧ files w' !! name s 0
               = Some (default "" (files w !! name s 0) +:+ formatted msg)).
Proof.
  intros Hwf total.
  set (s1 := set_current_size total s).
  assert (wf s1) as Hwf1 by now apply wf_set_current_size.
  assert (∀ i, name s1 i = name s i) as Hname by reflexivity.
  assert (backups s1 = backups s) as Hn by reflexivity.
  split.
  - intros Hok. rewrite sink_it_eq. fold total. cbv zeta. fold s1.
    destruct (bool_decide (total > _max_size s)).
    + destruct (rotate_total s1 w (wf_named _ Hwf1) Hok) as (w1 & ->).
      rewrite write_eq. cbn. eexists _, _. reflexivity.
    + rewrite write_eq. destruct Hwf1 as [-> _]. eexists _, _. reflexivity.
  - intros s' w'. rewrite sink_it_eq. fold total. cbv zeta. fold s1.
    destruct (bool_decide (total > _max_size s)) eqn:Hgt.
    + apply bool_decide_eq_true in Hgt.
      destruct (_rotate (s1, w)) as [[[]|e] [s2 w2]] eqn:Hrot; [|discriminate].
      pose proof Hrot as Hrot'.
      apply rotate_returns in Hrot' as (-> & Ho & Hopen & Htr & F1 & Hsh & Hfiles);
        [|now apply wf_named].
      rewrite write_eq. cbn. intros [= <- <-]. cbn.
      rewrite Hname, Hn, close_events_wf in Htr by assumption.
      rewrite (loop_events_names s s1) in Htr by assumption.
      rewrite Hname in Htr.
      exists ([EvClose (name s 0)]
                ++ loop_events s (files w) (backups s)
                     (bool_decide (is_Some (files w !! name s (backups s))))
                ++ [EvOpen (name s 0) true None]).
      split; [rewrite Htr, <- !app_assoc; reflexivity|].
      split.
      { split; [intros _; exact Hgt|]. intros _.
        rewrite !rotations_app, loop_events_no_open. reflexivity. }
      split; [|lia]. intros _. split.
      { exists w2. rewrite (reopened_wf s1 Hwf1). split; [reflexivity|]. exact Htr. }
      change (shifted s (backups s) (files w) F1) in Hsh.
      change (files w2 = <[name s 0 := ""]> F1) in Hfiles.
      change (calc_filename (_base_filename s) 0 (_extension s)) with (name s 0).
      split; [reflexivity|]. rewrite Hfiles, !lookup_insert_eq. cbn.
      split; [reflexivity|]. intros Hpos.
      change (name s1 0) with (name s 0).
      rewrite !lookup_insert_ne by (apply name_ne; lia).
      destruct Hsh as (Hup & _ & _). apply Hup. lia.
    + apply bool_decide_eq_false in Hgt.
      rewrite write_eq. destruct Hwf1 as [Hfd Hfn]. rewrite Hfd, Hfn, Hname.
      intros [= <- <-]. cbn. exists []. split; [reflexivity|].
      split; [split; [discriminate | lia]|].
      split; [lia|]. intros _. split; [reflexivity|]. split; [reflexivity|].
      apply lookup_insert_eq.
Qed.

Lemma C2_write_rotates_witness :
  wf sink ∧ unrefused calm
  ∧ _sink_it long_msg (sink, calm)
    = (Returned tt, (fst (snd (_sink_it long_msg (sink, calm))),
                     snd (snd (_sink_it long_msg (sink, calm)))))
  ∧ ∃ evs,
      trace (snd (snd (_sink_it long_msg (sink, calm))))
      = trace calm ++ evs ++ [EvWrite "log.txt" "abcdef"]
      ∧ rotations evs = 1%nat.
Proof.
  assert (wf sink) as Hwf by (split; reflexivity).
  assert (unrefused calm) as Hok by (intros op; reflexivity).
  assert (_sink_it long_msg (sink, calm)
          = (Returned tt, (fst (snd (_sink_it long_msg (sink, calm))),
                           snd (snd (_sink_it long_msg (sink, calm))))))
    as Hrun by (vm_compute; reflexivity).
  split; [exact Hwf|]. split; [exact Hok|]. split; [exact Hrun|].
  destruct (C2_write_rotates_when_size_exceeded long_msg sink calm Hwf) as [_ Hret].
  destruct (Hret _ _ Hrun) as (evs & Htr & Hiff & _).
  exists evs. split; [exact Htr|]. apply Hiff. vm_compute. reflexivity.
Defined.

(** C3. [_rotate] closes the active file, then walks the backup indices
    from [_max_files] down to 1: at index [i] it tests the target
    [name s i], removes it when it exists, tests the source [name s (i - 1)]
    and renames it to the target when it exists ([loop_events]); only then
    it reopens index 0 truncated. Hence, whenever it returns, index [i]
    holds what index [i - 1] held for every [i] in [1, _max_files], the
    active file is empty, what index [_max_files] held is on no path of the
    chain any more, and every path outside the chain is as it was. When no
    call is refused it returns. *)
Theorem C3_rotate_shifts_backup_chain (s : t) (w : world) :
  named s →
  (unrefused w → ∃ w', _rotate (s, w) = (Returned tt, (reopened s, w')))
  ∧ ∀ s' w', _rotate (s, w) = (Returned tt, (s', w')) →
      trace w' = trace w ++ close_events s
                   ++ loop_events s (files w) (backups s)
                        (bool_decide (is_Some (files w !! name s (backups s))))
                   ++ [EvOpen (name s 0) true None]
      ∧ (∀ i, (1 ≤ i ≤ backups s)%nat → files w' !! name s i = files w !! name s (i - 1))
      ∧ files w' !! name s 0 = Some ""
      ∧ (∀ p, (∀ k, (k ≤ backups s)%nat → p ≠ name s k) → files w' !! p = files w !! p).
Proof.
  intros Hnamed. split; [now apply rotate_total|].
  intros s' w' Hrun.
  apply rotate_returns in Hrun as (_ & _ & _ & Htr & F1 & (Hup & _ & Hout) & ->);
    [|exact Hnamed].
  split; [exact Htr|]. split; [|split].
  - intros i Hi. rewrite lookup_insert_ne by (apply name_ne; lia).
    destruct i as [|k]; [lia|]. rewrite Hup by lia. do 2 f_equal. lia.
  - apply lookup_insert_eq.
  - intros p Hp. rewrite lookup_insert_ne by (apply not_eq_sym, Hp; lia).
    now apply Hout.
Qed.

Lemma C3_rotate_shifts_witness :
  named sink
  ∧ (let w' := snd (snd (_rotate (sink, calm))) in
     _rotate (sink, calm) = (Returned tt, (sink, w'))
     ∧ files w' !! "log.2.txt" = Some "older"
     ∧ files w' !! "log.1.txt" = Some "12345678"
     ∧ files w' !! "log.txt" = Some ""
     ∧ files w' !! "other.txt" = Some "keep").
Proof.
  assert (named sink) as Hnamed by reflexivity.
  assert (_rotate (sink, calm) = (Returned tt, (sink, snd (snd (_rotate (sink, calm))))))
    as Hrun by (vm_compute; reflexivity).
  split; [exact Hnamed|]. cbv zeta. split; [exact Hrun|].
  destruct (C3_rotate_shifts_backup_chain sink calm Hnamed) as [_ Hret].
  destruct (Hret _ _ Hrun) as (_ & Hup & H0 & Hout).
  split; [exact (Hup 2%nat ltac:(vm_compute; lia))|].
  split; [exact (Hup 1%nat ltac:(vm_compute; lia))|].
  split; [exact H0|].
  rewrite Hout; [reflexivity|].
  intros k Hk. assert (k = 0 ∨ k = 1 ∨ k = 2)%nat as [-> | [-> | ->]]
    by (revert Hk; vm_compute; lia); vm_compute; discriminate.
Defined.

(** C4. Whatever [_rotate] does, its calls [evs] are accounted for. When it
    returns, none of them failed: a failed call is never passed over. When
    it throws, the failed call is the last one and the only one (nothing
    follows it, it is not tried again, the base file is not reopened), and
    the exception reports it: the message names the path, or both paths,
    and the code is the [errno] of that call. A failed removal or rename
    belongs to some index [j + 1]; the files at the indices up to [j], not
    reached yet, and every file outside the chain are as they were. A write
    that triggered the rotation throws the same exception in the same state,
    without writing the record. *)
Theorem C4_rotation_failure_aborts (s : t) (w : world) (r : outcome unit)
    (s' : t) (w' : world) :
  named s → _rotate (s, w) = (r, (s', w')) →
  ∃ evs, trace w' = trace w ++ evs
  ∧ match r with
    | Returned _ => Forall (λ ev, is_failed_call ev = false) evs
    | Thrown e =>
        ∃ pre ev c,
          evs = pre ++ [ev]
          ∧ Forall (λ ev, is_failed_call ev = false) pre
          ∧ rotations evs = 0%nat
          ∧ reports e ev ∧ errno w' = c
          ∧ ((∃ j, (j < backups s)%nat
                   ∧ (ev = EvRemove (name s (S j)) (Some c)
                      ∨ ev = EvRename (name s j) (name s (S j)) (Some c))
                   ∧ (∀ k, (k ≤ j)%nat → files w' !! name s k = files w !! name s k)
                   ∧ (∀ p, (∀ k, (k ≤ backups s)%nat → p ≠ name s k) →
                           files w' !! p = files w !! p))
             ∨ ev = EvOpen (name s 0) true (Some c))
          ∧ ∀ msg s0,
              s = set_current_size
                    (SizeT.add (_current_size s0) (StdString.size (formatted msg))) s0 →
              _current_size s > _max_size s →
              _sink_it msg (s0, w) = (Thrown e, (s', w'))
    end.
Proof.
  intros Hnamed Hrun. destruct r as [[]|e].
  - apply rotate_returns in Hrun as (_ & _ & _ & Htr & _); [|exact Hnamed].
    eexists. split; [exact Htr|].
    repeat (apply Forall_app; split);
      [apply close_events_succeed | apply loop_events_succeed | repeat constructor].
  - pose proof Hrun as Hrun'.
    apply rotate_throws in Hrun'
      as (_ & pre & ev & c & Htr & Hpre & Hrot & Hrep & Herr & Hcase); [|exact Hnamed].
    exists (pre ++ [ev]). split; [exact Htr|].
    exists pre, ev, c. repeat (split; [assumption || reflexivity|]).
    intros msg s0 -> Hgt. rewrite sink_it_eq. cbv zeta.
    cbn [set_current_size _current_size _max_size] in Hgt.
    rewrite bool_decide_eq_true_2 by exact Hgt. now rewrite Hrun.
Qed.

Lemma C4_rotation_failure_witness :
  named (set_current_size 14 sink)
  ∧ (let st := snd (_rotate (set_current_size 14 sink, stuck)) in
     _rotate (set_current_size 14 sink, stuck)
     = (Thrown (spdlog_ex "rotating_file_sink: failed renaming log.1.txt to log.2.txt"
                          (Some 13)), (fst st, snd st))
     ∧ ∃ pre, trace (snd st) = pre ++ [EvRename "log.1.txt" "log.2.txt" (Some 13)]
       ∧ Forall (λ ev, is_failed_call ev = false) pre
       ∧ _sink_it long_msg (sink, stuck)
         = (Thrown (spdlog_ex "rotating_file_sink: failed renaming log.1.txt to log.2.txt"
                              (Some 13)), (fst st, snd st))).
Proof.
  assert (named (set_current_size 14 sink)) as Hnamed by reflexivity.
  split; [exact Hnamed|]. cbv zeta.
  assert (_rotate (set_current_size 14 sink, stuck)
          = (Thrown (spdlog_ex "rotating_file_sink: failed renaming log.1.txt to log.2.txt"
                               (Some 13)),
             (fst (snd (_rotate (set_current_size 14 sink, stuck))),
              snd (snd (_rotate (set_current_size 14 sink, stuck))))))
    as Hrun by (vm_compute; reflexivity).
  split; [exact Hrun|].
  destruct (C4_rotation_failure_aborts _ _ _ _ _ Hnamed Hrun)
    as (evs & Htr & pre & ev & c & -> & Hpre & _ & Hrep & _ & _ & Hsink).
  exists pre. split; [|split; [exact Hpre|]].
  - assert (ev = EvRename "log.1.txt" "log.2.txt" (Some 13)) as ->; [|exact Htr].
    assert (last (trace (snd (snd (_rotate (set_current_size 14 sink, stuck)))))
            = Some (EvRename "log.1.txt" "log.2.txt" (Some 13))) as Hlast
      by (vm_compute; reflexivity).
    rewrite Htr in Hlast. cbn in Hlast. rewrite last_snoc in Hlast. congruence.
  - apply (Hsink long_msg sink); [reflexivity | vm_compute; reflexivity].
Defined.

(** C7 (as stated, refuted). A 20-byte record written to a sink limited to
    10 bytes per file triggers a rotation that goes through, after which
    [_current_size] is 20 and exceeds [_max_size]. *)
Lemma C7_oversized_record_exceeds_limit :
  wf sink
  ∧ fst (_sink_it huge_msg (sink, calm)) = Returned tt
  ∧ rotations (trace (snd (snd (_sink_it huge_msg (sink, calm))))) = 1%nat
  ∧ _current_size (fst (snd (_sink_it huge_msg (sink, calm)))) = 20
  ∧ _max_size (fst (snd (_sink_it huge_msg (sink, calm)))) = 10
  ∧ ¬ (_current_size (fst (snd (_sink_it huge_msg (sink, calm))))
       <= _max_size (fst (snd (_sink_it huge_msg (sink, calm))))).
Proof.
  split; [split; reflexivity|].
  repeat split; try (vm_compute; reflexivity).
  vm_compute. intros H. apply H. reflexivity.
Qed.

(** C7 (amended). After a write that returns, [_max_size] is unchanged;
    if the write rotated, [_current_size] is the length of the record that
    triggered the rotation, otherwise it is the new total; so
    [_current_size <= _max_size] holds after every write of a record that
    is itself no longer than [_max_size]. *)
Theorem C7_current_size_after_write (msg : log_msg) (s : t) (w : world)
    (s' : t) (w' : world) :
  wf s → _sink_it msg (s, w) = (Returned tt, (s', w')) →
  let total := SizeT.add (_current_size s) (StdString.size (formatted msg)) in
  _max_size s' = _max_size s
  ∧ (total > _max_size s → _current_size s' = StdString.size (formatted msg))
  ∧ (total <= _max_size s → _current_size s' = total)
  ∧ (StdString.size (formatted msg) <= _max_size s → _current_size s' <= _max_size s').
Proof.
  intros Hwf Hrun total. revert Hrun. rewrite sink_it_eq. fold total. cbv zeta.
  destruct (bool_decide (total > _max_size s)) eqn:Hgt.
  - apply bool_decide_eq_true in Hgt.
    destruct (_rotate _) as [[[]|e] [s2 w2]] eqn:Hrot; [|discriminate].
    apply rotate_returns in Hrot as (-> & _); [|now apply wf_named, wf_set_current_size].
    rewrite write_eq. cbn. intros [= <- <-]. cbn. repeat split; lia.
  - apply bool_decide_eq_false in Hgt.
    rewrite write_eq. cbn. destruct Hwf as [-> _]. intros [= <- <-]. cbn.
    repeat split; lia.
Qed.

Lemma C7_current_size_witness :
  wf sink
  ∧ _sink_it long_msg (sink, calm)
    = (Returned tt, (fst (snd (_sink_it long_msg (sink, calm))),
                     snd (snd (_sink_it long_msg (sink, calm)))))
  ∧ _current_size (fst (snd (_sink_it long_msg (sink, calm)))) = 6
  ∧ _current_size (fst (snd (_sink_it long_msg (sink, calm))))
    <= _max_size (fst (snd (_sink_it long_msg (sink, calm)))).
Proof.
  assert (wf sink) as Hwf by (split; reflexivity).
  assert (_sink_it long_msg (sink, calm)
          = (Returned tt, (fst (snd (_sink_it long_msg (sink, calm))),
                           snd (snd (_sink_it long_msg (sink, calm))))))
    as Hrun by (vm_compute; reflexivity).
  split; [exact Hwf|]. split; [exact Hrun|].
  destruct (C7_current_size_after_write long_msg sink calm _ _ Hwf Hrun)
    as (_ & Hrot & _ & Hle).
  split.
  - apply Hrot. vm_compute. reflexivity.
  - apply Hle. vm_compute. discriminate.
Defined.

(** C10. With [_max_files = 0] the loop body never runs: [_rotate] makes
    exactly two calls, closing the active file and reopening it truncated,
    with no test, removal or rename; the active file becomes empty and every
    other file is as it was. The write that triggered the rotation then
    leaves the record as the only content of the active file. *)
Theorem C10_rotate_without_backups (s : t) (w : world) :
  wf s → _max_files s = 0 → fault w (OpOpen (name s 0)) = None →
  ∃ w', _rotate (s, w) = (Returned tt, (s, w'))
  ∧ trace w' = trace w ++ [EvClose (name s 0); EvOpen (name s 0) true None]
  ∧ files w' = <[name s 0 := ""]> (files w)
  ∧ ∀ msg, fh (FileHelper.write msg) (s, w')
           = (Returned tt,
              (s, emit (EvWrite (name s 0) (formatted msg))
                    (set_files (<[name s 0 := formatted msg]> (files w)) w'))).
Proof.
  intros Hwf Hmax Hopen. rewrite rotate_eq. unfold backups, after_close. rewrite Hmax.
  pose proof Hwf as [Hfd Hfn]. rewrite Hfd, Hfn.
  change (Z.to_nat 0) with 0%nat. cbn [_rotate_loop]. unfold ret. cbv beta iota. rewrite (reopen_eq (closed s)); [|reflexivity|exact Hfn].
  change (name (closed s) 0) with (name s 0). cbn [fault emit]. rewrite Hopen.
  rewrite (reopened_closed s Hwf).
  eexists. split; [reflexivity|]. cbn. rewrite <- app_assoc.
  split; [reflexivity|]. split; [reflexivity|].
  intros msg. rewrite write_eq, Hfd, Hfn. cbn. rewrite lookup_insert_eq. cbn.
  now rewrite insert_insert_eq.
Qed.

Lemma C10_rotate_without_backups_witness :
  wf sink0 ∧ _max_files sink0 = 0 ∧ fault calm (OpOpen (name sink0 0)) = None
  ∧ ∃ w', _rotate (sink0, calm) = (Returned tt, (sink0, w'))
    ∧ trace w' = [EvClose "log.txt"; EvOpen "log.txt" true None]
    ∧ files w' = <["log.txt" := ""]> disk.
Proof.
  assert (wf sink0) as Hwf by (split; reflexivity).
  split; [exact Hwf|]. split; [reflexivity|]. split; [reflexivity|].
  destruct (C10_rotate_without_backups sink0 calm Hwf eq_refl eq_refl)
    as (w' & Hrun & Htr & Hfiles & _).
  exists w'. split; [exact Hrun|]. split; [exact Htr | exact Hfiles].
Defined.
End RotatingClaims.

(** ** The calendar *)

Module calendar_facts.
Import Calendar daily.

(** The date of a day number has a month in 1..12, and counting its days
    gives the day number back. *)
Lemma civil_from_days_spec z :
  ∃ y m d, civil_from_days z = (y, m, d) ∧ 1 <= m <= 12 ∧ days_from_civil y m d = z.
Proof.
  unfold civil_from_days, days_from_civil.
  set (z' := z + 719468).
  set (era := z' / 146097). set (doe := z' mod 146097).
  assert (0 <= doe < 146097) as Hdoe by (apply Z.mod_pos_bound; lia).
  assert (z' = 146097 * era + doe) as Hz by (apply Z.div_mod; lia).
  set (c := Z.min (doe / 36524) 3).
  assert (0 <= c <= 3) as Hc by (unfold c; pose proof (Z.div_pos doe 36524); lia).
  set (r := doe - c * 36524).
  assert (0 <= r <= 36524) as Hr.
  { unfold r, c. pose proof (Z.div_mod doe 36524).
    pose proof (Z.mod_pos_bound doe 36524). lia. }
  set (q := r / 1461).
  assert (0 <= q <= 24) as Hq.
  { unfold q. split; [apply Z.div_pos; lia|].
    assert (r / 1461 < 25) by (apply Z.div_lt_upper_bound; lia). lia. }
  set (r2 := r - q * 1461).
  assert (0 <= r2 <= 1460) as Hr2.
  { unfold r2, q. pose proof (Z.div_mod r 1461).
    pose proof (Z.mod_pos_bound r 1461). lia. }
  set (y1 := Z.min (r2 / 365) 3).
  assert (0 <= y1 <= 3) as Hy1 by (unfold y1; pose proof (Z.div_pos r2 365); lia).
  set (doy := r2 - y1 * 365).
  assert (0 <= doy <= 365) as Hdoy.
  { unfold doy, y1. pose proof (Z.div_mod r2 365).
    pose proof (Z.mod_pos_bound r2 365). lia. }
  set (yoe := 100 * c + 4 * q + y1).
  set (mp := (5 * doy + 2) / 153).
  assert (0 <= mp <= 11) as Hmp.
  { unfold mp. split; [apply Z.div_pos; lia|].
    assert ((5 * doy + 2) / 153 < 12) by (apply Z.div_lt_upper_bound; lia). lia. }
  set (m := if mp <? 10 then mp + 3 else mp - 9).
  assert (1 <= m <= 12) as Hm12 by (unfold m; destruct (mp <? 10) eqn:E; lia).
  assert ((if m <=? 2 then 1 else 0) = (if mp <? 10 then 0 else 1)) as Hm.
  { unfold m. destruct (mp <? 10) eqn:E; destruct (_ <=? 2) eqn:E2; lia. }
  assert ((if 2 <? m then m - 3 else m + 9) = mp) as Hmp'.
  { unfold m. destruct (mp <? 10) eqn:E; destruct (2 <? _) eqn:E2; lia. }
  eexists _, m, _. split; [reflexivity|]. split; [exact Hm12|].
  rewrite Hmp'.
  replace (yoe + era * 400 + (if m <=? 2 then 1 else 0) - (if m <=? 2 then 1 else 0))
    with (yoe + era * 400) by lia.
  assert (0 <= yoe < 400) as Hyoe by (unfold yoe; lia).
  assert ((yoe + era * 400) / 400 = era) as ->.
  { symmetry. apply (Z.div_unique _ _ _ yoe); lia. }
  assert ((yoe + era * 400) mod 400 = yoe) as ->.
  { symmetry. apply (Z.mod_unique _ _ era); lia. }
  assert (yoe / 4 = 25 * c + q) as ->.
  { symmetry. apply (Z.div_unique _ _ _ y1); unfold yoe; lia. }
  assert (yoe / 100 = c) as ->.
  { symmetry. apply (Z.div_unique _ _ _ (4 * q + y1)); unfold yoe; lia. }
  unfold yoe, doy, r2, r in *. lia.
Qed.

Lemma day_start_bounds off t : day_start off t <= t < day_start off t + 86400.
Proof.
  unfold day_start. pose proof (Z.div_mod (t + off) 86400).
  pose proof (Z.mod_pos_bound (t + off) 86400). lia.
Qed.

(** [mktime] of the date of [t] with another time of day. *)
Lemma mktime_localtime off t h mi sec :
  mktime off (mkTm sec mi h (tm_mday (localtime off t)) (tm_mon (localtime off t))
                   (tm_year (localtime off t)))
  = day_start off t + h * 3600 + mi * 60 + sec.
Proof.
  unfold localtime, mktime, day_start.
  destruct (civil_from_days_spec ((t + off) / 86400)) as (y & m & d & -> & Hm & Hdays).
  cbn [tm_mday tm_mon tm_year tm_hour tm_min tm_sec].
  replace ((m - 1) / 12) with 0 by (symmetry; apply Z.div_small; lia).
  replace ((m - 1) mod 12) with (m - 1) by (symmetry; apply Z.mod_small; lia).
  replace (y - 1900 + 1900 + 0) with y by lia.
  replace (m - 1 + 1) with m by lia.
  rewrite Hdays. lia.
Qed.

(** The calendar fields of an instant of the day of [t]. *)
Lemma localtime_in_day off t h mi :
  0 <= h <= 23 → 0 <= mi <= 59 →
  localtime off (day_start off t + h * 3600 + mi * 60)
  = mkTm 0 mi h (tm_mday (localtime off t)) (tm_mon (localtime off t))
         (tm_year (localtime off t)).
Proof.
  intros Hh Hmi. unfold localtime, day_start.
  set (day := (t + off) / 86400).
  replace (day * 86400 - off + h * 3600 + mi * 60 + off)
    with (h * 3600 + mi * 60 + day * 86400) by lia.
  rewrite Z.div_add, Z.mod_add by lia.
  rewrite (Z.div_small (h * 3600 + mi * 60)), (Z.mod_small (h * 3600 + mi * 60)) by lia.
  rewrite Z.add_0_l.
  destruct (civil_from_days day) as [[y m] d]. cbn [tm_mday tm_mon tm_year].
  f_equal.
  - replace (h * 3600 + mi * 60) with (0 + (60 * h + mi) * 60) by lia.
    now rewrite Z.mod_add by lia.
  - replace (h * 3600 + mi * 60) with ((h * 60 + mi) * 60) by lia.
    rewrite Z.div_mul by lia. replace (h * 60 + mi) with (mi + h * 60) by lia.
    rewrite Z.mod_add by lia. apply Z.mod_small. lia.
  - replace (h * 3600 + mi * 60) with (mi * 60 + h * 3600) by lia.
    rewrite Z.div_add by lia. rewrite (Z.div_small (mi * 60)) by lia. lia.
Qed.

Lemma to_time_t_seconds t : chrono.to_time_t (t * chrono.ticks_per_second) = t.
Proof.
  unfold chrono.to_time_t, chrono.ticks_per_second.
  apply Z.quot_mul. lia.
Qed.

(** Inside the range of the count nothing wraps. *)
Lemma wrap_exact x : chrono.min_rep <= x <= chrono.max_rep → chrono.wrap x = x.
Proof.
  unfold chrono.min_rep, chrono.max_rep, chrono.wrap. intros Hx.
  rewrite Z.mod_small by lia. lia.
Qed.

(** A second lies within a second of its instant. *)
Lemma to_time_t_near now :
  now - chrono.ticks_per_second < chrono.to_time_t now * chrono.ticks_per_second
  < now + chrono.ticks_per_second.
Proof.
  unfold chrono.to_time_t, chrono.ticks_per_second.
  pose proof (Z.quot_rem' now 1000000000) as Hqr.
  destruct (Z_le_gt_dec 0 now) as [Hpos|Hneg].
  - pose proof (Z.rem_bound_pos now 1000000000 Hpos ltac:(lia)). lia.
  - pose proof (Z.rem_bound_pos_neg now 1000000000 ltac:(lia) ltac:(lia)). lia.
Qed.

(** An instant lies before the end of its (truncated) second. *)
Lemma to_time_t_upper now : now < (chrono.to_time_t now + 1) * chrono.ticks_per_second.
Proof.
  unfold chrono.to_time_t, chrono.ticks_per_second.
  pose proof (Z.quot_rem' now 1000000000) as Hqr.
  destruct (Z_le_gt_dec 0 now) as [Hpos|Hneg].
  - pose proof (Z.rem_bound_pos now 1000000000 Hpos ltac:(lia)). lia.
  - pose proof (Z.rem_bound_pos_neg now 1000000000 ltac:(lia) ltac:(lia)). lia.
Qed.

Lemma to_time_t_lower now : 0 <= now → chrono.to_time_t now * chrono.ticks_per_second <= now.
Proof.
  intros Hpos. unfold chrono.to_time_t, chrono.ticks_per_second.
  pose proof (Z.quot_rem' now 1000000000) as Hqr.
  pose proof (Z.rem_bound_pos now 1000000000 Hpos ltac:(lia)). lia.
Qed.
End calendar_facts.

(** ** The time-triggered sink *)

Module daily_facts.
Import daily_file_sink daily calendar_facts.

Lemma daily_set_file_helper_id s : set_file_helper (_file_helper s) s = s.
Proof. now destruct s. Qed.

Lemma bind_run {S A B} (m : M S A) (k : A → M S B) (st : S) :
  bind m k st
  = match m st with
    | (Returned a, st') => k a st'
    | (Thrown e, st') => (Thrown e, st')
    end.
Proof. reflexivity. Qed.

Lemma next_rotation_tp_run s w :
  _next_rotation_tp (s, w)
  = (Returned (computed_tp s (gmtoff w) (clock w (ticks w))),
     (s, emit (EvNow (clock w (ticks w))) (tick w))).
Proof.
  unfold _next_rotation_tp, bind, env, zoom, os.now, get. cbn [fst snd gmtoff emit tick].
  rewrite mktime_localtime. unfold computed_tp, ret.
  rewrite Z.add_0_r.
  destruct (bool_decide _); reflexivity.
Qed.

(** Away from the ends of the range the count does not wrap: the code
    computes the candidate, or the candidate plus 24 hours. *)
Lemma computed_tp_exact s off now :
  valid_time s → safe_reading now → computed_tp s off now = next_tp s off now.
Proof.
  intros [Hh Hm] Hsafe. unfold computed_tp, next_tp, candidate.
  pose proof (to_time_t_near now) as Hnear.
  pose proof (day_start_bounds off (chrono.to_time_t now)) as Hday.
  unfold safe_reading, chrono.hours, chrono.plus, chrono.from_time_t in *.
  set (c := (day_start off (chrono.to_time_t now) + _rotation_h s * 3600 + _rotation_m s * 60)
            * chrono.ticks_per_second) in *.
  assert (now - 86400 * 1000000000 <= c <= now + 86400 * 1000000000) as Hc
    by (unfold c, chrono.ticks_per_second in *; lia).
  unfold chrono.min_rep, chrono.max_rep, chrono.ticks_per_second in *.
  rewrite (wrap_exact c)
    by (unfold chrono.min_rep, chrono.max_rep; lia).
  destruct (bool_decide (c > now)); [reflexivity|].
  rewrite wrap_exact by (unfold chrono.min_rep, chrono.max_rep; lia). lia.
Qed.

(** The computed instant is strictly after the instant of the computation. *)
Lemma next_tp_future s off now : valid_time s → next_tp s off now > now.
Proof.
  intros [Hh Hm]. unfold next_tp.
  destruct (bool_decide (candidate s off now > now)) eqn:Hc.
  - now apply bool_decide_eq_true in Hc.
  - unfold candidate.
    pose proof (to_time_t_upper now) as Hup.
    pose proof (day_start_bounds off (chrono.to_time_t now)) as Hday.
    unfold chrono.ticks_per_second in *. lia.
Qed.

Lemma open_eq name s w :
  fh (FileHelper.open name false) (s, w)
  = match fault w (OpOpen name) with
    | None =>
        (Returned tt,
         (set_file_helper (FileHelper.mk true name) s,
          emit (EvOpen name false None)
               (set_files (<[name := default "" (files w !! name)]> (files w))
                          (closing s w))))
    | Some c =>
        (Thrown (spdlog_ex ("Failed opening file " +:+ name +:+ " for writing") (Some c)),
         (set_file_helper (FileHelper.mk false name) s,
          emit (EvOpen name false (Some c)) (set_errno c (closing s w))))
    end.
Proof.
  unfold fh, zoom, FileHelper.open, bind, FileHelper.close, closing. cbn.
  destruct (FileHelper._fd (_file_helper s)); cbn;
    destruct (fault w (OpOpen name)); reflexivity.
Qed.

Lemma daily_write_eq msg s w :
  fh (FileHelper.write msg) (s, w)
  = if FileHelper._fd (_file_helper s)
    then (Returned tt,
          (s, emit (EvWrite (FileHelper._filename (_file_helper s)) (formatted msg))
                (set_files
                   (<[FileHelper._filename (_file_helper s) :=
                        default "" (files w !! FileHelper._filename (_file_helper s))
                          +:+ formatted msg]> (files w)) w)))
    else (Thrown (spdlog_ex ("Failed writing to file "
                               +:+ FileHelper._filename (_file_helper s))
                            (Some (errno w))), (s, w)).
Proof.
  unfold fh, zoom, FileHelper.write. cbn.
  destruct (FileHelper._fd (_file_helper s)); cbn; now rewrite daily_set_file_helper_id.
Qed.

Section WithCalc.
Context `{FileNameCalc}.

Lemma calc_filename_run s w :
  env (calc_filename (_base_filename s) (_extension s)) (s, w)
  = (Returned (dated_name s (gmtoff w) (clock w (ticks w))),
     (s, emit (EvTime (chrono.to_time_t (clock w (ticks w)))) (tick w))).
Proof. reflexivity. Qed.

Lemma daily_sink_it_eq msg s w :
  _sink_it msg (s, w)
  = let w1 := emit (EvNow (clock w (ticks w))) (tick w) in
    if bool_decide (clock w (ticks w) >= _rotation_tp s)
    then
      let w2 := emit (EvTime (chrono.to_time_t (clock w (S (ticks w))))) (tick w1) in
      match fh (FileHelper.open (dated_name s (gmtoff w) (clock w (S (ticks w)))) false)
               (s, w2) with
      | (Returned _, (s3, w3)) =>
          fh (FileHelper.write msg)
             (set_rotation_tp (computed_tp s3 (gmtoff w3) (clock w3 (ticks w3))) s3,
              emit (EvNow (clock w3 (ticks w3))) (tick w3))
      | (Thrown e, st) => (Thrown e, st)
      end
    else fh (FileHelper.write msg) (s, w1).
Proof.
  unfold _sink_it. rewrite bind_run. unfold env at 1, zoom, os.now. cbn [fst snd].
  rewrite bind_run. unfold get at 1. cbn [fst snd]. rewrite bind_run. unfold when.
  destruct (bool_decide _); [|reflexivity].
  rewrite bind_run, calc_filename_run. cbn [ticks tick emit gmtoff clock].
  rewrite bind_run.
  destruct (fh (FileHelper.open _ false) _) as [[[]|e] [s3 w3]]; [|reflexivity].
  rewrite bind_run, next_rotation_tp_run.
  unfold modify. cbn [fst snd]. reflexivity.
Qed.

Lemma invalid_rotation_time_false h m :
  invalid_rotation_time h m = false ↔ 0 <= h <= 23 ∧ 0 <= m <= 59.
Proof.
  unfold invalid_rotation_time.
  rewrite !orb_false_iff, !bool_decide_eq_false. lia.
Qed.

(** What a constructor that returns has done. *)
Lemma ctor_returns filename h m w s w' :
  ctor filename h m w = (Returned s, w') →
  valid_time s
  ∧ _rotation_tp s = computed_tp s (gmtoff w) (clock w (ticks w))
  ∧ FileHelper._fd (_file_helper s) = true
  ∧ FileHelper._filename (_file_helper s) = dated_name s (gmtoff w) (clock w (S (ticks w)))
  ∧ trace w' = trace w ++ [EvNow (clock w (ticks w));
                           EvTime (chrono.to_time_t (clock w (S (ticks w))));
                           EvOpen (FileHelper._filename (_file_helper s)) false None]
  ∧ files w' = <[FileHelper._filename (_file_helper s) :=
                   default "" (files w !! FileHelper._filename (_file_helper s))]> (files w).
Proof.
  unfold ctor, ctor_body. rewrite bind_run.
  destruct (invalid_rotation_time h m) eqn:Hinv; [discriminate|].
  apply invalid_rotation_time_false in Hinv.
  unfold ret at 1. rewrite bind_run, next_rotation_tp_run, bind_run.
  unfold modify at 1. cbn [fst snd].
  destruct (split_filename filename) as [[base ext]|e]; [|discriminate].
  rewrite bind_run. unfold modify at 1.
  cbn [fst snd _rotation_h _rotation_m _rotation_tp _file_helper set_rotation_tp].
  rewrite bind_run.
  match goal with |- context [env (calc_filename base ext) (?s1, ?w1)] =>
    change (env (calc_filename base ext) (s1, w1))
      with (env (calc_filename (_base_filename s1) (_extension s1)) (s1, w1))
  end.
  rewrite calc_filename_run, open_eq. cbn [gmtoff emit tick fault clock ticks].
  destruct (fault w (OpOpen _)); [discriminate|].
  intros [= <- <-]. cbn. rewrite <- !app_assoc.
  unfold valid_time. cbn. repeat split; try reflexivity; lia.
Qed.

(** The calls of a constructor never unlink a file, whatever its outcome. *)
Lemma ctor_keeps_files filename h m w r w' :
  ctor filename h m w = (r, w') →
  ∃ evs, trace w' = trace w ++ evs
       ∧ Forall (λ ev, is_unlink ev = false) evs
       ∧ preserved (files w) (files w').
Proof.
  unfold ctor, ctor_body. rewrite bind_run.
  destruct (invalid_rotation_time h m) eqn:Hinv.
  { intros [= <- <-]. exists []. rewrite app_nil_r. repeat split; [constructor|].
    intros p c Hp. exists "". now rewrite Hp, string_app_nil_r. }
  unfold ret at 1. rewrite bind_run, next_rotation_tp_run, bind_run.
  unfold modify at 1. cbn [fst snd].
  destruct (split_filename filename) as [[base ext]|e].
  2:{ intros [= <- <-]. eexists [_]. split; [reflexivity|]. repeat split; [repeat constructor|].
      intros p c Hp. exists "". cbn. now rewrite Hp, string_app_nil_r. }
  rewrite bind_run. unfold modify at 1.
  cbn [fst snd _rotation_h _rotation_m _rotation_tp _file_helper set_rotation_tp].
  rewrite bind_run.
  match goal with |- context [env (calc_filename base ext) (?s1, ?w1)] =>
    change (env (calc_filename base ext) (s1, w1))
      with (env (calc_filename (_base_filename s1) (_extension s1)) (s1, w1))
  end.
  rewrite calc_filename_run, open_eq. cbn [gmtoff emit tick fault clock ticks].
  destruct (fault w (OpOpen _)); intros [= <- <-]; cbn; rewrite <- !app_assoc;
    (eexists; split; [reflexivity|]; split; [repeat constructor|]).
  - intros p c Hp. exists "". now rewrite Hp, string_app_nil_r.
  - intros p c Hp. exists "".
    match goal with |- <[?n := _]> _ !! _ = _ => destruct (decide (n = p)) as [->|Hne] end.
    + rewrite lookup_insert_eq, Hp. cbn. now rewrite string_app_nil_r.
    + rewrite lookup_insert_ne, Hp by done. now rewrite string_app_nil_r.
Qed.

Lemma ctor2_returns base ext h m w s w' :
  ctor2 base ext h m w = (Returned s, w') →
  valid_time s
  ∧ _rotation_tp s = computed_tp s (gmtoff w) (clock w (ticks w))
  ∧ FileHelper._fd (_file_helper s) = true
  ∧ FileHelper._filename (_file_helper s) = dated_name s (gmtoff w) (clock w (S (ticks w)))
  ∧ trace w' = trace w ++ [EvNow (clock w (ticks w));
                           EvTime (chrono.to_time_t (clock w (S (ticks w))));
                           EvOpen (FileHelper._filename (_file_helper s)) false None]
  ∧ files w' = <[FileHelper._filename (_file_helper s) :=
                   default "" (files w !! FileHelper._filename (_file_helper s))]> (files w).
Proof.
  unfold ctor2. rewrite bind_run.
  destruct (invalid_rotation_time h m) eqn:Hinv; [discriminate|].
  apply invalid_rotation_time_false in Hinv.
  unfold ret at 1. rewrite bind_run, next_rotation_tp_run, bind_run.
  unfold modify at 1. cbn [fst snd]. rewrite bind_run.
  match goal with |- context [env (calc_filename base ext) (?s1, ?w1)] =>
    change (env (calc_filename base ext) (s1, w1))
      with (env (calc_filename (_base_filename s1) (_extension s1)) (s1, w1))
  end.
  rewrite calc_filename_run, open_eq. cbn [gmtoff emit tick fault clock ticks].
  destruct (fault w (OpOpen _)); [discriminate|].
  intros [= <- <-]. cbn. rewrite <- !app_assoc.
  unfold valid_time. cbn. repeat split; try reflexivity; lia.
Qed.

Lemma ctor2_keeps_files base ext h m w r w' :
  ctor2 base ext h m w = (r, w') →
  ∃ evs, trace w' = trace w ++ evs
       ∧ Forall (λ ev, is_unlink ev = false) evs
       ∧ preserved (files w) (files w').
Proof.
  unfold ctor2. rewrite bind_run.
  destruct (invalid_rotation_time h m) eqn:Hinv.
  { intros [= <- <-]. exists []. rewrite app_nil_r. repeat split; [constructor|].
    intros p c Hp. exists "". now rewrite Hp, string_app_nil_r. }
  unfold ret at 1. rewrite bind_run, next_rotation_tp_run, bind_run.
  unfold modify at 1. cbn [fst snd]. rewrite bind_run.
  match goal with |- context [env (calc_filename base ext) (?s1, ?w1)] =>
    change (env (calc_filename base ext) (s1, w1))
      with (env (calc_filename (_base_filename s1) (_extension s1)) (s1, w1))
  end.
  rewrite calc_filename_run, open_eq. cbn [gmtoff emit tick fault clock ticks].
  destruct (fault w (OpOpen _)); intros [= <- <-]; cbn; rewrite <- !app_assoc;
    (eexists; split; [reflexivity|]; split; [repeat constructor|]).
  - intros p c Hp. exists "". now rewrite Hp, string_app_nil_r.
  - intros p c Hp. exists "".
    match goal with |- <[?n := _]> _ !! _ = _ => destruct (decide (n = p)) as [->|Hne] end.
    + rewrite lookup_insert_eq, Hp. cbn. now rewrite string_app_nil_r.
    + rewrite lookup_insert_ne, Hp by done. now rewrite string_app_nil_r.
Qed.

Lemma preserved_refl F : preserved F F.
Proof. intros p c Hp. exists "". now rewrite Hp, string_app_nil_r. Qed.

Lemma preserved_open F name : preserved F (<[name := default "" (F !! name)]> F).
Proof.
  intros p c Hp. exists "". destruct (decide (name = p)) as [->|Hne].
  - rewrite lookup_insert_eq, Hp. cbn. now rewrite string_app_nil_r.
  - rewrite lookup_insert_ne, Hp by done. now rewrite string_app_nil_r.
Qed.

Lemma preserved_write F name bytes :
  preserved F (<[name := default "" (F !! name) +:+ bytes]> F).
Proof.
  intros p c Hp. destruct (decide (name = p)) as [->|Hne].
  - exists bytes. now rewrite lookup_insert_eq, Hp.
  - exists "". rewrite lookup_insert_ne, Hp by done. now rewrite string_app_nil_r.
Qed.

Lemma string_app_assoc (a b c : string) : (a +:+ b) +:+ c = a +:+ (b +:+ c).
Proof. induction a; [reflexivity|]. rewrite !string_app_cons. now f_equal. Qed.

Lemma preserved_trans F G K : preserved F G → preserved G K → preserved F K.
Proof.
  intros HFG HGK p c Hp. destruct (HFG p c Hp) as (c1 & Hc1).
  destruct (HGK p _ Hc1) as (c2 & Hc2). exists (c1 +:+ c2).
  now rewrite Hc2, string_app_assoc.
Qed.

Lemma closing_spec s w :
  files (closing s w) = files w ∧ fault (closing s w) = fault w
  ∧ clock (closing s w) = clock w ∧ ticks (closing s w) = ticks w
  ∧ gmtoff (closing s w) = gmtoff w
  ∧ trace (closing s w) = trace w ++ close_events s.
Proof.
  unfold closing, close_events. destruct (FileHelper._fd (_file_helper s)); cbn;
    rewrite ?app_nil_r; repeat split; reflexivity.
Qed.

(** What a write has done, by cases: not due, due and the open refused,
    due and gone through. *)
Lemma sink_it_cases msg s w r s' w' :
  _sink_it msg (s, w) = (r, (s', w')) →
  let now1 := clock w (ticks w) in
  let now2 := clock w (S (ticks w)) in
  let now3 := clock w (S (S (ticks w))) in
  let name := dated_name s (gmtoff w) now2 in
  (now1 < _rotation_tp s
   ∧ s' = s
   ∧ ((r = Returned tt
       ∧ trace w' = trace w ++ [EvNow now1;
                                EvWrite (FileHelper._filename (_file_helper s)) (formatted msg)]
       ∧ files w' = <[FileHelper._filename (_file_helper s) :=
                        default "" (files w !! FileHelper._filename (_file_helper s))
                          +:+ formatted msg]> (files w))
      ∨ ((∃ e, r = Thrown e) ∧ trace w' = trace w ++ [EvNow now1] ∧ files w' = files w)))
  ∨ (now1 >= _rotation_tp s
     ∧ (∃ c, fault w (OpOpen name) = Some c
             ∧ r = Thrown (spdlog_ex ("Failed opening file " +:+ name +:+ " for writing")
                                     (Some c)))
     ∧ s' = set_file_helper (FileHelper.mk false name) s
     ∧ trace w' = trace w ++ [EvNow now1; EvTime (chrono.to_time_t now2)]
                    ++ close_events s ++ [EvOpen name false (fault w (OpOpen name))]
     ∧ files w' = files w)
  ∨ (now1 >= _rotation_tp s
     ∧ fault w (OpOpen name) = None ∧ r = Returned tt
     ∧ s' = set_rotation_tp (computed_tp s (gmtoff w) now3)
              (set_file_helper (FileHelper.mk true name) s)
     ∧ trace w' = trace w ++ [EvNow now1; EvTime (chrono.to_time_t now2)]
                    ++ close_events s
                    ++ [EvOpen name false None; EvNow now3; EvWrite name (formatted msg)]
     ∧ files w' = <[name := default "" (files w !! name) +:+ formatted msg]> (files w)).
Proof.
  rewrite daily_sink_it_eq. cbv zeta.
  destruct (bool_decide (clock w (ticks w) >= _rotation_tp s)) eqn:Hdue.
  - apply bool_decide_eq_true in Hdue.
    rewrite open_eq. cbn [fault emit tick].
    destruct (closing_spec s (emit (EvTime (chrono.to_time_t (clock w (S (ticks w)))))
                                (tick (emit (EvNow (clock w (ticks w))) (tick w)))))
      as (Hcf & Hcfault & Hcclock & Hcticks & Hcoff & Hctr).
    destruct (fault w (OpOpen _)) as [c|] eqn:Hfault.
    + intros [= <- <- <-]. right. left. split; [exact Hdue|]. split; [eauto|].
      split; [reflexivity|]. cbn. rewrite ?Hctr, ?Hcf. cbn.
      rewrite <- !app_assoc. split; reflexivity.
    + rewrite daily_write_eq. cbn. rewrite ?Hcf, ?Hcclock, ?Hcticks, ?Hcoff. cbn.
      intros [= <- <- <-]. right. right. split; [exact Hdue|]. split; [reflexivity|].
      split; [reflexivity|]. split; [reflexivity|]. cbn. rewrite Hctr. cbn.
      rewrite <- !app_assoc. split; [reflexivity|].
      now rewrite lookup_insert_eq, insert_insert_eq.
  - apply bool_decide_eq_false in Hdue.
    rewrite daily_write_eq. destruct (FileHelper._fd (_file_helper s)).
    + intros [= <- <- <-]. left. split; [lia|]. split; [reflexivity|]. left. cbn.
      rewrite <- !app_assoc. repeat split; reflexivity.
    + intros [= <- <- <-]. left. split; [lia|]. split; [reflexivity|]. right. cbn.
      repeat split; eauto.
Qed.
End WithCalc.
End daily_facts.

Section DailyClaims.
Import daily_file_sink daily calendar_facts daily_facts fixtures.



Lemma clock_reads_app l1 l2 : clock_reads (l1 ++ l2) = (clock_reads l1 + clock_reads l2)%nat.
Proof. unfold clock_reads. now rewrite List.filter_app, length_app. Qed.

Lemma close_events_no_clock s : clock_reads (close_events s) = 0%nat.
Proof. unfold close_events. now destruct (FileHelper._fd (_file_helper s)). Qed.

Lemma close_events_no_unlink s : Forall (λ ev, is_unlink ev = false) (close_events s).
Proof. unfold close_events. destruct (FileHelper._fd (_file_helper s)); repeat constructor. Qed.

(** C8 (as stated, refuted). The count of a [time_point] is a signed
    64-bit number of nanoseconds, whose last instant is 2262-04-11
    23:47:16.854775807. At the reading 2262-04-11 23:47:16, with a rotation
    at midnight, the candidate 2262-04-11 00:00:00 is not after the reading,
    and adding 24 hours to it leaves the range: [_next_rotation_tp] returns
    the wrapped count, an instant of the year 1677, which is not later than
    the reading it was computed from. A constructor run at that reading
    stores this instant as [_rotation_tp]. *)
Lemma C8_rotation_instant_overflows :
  valid_time (midnight_sink 0)
  ∧ chrono.min_rep <= at_2262_04_11_23_47_16 <= chrono.max_rep
  ∧ _next_rotation_tp (midnight_sink 0, quiet_world at_2262_04_11_23_47_16)
    = (Returned (-9223371273709551616),
       (midnight_sink 0,
        emit (EvNow at_2262_04_11_23_47_16) (tick (quiet_world at_2262_04_11_23_47_16))))
  ∧ ¬ (-9223371273709551616 > at_2262_04_11_23_47_16)
  ∧ ∃ s0 w0,
      @ctor2 default_daily_file_name_calculator "log" "txt" 0 0
        (quiet_world at_2262_04_11_23_47_16) = (Returned s0, w0)
      ∧ _rotation_tp s0 = -9223371273709551616
      ∧ ¬ (_rotation_tp s0 > at_2262_04_11_23_47_16).
Proof.
  split; [unfold valid_time; cbn; lia|].
  split; [vm_compute; split; discriminate|].
  split; [vm_compute; reflexivity|].
  split; [vm_compute; intros H; discriminate H|].
  eexists _, _. split; [vm_compute; reflexivity|].
  split; [reflexivity|]. vm_compute. intros H. discriminate H.
Qed.

(** C8 (amended). Local time is at the fixed offset [gmtoff w] from UTC,
    and the clock readings from which a rotation instant is computed are at
    least 48 hours away from both ends of the 64-bit count
    ([safe_reading]). Every run of [_next_rotation_tp] then returns an
    instant strictly later than the clock reading it was computed from. A
    constructor that returns has run it once and stored its result. A write
    whose test finds the rotation due and that returns, which it does when
    the open of the dated file is not refused, has run it once more, after
    opening the file, and stored that result, which is strictly later than
    the reading it was computed from; a write that is not due, or that is
    due and whose open is refused (it throws), leaves [_rotation_tp] as it
    was and makes no clock reading besides its test. *)
Theorem C8_rotation_instant_strictly_later `{FileNameCalc} (s : t) (w : world) :
  valid_time s →
  safe_reading (clock w (ticks w)) → safe_reading (clock w (S (S (ticks w)))) →
  (∃ tp, _next_rotation_tp (s, w)
         = (Returned tp, (s, emit (EvNow (clock w (ticks w))) (tick w)))
         ∧ tp > clock w (ticks w))
  ∧ (∀ filename h m s0 w0,
       ctor filename h m w = (Returned s0, w0) →
       valid_time s0
       ∧ _rotation_tp s0 = next_tp s0 (gmtoff w) (clock w (ticks w))
       ∧ _rotation_tp s0 > clock w (ticks w)
       ∧ ∃ evs, trace w0 = trace w ++ evs ∧ clock_reads evs = 1%nat)
  ∧ (∀ base ext h m s0 w0,
       ctor2 base ext h m w = (Returned s0, w0) →
       valid_time s0
       ∧ _rotation_tp s0 = next_tp s0 (gmtoff w) (clock w (ticks w))
       ∧ _rotation_tp s0 > clock w (ticks w)
       ∧ ∃ evs, trace w0 = trace w ++ evs ∧ clock_reads evs = 1%nat)
  ∧ (∀ msg r s' w',
      _sink_it msg (s, w) = (r, (s', w')) →
      valid_time s'
      ∧ ∃ evs, trace w' = trace w ++ evs
        ∧ if bool_decide (clock w (ticks w) >= _rotation_tp s)
          then match r with
               | Returned _ =>
                   _rotation_tp s' = next_tp s (gmtoff w) (clock w (S (S (ticks w))))
                   ∧ _rotation_tp s' > clock w (S (S (ticks w)))
                   ∧ clock_reads evs = 2%nat
               | Thrown _ => _rotation_tp s' = _rotation_tp s ∧ clock_reads evs = 1%nat
               end
          else _rotation_tp s' = _rotation_tp s ∧ clock_reads evs = 1%nat)
  ∧ ∀ msg,
      clock w (ticks w) >= _rotation_tp s →
      fault w (OpOpen (dated_name s (gmtoff w) (clock w (S (ticks w))))) = None →
      ∃ s' w', _sink_it msg (s, w) = (Returned tt, (s', w')).
Proof.
  intros Hvalid Hsafe1 Hsafe3. split; [|split; [|split; [|split]]].
  - eexists. split; [apply next_rotation_tp_run|].
    rewrite computed_tp_exact by assumption. now apply next_tp_future.
  - intros filename h m s0 w0 Hctor.
    apply ctor_returns in Hctor as (Hv & Htp & _ & _ & Htr & _).
    rewrite computed_tp_exact in Htp by assumption.
    split; [exact Hv|]. split; [exact Htp|].
    split; [rewrite Htp; now apply next_tp_future|].
    eexists. split; [exact Htr|]. reflexivity.
  - intros base ext h m s0 w0 Hctor.
    apply ctor2_returns in Hctor as (Hv & Htp & _ & _ & Htr & _).
    rewrite computed_tp_exact in Htp by assumption.
    split; [exact Hv|]. split; [exact Htp|].
    split; [rewrite Htp; now apply next_tp_future|].
    eexists. split; [exact Htr|]. reflexivity.
  - intros msg r s' w' Hrun.
    apply sink_it_cases in Hrun. cbv zeta in Hrun.
    destruct Hrun as [(Hlt & -> & Hcase) | [(Hdue & (c & Hf & ->) & -> & Htr & _)
                                          | (Hdue & Hf & -> & -> & Htr & _)]].
    + split; [exact Hvalid|].
      rewrite bool_decide_eq_false_2 by lia.
      destruct Hcase as [(-> & Htr & _) | (_ & Htr & _)];
        (eexists; split; [exact Htr|]; split; reflexivity).
    + split; [exact Hvalid|].
      rewrite bool_decide_eq_true_2 by exact Hdue.
      eexists. split; [exact Htr|]. split; [reflexivity|].
      rewrite !clock_reads_app, close_events_no_clock. reflexivity.
    + split; [exact Hvalid|].
      rewrite bool_decide_eq_true_2 by exact Hdue.
      eexists. split; [exact Htr|].
      cbn [_rotation_tp set_rotation_tp set_file_helper].
      rewrite computed_tp_exact by assumption.
      split; [reflexivity|].
      split; [now apply (next_tp_future s)|].
      rewrite !clock_reads_app, close_events_no_clock. reflexivity.
  - intros msg Hdue Hopen. rewrite daily_sink_it_eq. cbv zeta.
    rewrite bool_decide_eq_true_2 by exact Hdue.
    rewrite open_eq. cbn [fault emit tick]. rewrite Hopen.
    rewrite daily_write_eq. cbn [_file_helper set_rotation_tp set_file_helper FileHelper._fd].
    eexists _, _. reflexivity.
Qed.

Lemma C8_rotation_instant_witness :
  (valid_time (midnight_sink at_2024_01_02_00_00_00)
   ∧ safe_reading at_2024_01_02_00_00_01)
  ∧ (let st := snd (_sink_it short_msg (midnight_sink at_2024_01_02_00_00_00,
                                        quiet_world at_2024_01_02_00_00_01)) in
     _sink_it short_msg (midnight_sink at_2024_01_02_00_00_00,
                         quiet_world at_2024_01_02_00_00_01)
     = (Returned tt, (fst st, snd st))
     ∧ _rotation_tp (fst st) = at_2024_01_03_00_00_00
     ∧ _rotation_tp (fst st) > at_2024_01_02_00_00_01).
Proof.
  assert (valid_time (midnight_sink at_2024_01_02_00_00_00)) as Hvalid
    by (unfold valid_time; cbn; lia).
  assert (safe_reading at_2024_01_02_00_00_01) as Hsafe
    by (vm_compute; split; discriminate).
  split; [auto|]. cbv zeta.
  assert (_sink_it short_msg (midnight_sink at_2024_01_02_00_00_00,
                              quiet_world at_2024_01_02_00_00_01)
          = (Returned tt,
             (fst (snd (_sink_it short_msg (midnight_sink at_2024_01_02_00_00_00,
                                            quiet_world at_2024_01_02_00_00_01))),
              snd (snd (_sink_it short_msg (midnight_sink at_2024_01_02_00_00_00,
                                            quiet_world at_2024_01_02_00_00_01))))))
    as Hrun by (vm_compute; reflexivity).
  split; [exact Hrun|].
  destruct (C8_rotation_instant_strictly_later
              (midnight_sink at_2024_01_02_00_00_00)
              (quiet_world at_2024_01_02_00_00_01) Hvalid Hsafe Hsafe)
    as (_ & _ & _ & Hwrite & _).
  destruct (Hwrite _ _ _ _ Hrun) as (_ & evs & _ & Hcase).
  rewrite bool_decide_eq_true_2 in Hcase by (vm_compute; discriminate).
  destruct Hcase as (Htp & Hgt & _).
  split; [rewrite Htp; vm_compute; reflexivity | exact Hgt].
Defined.

(** C9 (as stated, refuted). With date-only names and a rotation time of
    12:00, a sink constructed at 11:00 on 2024-01-01 writes to
    ["log_2024-01-01.txt"]. A write at 13:00 finds the rotation due and
    opens the dated name of that instant, which is the same
    ["log_2024-01-01.txt"]: the file opened by the rotation is not a new,
    distinct one, and the record is appended to the file that was active. *)
Lemma C9_rotation_reopens_active_name :
  @ctor dateonly_daily_file_name_calculator "log.txt" 12 0 noon_world
  = (Returned noon_sink, noon_world_constructed)
  ∧ clock noon_world_constructed (ticks noon_world_constructed) >= _rotation_tp noon_sink
  ∧ FileHelper._filename (_file_helper noon_sink) = "log_2024-01-01.txt"
  ∧ ∃ s' w',
      @_sink_it dateonly_daily_file_name_calculator short_msg
        (noon_sink, noon_world_constructed) = (Returned tt, (s', w'))
      ∧ trace w' = trace noon_world_constructed
                     ++ [EvNow at_2024_01_01_13h; EvTime 1704114000;
                         EvClose "log_2024-01-01.txt";
                         EvOpen "log_2024-01-01.txt" false None;
                         EvNow at_2024_01_01_13h;
                         EvWrite "log_2024-01-01.txt" "ab"]
      ∧ FileHelper._filename (_file_helper s')
        = FileHelper._filename (_file_helper noon_sink)
      ∧ ¬ (FileHelper._filename (_file_helper s')
           ≠ FileHelper._filename (_file_helper noon_sink)).
Proof.
  split; [vm_compute; reflexivity|].
  split; [vm_compute; discriminate|].
  split; [reflexivity|].
  eexists _, _. split; [vm_compute; reflexivity|].
  split; [reflexivity|]. split; [reflexivity|]. intros Hne. now apply Hne.
Qed.

(** C9 (amended). The time-triggered sink never removes or renames a file:
    none of the calls of a constructor, of a write or of a flush is a
    removal or a rename, and every file that existed before still exists
    afterwards with its previous content as a prefix of its content. A write
    that finds the rotation due and returns has opened, without truncating,
    the file whose name [FileNameCalc] computes from the local calendar
    fields of the clock read at that moment (a name that may be the one
    already active), and has then appended the record to that file; a write
    that is not due only appends the record to the active file. *)
Theorem C9_daily_sink_never_unlinks `{FileNameCalc} (s : t) (w : world) :
  (∀ filename h m r w',
     ctor filename h m w = (r, w') →
     ∃ evs, trace w' = trace w ++ evs
          ∧ Forall (λ ev, is_unlink ev = false) evs
          ∧ preserved (files w) (files w'))
  ∧ (∀ base ext h m r w',
       ctor2 base ext h m w = (r, w') →
       ∃ evs, trace w' = trace w ++ evs
            ∧ Forall (λ ev, is_unlink ev = false) evs
            ∧ preserved (files w) (files w'))
  ∧ (∀ msg r s' w',
       _sink_it msg (s, w) = (r, (s', w')) →
       ∃ evs, trace w' = trace w ++ evs
            ∧ Forall (λ ev, is_unlink ev = false) evs
            ∧ preserved (files w) (files w')
            ∧ (clock w (ticks w) >= _rotation_tp s → r = Returned tt →
               let name := dated_name s (gmtoff w) (clock w (S (ticks w))) in
               FileHelper._filename (_file_helper s') = name
               ∧ evs = [EvNow (clock w (ticks w));
                        EvTime (chrono.to_time_t (clock w (S (ticks w))))]
                       ++ close_events s
                       ++ [EvOpen name false None; EvNow (clock w (S (S (ticks w))));
                           EvWrite name (formatted msg)]
               ∧ files w' = <[name := default "" (files w !! name) +:+ formatted msg]>
                              (files w))
            ∧ (clock w (ticks w) < _rotation_tp s → r = Returned tt →
               s' = s
               ∧ evs = [EvNow (clock w (ticks w));
                        EvWrite (FileHelper._filename (_file_helper s)) (formatted msg)]))
  ∧ (∀ r s' w',
       _flush (s, w) = (r, (s', w')) →
       r = Returned tt ∧ s' = s ∧ files w' = files w
       ∧ trace w' = trace w ++ [EvFlush (FileHelper._filename (_file_helper s))]).
Proof.
  split; [|split; [|split]].
  - intros filename h m r w'. apply ctor_keeps_files.
  - intros base ext h m r w'. apply ctor2_keeps_files.
  - intros msg r s' w' Hrun. apply sink_it_cases in Hrun. cbv zeta in Hrun.
    destruct Hrun as [(Hlt & -> & Hcase) | [(Hdue & (c & Hf & ->) & -> & Htr & Hfiles)
                                          | (Hdue & Hf & -> & -> & Htr & Hfiles)]].
    + destruct Hcase as [(-> & Htr & Hfiles) | ((e & ->) & Htr & Hfiles)].
      * eexists. split; [exact Htr|]. split; [repeat constructor|].
        split; [rewrite Hfiles; apply preserved_write|].
        split; [lia|]. intros _ _. split; reflexivity.
      * eexists. split; [exact Htr|]. split; [repeat constructor|].
        split; [rewrite Hfiles; apply preserved_refl|].
        split; [lia|]. intros _ [=].
    + eexists. split; [exact Htr|]. split.
      { repeat (apply Forall_app; split); try apply close_events_no_unlink;
          repeat constructor. }
      split; [rewrite Hfiles; apply preserved_refl|].
      split; [intros _ [=] | intros _ [=]].
    + eexists. split; [exact Htr|]. split.
      { repeat (apply Forall_app; split); try apply close_events_no_unlink;
          repeat constructor. }
      split; [rewrite Hfiles; apply preserved_write|].
      split; [|lia]. intros _ _. cbv zeta. split; [reflexivity|]. split; [reflexivity|].
      exact Hfiles.
  - intros r s' w'. unfold _flush, fh, zoom, FileHelper.flush. cbn.
    rewrite daily_set_file_helper_id. intros [= <- <- <-]. repeat split.
Qed.

Lemma C9_daily_sink_witness :
  clock noon_world_constructed (ticks noon_world_constructed) >= _rotation_tp noon_sink
  ∧ ∃ s' w',
      @_sink_it dateonly_daily_file_name_calculator short_msg
        (noon_sink, noon_world_constructed) = (Returned tt, (s', w'))
      ∧ files w' = <["log_2024-01-01.txt" := "ab"]> ∅
      ∧ ∃ evs, trace w' = trace noon_world_constructed ++ evs
             ∧ Forall (λ ev, is_unlink ev = false) evs.
Proof.
  assert (clock noon_world_constructed (ticks noon_world_constructed)
          >= _rotation_tp noon_sink) as Hdue by (vm_compute; discriminate).
  split; [exact Hdue|].
  destruct (@_sink_it dateonly_daily_file_name_calculator short_msg
              (noon_sink, noon_world_constructed)) as [r [s' w']] eqn:Hrun.
  assert (r = Returned tt) as -> by (revert Hrun; vm_compute; congruence).
  exists s', w'. split; [reflexivity|].
  destruct (@C9_daily_sink_never_unlinks dateonly_daily_file_name_calculator
              noon_sink noon_world_constructed) as (_ & _ & Hwrite & _).
  destruct (Hwrite _ _ _ _ Hrun) as (evs & Htr & Hno & _ & Hrot & _).
  split.
  - destruct (Hrot Hdue eq_refl) as (_ & _ & ->). vm_compute. reflexivity.
  - exists evs. split; [exact Htr | exact Hno].
Defined.
End DailyClaims.

(** * Further properties *)

(** ** The simple sink *)

Section SimpleSink.
Import simple_file_sink.

Lemma each_cons {S A} (f : A → M S unit) (a : A) (l : list A) (st : S) :
  each f (a :: l) st
  = match f a st with
    | (Returned _, st') => each f l st'
    | (Thrown e, st') => (Thrown e, st')
    end.
Proof. reflexivity. Qed.

Lemma simple_sink_it_run msg s w :
  FileHelper._fd (_file_helper s) = true →
  _sink_it msg (s, w)
  = (Returned tt,
     (s, let fn := FileHelper._filename (_file_helper s) in
         let w1 := emit (EvWrite fn (formatted msg))
                        (set_files (<[fn := default "" (files w !! fn) +:+ formatted msg]>
                                      (files w)) w) in
         if _force_flush s then emit (EvFlush fn) w1 else w1)).
Proof.
  intros Hfd. destruct s as [[fd fn] force]. cbn in Hfd. subst fd.
  unfold _sink_it, bind, fh, zoom, FileHelper.write, get, when. cbn.
  destruct force; reflexivity.
Qed.

(** The records of a run end up in the file in the order written, after
    what it held, and the calls are the writes, each with its flush when
    flushing is forced. *)
Lemma simple_each_run msgs : ∀ s w c,
  FileHelper._fd (_file_helper s) = true →
  files w !! FileHelper._filename (_file_helper s) = Some c →
  ∃ w', each _sink_it msgs (s, w) = (Returned tt, (s, w'))
      ∧ files w' = <[FileHelper._filename (_file_helper s) := c +:+ bytes_of msgs]> (files w)
      ∧ trace w' = trace w ++ simple_events (FileHelper._filename (_file_helper s))
                                (_force_flush s) msgs
      ∧ fault w' = fault w.
Proof.
  induction msgs as [|m msgs IH]; intros s w c Hfd Hc.
  - exists w. cbn. rewrite string_app_nil_r, app_nil_r, insert_id by exact Hc.
    repeat split; reflexivity.
  - rewrite each_cons, simple_sink_it_run by exact Hfd. cbv zeta.
    set (fn := FileHelper._filename (_file_helper s)) in *.
    set (w1 := emit (EvWrite fn (formatted m))
                 (set_files (<[fn := default "" (files w !! fn) +:+ formatted m]> (files w)) w)).
    assert (files w1 !! fn = Some (c +:+ formatted m)) as Hc1.
    { unfold w1. cbn. now rewrite lookup_insert_eq, Hc. }
    destruct (_force_flush s) eqn:Hforce.
    + destruct (IH s (emit (EvFlush fn) w1) (c +:+ formatted m) Hfd Hc1)
        as (w' & Hrun & Hfiles & Htr & Hfault).
      exists w'. split; [exact Hrun|]. fold fn in Hfiles, Htr. rewrite Hforce in Htr.
      split; [|split].
      * rewrite Hfiles. cbn. now rewrite insert_insert_eq, daily_facts.string_app_assoc.
      * rewrite Htr. cbn. rewrite <- !app_assoc. reflexivity.
      * rewrite Hfault. reflexivity.
    + destruct (IH s w1 (c +:+ formatted m) Hfd Hc1) as (w' & Hrun & Hfiles & Htr & Hfault).
      exists w'. split; [exact Hrun|]. fold fn in Hfiles, Htr. rewrite Hforce in Htr.
      split; [|split].
      * rewrite Hfiles. cbn. now rewrite insert_insert_eq, daily_facts.string_app_assoc.
      * rewrite Htr. cbn. rewrite <- !app_assoc. reflexivity.
      * rewrite Hfault. reflexivity.
Qed.

Lemma simple_ctor_run filename truncate w :
  fault w (OpOpen filename) = None →
  ctor filename truncate w
  = (Returned (mk (FileHelper.mk true filename) false),
     emit (EvOpen filename truncate None)
          (set_files (<[filename := if truncate then ""
                                    else default "" (files w !! filename)]> (files w)) w)).
Proof.
  intros Hopen. unfold ctor, fh, zoom, FileHelper.open, bind, FileHelper.close. cbn.
  rewrite Hopen. reflexivity.
Qed.

(** X1. A simple sink constructed on [filename] and given the records
    [msgs] leaves in that file what it held before (nothing, when
    [truncate] is set) followed by the records in the order written, and
    changes no other file. *)
Theorem X1_simple_sink_appends_in_order (filename : filename_t) (truncate : bool)
    (msgs : list log_msg) (w : world) :
  fault w (OpOpen filename) = None →
  ∃ s w1 w',
    ctor filename truncate w = (Returned s, w1)
    ∧ each _sink_it msgs (s, w1) = (Returned tt, (s, w'))
    ∧ files w'
      = <[filename := (if truncate then "" else default "" (files w !! filename))
                        +:+ bytes_of msgs]> (files w).
Proof.
  intros Hopen. rewrite (simple_ctor_run _ _ _ Hopen).
  set (c := if truncate then "" else default "" (files w !! filename)).
  set (w1 := emit (EvOpen filename truncate None)
               (set_files (<[filename := c]> (files w)) w)).
  destruct (simple_each_run msgs (mk (FileHelper.mk true filename) false) w1 c)
    as (w' & Hrun & Hfiles & _); [reflexivity | apply lookup_insert_eq |].
  exists (mk (FileHelper.mk true filename) false), w1, w'.
  split; [reflexivity|]. split; [exact Hrun|].
  rewrite Hfiles. cbn. now rewrite insert_insert_eq.
Qed.

Lemma X1_simple_sink_witness :
  fault (quiet_world 0) (OpOpen "app.log") = None
  ∧ ∃ s w1 w',
      ctor "app.log" false (quiet_world 0) = (Returned s, w1)
      ∧ each _sink_it [fixtures.short_msg; fixtures.long_msg] (s, w1) = (Returned tt, (s, w'))
      ∧ files w' = <["app.log" := "ababcdef"]> ∅.
Proof.
  split; [reflexivity|].
  destruct (X1_simple_sink_appends_in_order "app.log" false
              [fixtures.short_msg; fixtures.long_msg] (quiet_world 0) eq_refl)
    as (s & w1 & w' & Hctor & Hrun & Hfiles).
  exists s, w1, w'. split; [exact Hctor|]. split; [exact Hrun|]. exact Hfiles.
Defined.

(** X2. After [set_force_flush(b)], a run of writes makes, for every
    record, the write followed at once by one flush when [b] is set, and
    the write alone otherwise: with forced flushing no record is left
    unflushed, and without it a write never flushes. A newly constructed
    sink does not force. *)
Theorem X2_simple_sink_flush_policy (b : bool) (msgs : list log_msg) (s : t) (w : world) :
  FileHelper._fd (_file_helper s) = true →
  ∃ w',
    (set_force_flush b ;;; each _sink_it msgs) (s, w)
    = (Returned tt, (mk (_file_helper s) b, w'))
    ∧ trace w' = trace w ++ simple_events (FileHelper._filename (_file_helper s)) b msgs
    ∧ ∀ filename truncate w0 s0 w1,
        ctor filename truncate w0 = (Returned s0, w1) → _force_flush s0 = false.
Proof.
  intros Hfd. unfold bind, set_force_flush, modify. cbn [fst snd].
  destruct msgs as [|m msgs].
  - exists w. cbn. rewrite app_nil_r. split; [reflexivity|]. split; [reflexivity|].
    intros filename truncate w0 s0 w1. unfold ctor, fh, zoom, FileHelper.open, bind,
      FileHelper.close. cbn. destruct (fault w0 (OpOpen filename)); [discriminate|].
    now intros [= <- <-].
  - rewrite each_cons, simple_sink_it_run by exact Hfd. cbv zeta.
    cbn [_file_helper _force_flush].
    set (fn := FileHelper._filename (_file_helper s)).
    set (w1 := emit (EvWrite fn (formatted m))
                 (set_files (<[fn := default "" (files w !! fn) +:+ formatted m]> (files w)) w)).
    edestruct (simple_each_run msgs (mk (_file_helper s) b)
                 (if b then emit (EvFlush fn) w1 else w1))
      as (w' & Hrun & _ & Htr & _); [exact Hfd | |].
    { cbn [_file_helper]. fold fn. destruct b; cbn; apply lookup_insert_eq. }
    exists w'. split; [exact Hrun|]. split.
    + rewrite Htr. cbn [_file_helper _force_flush]. fold fn.
      destruct b; cbn; rewrite <- !app_assoc; reflexivity.
    + intros filename truncate w0 s0 w2. unfold ctor, fh, zoom, FileHelper.open, bind,
        FileHelper.close. cbn. destruct (fault w0 (OpOpen filename)); [discriminate|].
      now intros [= <- <-].
Qed.

Lemma X2_simple_sink_flush_witness :
  FileHelper._fd (_file_helper (mk (FileHelper.mk true "app.log") false)) = true
  ∧ ∃ w',
      (set_force_flush true ;;; each _sink_it [fixtures.short_msg; fixtures.long_msg])
        (mk (FileHelper.mk true "app.log") false, quiet_world 0)
      = (Returned tt, (mk (FileHelper.mk true "app.log") true, w'))
      ∧ trace w' = [EvWrite "app.log" "ab"; EvFlush "app.log";
                    EvWrite "app.log" "abcdef"; EvFlush "app.log"].
Proof.
  split; [reflexivity|].
  destruct (X2_simple_sink_flush_policy true [fixtures.short_msg; fixtures.long_msg]
              (mk (FileHelper.mk true "app.log") false) (quiet_world 0) eq_refl)
    as (w' & Hrun & Htr & _).
  exists w'. split; [exact Hrun | exact Htr].
Defined.
End SimpleSink.

(** ** File names of the size-triggered sink *)

Section RotatingNames.
Import rotating_file_sink.

(** X3. [calc_filename] never gives two indices the same name: the active
    file and the backups of a sink are pairwise distinct paths, whatever the
    base name and the extension are. *)
Theorem X3_calc_filename_injective (filename extension : filename_t) (i j : Z) :
  calc_filename filename i extension = calc_filename filename j extension → i = j.
Proof.
  unfold calc_filename.
  destruct (decide (i = 0)) as [->|Hi], (decide (j = 0)) as [->|Hj]; intros Heq.
  - reflexivity.
  - do 2 apply String.app_inj in Heq.
    apply (f_equal String.length) in Heq. rewrite !string_length_app in Heq.
    simpl in Heq. lia.
  - do 2 apply String.app_inj in Heq.
    apply (f_equal String.length) in Heq. rewrite !string_length_app in Heq.
    simpl in Heq. lia.
  - do 2 apply String.app_inj in Heq.
    change (pretty i +:+ ("." +:+ extension) = pretty j +:+ ("." +:+ extension)) in Heq.
    apply string_app_inj_r in Heq. now apply (inj pretty) in Heq.
Qed.

Lemma X3_calc_filename_witness :
  (calc_filename "log" 3 "txt" = calc_filename "log" 3 "txt" ∧ 3 = 3)
  ∧ calc_filename "log" 1 "txt" ≠ calc_filename "log" 2 "txt".
Proof.
  split.
  - split; [reflexivity|]. apply (X3_calc_filename_injective "log" "txt" 3 3). reflexivity.
  - intros Heq. apply X3_calc_filename_injective in Heq. discriminate Heq.
Defined.

Lemma take_app_length (pre post : string) :
  StdString.take (String.length pre) (pre +:+ post) = pre.
Proof.
  induction pre as [|a pre IH]; [now destruct post|].
  rewrite string_app_cons. cbn. now rewrite IH.
Qed.

Lemma drop_app_length (pre post : string) :
  StdString.drop (String.length pre) (pre +:+ post) = post.
Proof. induction pre as [|a pre IH]; [reflexivity|]. rewrite string_app_cons. exact IH. Qed.

Lemma drop_S_app_length (pre post : string) (c : ascii) :
  StdString.drop (S (String.length pre)) (pre +:+ String c post) = post.
Proof.
  induction pre as [|a pre IH]; [reflexivity|].
  rewrite string_app_cons. cbn [String.length StdString.drop]. exact IH.
Qed.

Lemma take_all (n : nat) (s : string) : (String.length s ≤ n)%nat → StdString.take n s = s.
Proof.
  revert n. induction s as [|a s IH]; intros n Hn; [now destruct n|].
  destruct n as [|n]; cbn in *; [lia|]. rewrite IH by lia. reflexivity.
Qed.

(** What [find_last_of_from] returns: the initial value when [c] does not
    occur, and otherwise the position of an occurrence of [c] after which
    there is none. *)
Lemma find_last_of_from_spec (c : ascii) (s : string) : ∀ i found,
  (contains c s = false ∧ StdString.find_last_of_from s c i found = found)
  ∨ (contains c s = true
     ∧ ∃ pre post, s = pre +:+ String c post ∧ contains c post = false
         ∧ StdString.find_last_of_from s c i found = i + Z.of_nat (String.length pre)).
Proof.
  induction s as [|a s IH]; intros i found; [left; split; reflexivity|].
  cbn [StdString.find_last_of_from contains].
  destruct (IH (i + 1) (if Ascii.eqb a c then i else found))
    as [(Hno & Hr) | (Hyes & pre & post & -> & Hpost & Hr)].
  - rewrite Hr, Hno. destruct (Ascii.eqb a c) eqn:Hac.
    + right. split; [reflexivity|]. apply Ascii.eqb_eq in Hac as ->.
      exists "", s. cbn. repeat split; [exact Hno | lia].
    + left. split; reflexivity.
  - right. rewrite Hyes, orb_true_r. split; [reflexivity|].
    exists (String a pre), post. rewrite string_app_cons, Hr.
    repeat split; [exact Hpost|]. cbn [String.length]. lia.
Qed.

Lemma find_last_of_absent (c : ascii) (s : string) :
  contains c s = false → StdString.find_last_of s c = SizeT.npos.
Proof.
  intros Hno. unfold StdString.find_last_of.
  destruct (find_last_of_from_spec c s 0 SizeT.npos) as [(_ & Hr) | (Hyes & _)];
    [exact Hr | congruence].
Qed.

(** X4. A path that contains a dot is cut by both constructors at its last
    dot, and the two parts join again to the path: the extension holds no
    dot, and the index-0 name the size-triggered sink opens is the path it
    was given. *)
Theorem X4_split_joins_back (filename : filename_t) :
  StdString.size filename < SizeT.npos → contains "." filename = true →
  ∃ base ext,
    split_filename filename = Returned (base, ext)
    ∧ daily_file_sink.split_filename filename = Returned (base, ext)
    ∧ filename = base +:+ "." +:+ ext
    ∧ contains "." ext = false
    ∧ calc_filename base 0 ext = filename.
Proof.
  intros Hsize Hdot.
  destruct (find_last_of_from_spec "." filename 0 SizeT.npos)
    as [(Hno & _) | (_ & pre & post & Hf & Hpost & Hr)]; [congruence|].
  fold (StdString.find_last_of filename ".") in Hr. rewrite Z.add_0_l in Hr.
  assert (StdString.size filename
          = Z.of_nat (String.length pre) + 1 + Z.of_nat (String.length post)) as Hlen.
  { unfold StdString.size. rewrite Hf, string_length_app. cbn [String.length]. lia. }
  unfold SizeT.npos, SizeT.modulus in *.
  exists pre, post.
  assert (StdString.substr filename 0 (StdString.find_last_of filename ".") = Some pre) as Hb.
  { unfold StdString.substr. rewrite (proj2 (Z.ltb_ge _ _)) by (unfold StdString.size; lia).
    cbn [StdString.drop Z.to_nat]. f_equal.
    rewrite Hr, Z.min_l, Nat2Z.id by lia. rewrite Hf. apply take_app_length. }
  assert (StdString.substr filename (SizeT.add (StdString.find_last_of filename ".") 1)
                           SizeT.npos = Some post) as He.
  { unfold SizeT.add, SizeT.wrap, SizeT.npos, SizeT.modulus. rewrite Hr.
    rewrite Z.mod_small by lia. unfold StdString.substr.
    rewrite Hlen. rewrite (proj2 (Z.ltb_ge _ _)) by lia. f_equal.
    replace (Z.to_nat (Z.of_nat (String.length pre) + 1)) with (S (String.length pre)) by lia.
    rewrite Hf, drop_S_app_length. apply take_all. lia. }
  assert (bool_decide (StdString.find_last_of filename "." = SizeT.npos) = false) as Hcond.
  { apply bool_decide_eq_false. unfold SizeT.npos, SizeT.modulus. lia. }
  split; [|split; [|split; [|split]]].
  - unfold split_filename. cbv zeta. rewrite Hcond. cbn [andb]. now rewrite Hb, He.
  - unfold daily_file_sink.split_filename. cbv zeta. rewrite Hcond. cbn [andb].
    now rewrite Hb, He.
  - exact Hf.
  - exact Hpost.
  - unfold calc_filename. destruct (decide (0 = 0)); [|lia]. now rewrite Hf.
Qed.

Lemma X4_split_joins_back_witness :
  (StdString.size "logs/my.app.txt" < SizeT.npos ∧ contains "." "logs/my.app.txt" = true)
  ∧ ∃ base ext,
      split_filename "logs/my.app.txt" = Returned (base, ext)
      ∧ "logs/my.app.txt" = base +:+ "." +:+ ext
      ∧ calc_filename base 0 ext = "logs/my.app.txt".
Proof.
  assert (StdString.size "logs/my.app.txt" < SizeT.npos) as Hsize by (vm_compute; reflexivity).
  split; [split; [exact Hsize | reflexivity]|].
  destruct (X4_split_joins_back "logs/my.app.txt" Hsize eq_refl)
    as (base & ext & Hsplit & _ & Hjoin & _ & Hname).
  exists base, ext. split; [exact Hsplit|]. split; [exact Hjoin | exact Hname].
Defined.
End RotatingNames.

(** ** The byte count and the size limit *)

Section RotatingAccounting.
Import rotating_file_sink chain chain_facts rotate_facts accounting.

Lemma size_app (a b : string) : StdString.size (a +:+ b) = StdString.size a + StdString.size b.
Proof. unfold StdString.size. rewrite string_length_app. lia. Qed.

Lemma size_nonneg (a : string) : 0 <= StdString.size a.
Proof. unfold StdString.size. lia. Qed.

(** What a write that returns has done to the sink and to the files. *)
Lemma rotating_sink_it_returns msg s w s' w' :
  wf s → _sink_it msg (s, w) = (Returned tt, (s', w')) →
  let total := SizeT.add (_current_size s) (StdString.size (formatted msg)) in
  (total > _max_size s
   ∧ s' = set_current_size (StdString.size (formatted msg)) s
   ∧ files w' !! name s 0 = Some (formatted msg))
  ∨ (total <= _max_size s
     ∧ s' = set_current_size total s
     ∧ files w' = <[name s 0 := default "" (files w !! name s 0) +:+ formatted msg]>
                    (files w)).
Proof.
  intros Hwf. rewrite sink_it_eq. cbv zeta.
  set (total := SizeT.add (_current_size s) (StdString.size (formatted msg))).
  set (s1 := set_current_size total s).
  assert (wf s1) as Hwf1 by (now destruct s).
  destruct (bool_decide (total > _max_size s)) eqn:Hgt.
  - apply bool_decide_eq_true in Hgt.
    destruct (_rotate (s1, w)) as [[[]|e] [s2 w2]] eqn:Hrot; [|discriminate].
    apply rotate_returns in Hrot as (-> & _ & _ & _ & F1 & _ & Hfiles);
      [|now apply wf_named].
    rewrite (reopened_wf s1 Hwf1), write_eq.
    destruct Hwf1 as [Hfd Hfn]. cbn [_file_helper set_current_size] in *.
    rewrite Hfd, Hfn. intros [= <- <-]. left. split; [exact Hgt|].
    split; [now destruct s|]. cbn.
    change (name s1 0) with (name s 0) in *. rewrite Hfiles, !lookup_insert_eq. reflexivity.
  - apply bool_decide_eq_false in Hgt. rewrite write_eq.
    destruct Hwf1 as [Hfd Hfn]. cbn [_file_helper set_current_size] in *.
    rewrite Hfd, Hfn. intros [= <- <-]. right. split; [lia|]. split; reflexivity.
Qed.

Lemma rotating_ctor2_run base ext max_size max_files w :
  fault w (OpOpen (calc_filename base 0 ext)) = None →
  ctor2 base ext max_size max_files w
  = (Returned (mk ext base max_size max_files
                  (SizeT.wrap (StdString.size
                                 (default "" (files w !! calc_filename base 0 ext))))
                  (FileHelper.mk true (calc_filename base 0 ext))),
     emit (EvOpen (calc_filename base 0 ext) false None)
          (set_files (<[calc_filename base 0 ext :=
                          default "" (files w !! calc_filename base 0 ext)]> (files w)) w)).
Proof.
  intros Hopen.
  unfold ctor2, bind, fh, zoom, FileHelper.open, FileHelper.close, FileHelper.size,
    bind, modify. cbn. rewrite Hopen. cbn. rewrite lookup_insert_eq. reflexivity.
Qed.

(** X5. A constructor whose open is not refused opens the index-0 file
    without truncating it: what the file held stays, a missing file is
    created empty, no other file changes, and [_current_size] starts at the
    length of that content, so that a file left by an earlier run counts
    towards the limit. The single-path constructor does the same on the
    two parts of its path. *)
Theorem X5_rotating_ctor_probes_size (base ext : filename_t) (max_size max_files : Z)
    (w : world) :
  fault w (OpOpen (calc_filename base 0 ext)) = None →
  ∃ s w',
    ctor2 base ext max_size max_files w = (Returned s, w')
    ∧ wf s ∧ tracks s w'
    ∧ _max_size s = max_size ∧ _max_files s = max_files
    ∧ _current_size s
      = SizeT.wrap (StdString.size (default "" (files w !! calc_filename base 0 ext)))
    ∧ files w' = <[calc_filename base 0 ext :=
                     default "" (files w !! calc_filename base 0 ext)]> (files w)
    ∧ ∀ filename, split_filename filename = Returned (base, ext) →
        ctor filename max_size max_files w = (Returned s, w').
Proof.
  intros Hopen. pose proof (rotating_ctor2_run base ext max_size max_files w Hopen) as Hrun.
  eexists _, _. split; [exact Hrun|]. split; [split; reflexivity|].
  split.
  { eexists. split; [apply lookup_insert_eq | reflexivity]. }
  do 4 (split; [reflexivity|]).
  intros filename Hsplit. unfold ctor. rewrite Hsplit. exact Hrun.
Qed.

Lemma X5_rotating_ctor_witness :
  fault fixtures.calm (OpOpen (calc_filename "log" 0 "txt")) = None
  ∧ ∃ s w',
      ctor "log.txt" 10 2 fixtures.calm = (Returned s, w')
      ∧ _current_size s = 8
      ∧ files w' !! "log.txt" = Some "12345678".
Proof.
  split; [reflexivity|].
  destruct (X5_rotating_ctor_probes_size "log" "txt" 10 2 fixtures.calm eq_refl)
    as (s & w' & _ & _ & _ & _ & _ & Hcur & Hfiles & Hctor).
  exists s, w'. split; [apply Hctor; reflexivity|].
  split; [rewrite Hcur; reflexivity | rewrite Hfiles; reflexivity].
Defined.

Lemma sink_it_keeps_accounting msg s w s' w' :
  wf s → tracks s w → fits msg →
  _sink_it msg (s, w) = (Returned tt, (s', w')) →
  wf s' ∧ tracks s' w'.
Proof.
  intros Hwf (c & Hc & Hcur) Hfits Hrun.
  apply rotating_sink_it_returns in Hrun; [|exact Hwf]. cbv zeta in Hrun.
  destruct Hrun as [(_ & -> & Hfiles) | (_ & -> & Hfiles)].
  - split; [now apply wf_set_current_size|].
    exists (formatted msg). split; [exact Hfiles|]. cbn.
    unfold SizeT.wrap. symmetry. apply Z.mod_small.
    split; [apply size_nonneg | exact Hfits].
  - split; [now apply wf_set_current_size|].
    exists (c +:+ formatted msg). split.
    + change (name (set_current_size _ s) 0) with (name s 0).
      now rewrite Hfiles, lookup_insert_eq, Hc.
    + cbn. rewrite Hcur, size_app. unfold SizeT.add, SizeT.wrap.
      apply Zplus_mod_idemp_l.
Qed.

(** X6. The byte count follows the file: if [_current_size] is the length
    of the active file (as a [size_t]) before a run of writes, it is so
    after the run as well, across every rotation, and the sink still writes
    to its open index-0 file. *)
Theorem X6_current_size_tracks_active_file (msgs : list log_msg) :
  ∀ (s : t) (w : world) (s' : t) (w' : world),
    wf s → tracks s w → Forall fits msgs →
    each _sink_it msgs (s, w) = (Returned tt, (s', w')) →
    wf s' ∧ tracks s' w'.
Proof.
  induction msgs as [|m msgs IH]; intros s w s' w' Hwf Htracks Hfits Hrun.
  - cbn in Hrun. unfold ret in Hrun. injection Hrun as <- <-. now split.
  - rewrite each_cons in Hrun.
    destruct (_sink_it m (s, w)) as [[[]|e] [s1 w1]] eqn:Hstep; [|discriminate].
    apply Forall_cons in Hfits as [Hm Hfits].
    destruct (sink_it_keeps_accounting _ _ _ _ _ Hwf Htracks Hm Hstep) as [Hwf1 Htracks1].
    exact (IH _ _ _ _ Hwf1 Htracks1 Hfits Hrun).
Qed.

Lemma X6_current_size_tracks_witness :
  (wf fixtures.sink ∧ tracks fixtures.sink fixtures.calm
   ∧ Forall fits [fixtures.short_msg; fixtures.long_msg; fixtures.short_msg])
  ∧ let st := snd (each _sink_it [fixtures.short_msg; fixtures.long_msg; fixtures.short_msg]
                        (fixtures.sink, fixtures.calm)) in
    tracks (fst st) (snd st) ∧ _current_size (fst st) = 8
    ∧ files (snd st) !! "log.txt" = Some "abcdefab".
Proof.
  assert (wf fixtures.sink) as Hwf by (split; reflexivity).
  assert (tracks fixtures.sink fixtures.calm) as Htr
    by (exists "12345678"; split; reflexivity).
  assert (Forall fits [fixtures.short_msg; fixtures.long_msg; fixtures.short_msg]) as Hfits
    by (repeat constructor).
  split; [auto|]. cbv zeta.
  assert (each _sink_it [fixtures.short_msg; fixtures.long_msg; fixtures.short_msg]
            (fixtures.sink, fixtures.calm)
          = (Returned tt,
             (fst (snd (each _sink_it [fixtures.short_msg; fixtures.long_msg;
                                       fixtures.short_msg] (fixtures.sink, fixtures.calm))),
              snd (snd (each _sink_it [fixtures.short_msg; fixtures.long_msg;
                                       fixtures.short_msg] (fixtures.sink, fixtures.calm))))))
    as Hrun by (vm_compute; reflexivity).
  split; [exact (proj2 (X6_current_size_tracks_active_file _ _ _ _ _ Hwf Htr Hfits Hrun))|].
  split; vm_compute; reflexivity.
Defined.

(** X7. The limit holds for every file with more than one record: after a
    write that returns, the active file is either no longer than
    [_max_size] or consists of exactly the record just written, and
    [_current_size] is its length. The lengths involved fit a [size_t]. *)
Theorem X7_active_file_within_limit (msg : log_msg) (s : t) (w : world) (c : string)
    (s' : t) (w' : world) :
  wf s → files w !! name s 0 = Some c → _current_size s = StdString.size c →
  StdString.size c + StdString.size (formatted msg) < SizeT.modulus →
  _sink_it msg (s, w) = (Returned tt, (s', w')) →
  ∃ c', files w' !! name s 0 = Some c'
      ∧ _current_size s' = StdString.size c'
      ∧ (c' = formatted msg ∨ (c' = c +:+ formatted msg ∧ StdString.size c' <= _max_size s)).
Proof.
  intros Hwf Hc Hcur Hsmall Hrun.
  apply rotating_sink_it_returns in Hrun; [|exact Hwf]. cbv zeta in Hrun.
  pose proof (size_nonneg c). pose proof (size_nonneg (formatted msg)).
  rewrite Hcur, SizeT_add_small in Hrun by lia.
  destruct Hrun as [(_ & -> & Hfiles) | (Hle & -> & Hfiles)].
  - exists (formatted msg). split; [exact Hfiles|]. split; [reflexivity | now left].
  - exists (c +:+ formatted msg). rewrite Hfiles, lookup_insert_eq, Hc. cbn.
    rewrite size_app. split; [reflexivity|]. split; [reflexivity|]. right. split; [reflexivity | lia].
Qed.

Lemma X7_active_file_within_limit_witness :
  (wf fixtures.sink ∧ files fixtures.calm !! name fixtures.sink 0 = Some "12345678"
   ∧ _current_size fixtures.sink = StdString.size "12345678"
   ∧ StdString.size "12345678" + StdString.size (formatted fixtures.short_msg)
     < SizeT.modulus)
  ∧ ∃ c', files (snd (snd (_sink_it fixtures.short_msg (fixtures.sink, fixtures.calm))))
            !! name fixtures.sink 0 = Some c'
        ∧ (c' = "ab" ∨ (c' = "12345678ab" ∧ StdString.size c' <= 10)).
Proof.
  assert (wf fixtures.sink) as Hwf by (split; reflexivity).
  assert (StdString.size "12345678" + StdString.size (formatted fixtures.short_msg)
          < SizeT.modulus) as Hsmall by (vm_compute; reflexivity).
  split; [repeat split; try reflexivity; exact Hsmall|].
  assert (_sink_it fixtures.short_msg (fixtures.sink, fixtures.calm)
          = (Returned tt,
             (fst (snd (_sink_it fixtures.short_msg (fixtures.sink, fixtures.calm))),
              snd (snd (_sink_it fixtures.short_msg (fixtures.sink, fixtures.calm))))))
    as Hrun by (vm_compute; reflexivity).
  destruct (X7_active_file_within_limit fixtures.short_msg fixtures.sink fixtures.calm
              "12345678" _ _ Hwf eq_refl eq_refl Hsmall Hrun) as (c' & Hc' & _ & Hcase).
  exists c'. split; [exact Hc' | exact Hcase].
Defined.

Lemma times_S {S} (n : nat) (m : M S unit) (st : S) :
  times (Datatypes.S n) m st
  = match m st with
    | (Returned _, st') => times n m st'
    | (Thrown e, st') => (Thrown e, st')
    end.
Proof. reflexivity. Qed.

(** X8. The backup chain is a queue of depth [_max_files]: after [k]
    rotations in a row of a sink whose calls are not refused, index [i]
    holds what index [i - k] held when [k <= i] and an empty file
    otherwise, for every index up to [_max_files], and paths outside the
    chain are as they were. In particular nothing of a content survives
    more than [_max_files] rotations. *)
Theorem X8_rotations_shift_like_a_queue (k : nat) :
  ∀ (s : t) (w : world),
    wf s → unrefused w →
    ∃ w', times k _rotate (s, w) = (Returned tt, (s, w'))
        ∧ (∀ i, (i ≤ backups s)%nat →
                files w' !! name s i
                = if (i <? k)%nat then Some "" else files w !! name s (i - k))
        ∧ (∀ p, (∀ i, (i ≤ backups s)%nat → p ≠ name s i) → files w' !! p = files w !! p).
Proof.
  induction k as [|k IH]; intros s w Hwf Hok.
  - exists w. split; [reflexivity|]. split; [|reflexivity].
    intros i _. cbn. do 2 f_equal. lia.
  - rewrite times_S.
    destruct (rotate_total s w (wf_named _ Hwf) Hok) as (w1 & Hrot).
    rewrite (reopened_wf s Hwf) in Hrot. rewrite Hrot.
    apply rotate_returns in Hrot as (_ & Ho & _ & _ & F1 & (Hup & _ & Hout) & Hfiles);
      [|now apply wf_named].
    destruct (IH s w1 Hwf (unrefused_same_oracle _ _ Ho Hok)) as (w' & Hrun & Hin & Hrest).
    exists w'. split; [exact Hrun|]. split.
    + intros i Hi. rewrite (Hin i Hi), Hfiles.
      destruct (i <? k)%nat eqn:Hik.
      * apply Nat.ltb_lt in Hik. rewrite (proj2 (Nat.ltb_lt i (S k))) by lia. reflexivity.
      * apply Nat.ltb_ge in Hik. destruct (decide (i = k)) as [->|Hne].
        -- rewrite Nat.sub_diag, lookup_insert_eq.
           rewrite (proj2 (Nat.ltb_lt k (S k))) by lia. reflexivity.
        -- rewrite (proj2 (Nat.ltb_ge i (S k))) by lia.
           rewrite lookup_insert_ne by (apply name_ne; lia).
           replace (i - k)%nat with (S (i - S k)) by lia. apply Hup. lia.
    + intros p Hp. rewrite (Hrest p Hp), Hfiles.
      rewrite lookup_insert_ne by (apply not_eq_sym, Hp; lia). now apply Hout.
Qed.

Lemma X8_rotations_witness :
  (wf fixtures.sink ∧ unrefused fixtures.calm)
  ∧ ∃ w', times 2 _rotate (fixtures.sink, fixtures.calm) = (Returned tt, (fixtures.sink, w'))
        ∧ files w' !! "log.2.txt" = Some "12345678"
        ∧ files w' !! "log.1.txt" = Some ""
        ∧ files w' !! "log.txt" = Some "".
Proof.
  assert (wf fixtures.sink) as Hwf by (split; reflexivity).
  assert (unrefused fixtures.calm) as Hok by (intros op; reflexivity).
  split; [auto|].
  destruct (X8_rotations_shift_like_a_queue 2 fixtures.sink fixtures.calm Hwf Hok)
    as (w' & Hrun & Hin & _).
  exists w'. split; [exact Hrun|].
  split; [exact (Hin 2%nat ltac:(vm_compute; lia))|].
  split; [exact (Hin 1%nat ltac:(vm_compute; lia)) | exact (Hin 0%nat ltac:(vm_compute; lia))].
Defined.

Lemma removed_app l1 l2 : removed (l1 ++ l2) = removed l1 ++ removed l2.
Proof.
  induction l1 as [|ev l1 IH]; [reflexivity|].
  destruct ev; cbn; rewrite ?IH; reflexivity.
Qed.

(** The removals of one iteration, whatever its outcome. *)
Lemma rotate_step_removed s w j r s' w' :
  _rotate_step j (s, w) = (r, (s', w')) →
  ∃ evs, trace w' = trace w ++ evs
       ∧ (removed evs = []
          ∨ (removed evs = [name s (S j)] ∧ is_Some (files w !! name s (S j)))).
Proof.
  name_step s j name_ne set_file_helper_id.
  repeat mcase set_file_helper_id; cbn; intros ?; simplify_eq; cbn;
    rewrite <- ?app_assoc; (eexists; split; [reflexivity|]); cbn; eauto.
Qed.

Lemma rotate_loop_removed i : ∀ s w r s' w',
  _rotate_loop i (s, w) = (r, (s', w')) →
  ∃ evs, trace w' = trace w ++ evs
       ∧ (removed evs = []
          ∨ (removed evs = [name s i] ∧ is_Some (files w !! name s i))).
Proof.
  induction i as [|j IH]; intros s w r s' w' Hrun.
  - cbn in Hrun. unfold ret in Hrun. injection Hrun as <- <- <-.
    exists []. rewrite app_nil_r. split; [reflexivity | now left].
  - rewrite rotate_loop_S in Hrun.
    destruct (_rotate_step j (s, w)) as [[[]|e] [s1 w1]] eqn:Hstep.
    + pose proof Hstep as Hstep'.
      apply rotate_step_removed in Hstep' as (evs1 & Htr1 & Hrem1).
      apply rotate_step_returns in Hstep as (-> & _ & _ & Hfiles).
      apply IH in Hrun as (evs2 & Htr2 & Hrem2).
      exists (evs1 ++ evs2). split; [rewrite Htr2, Htr1, app_assoc; reflexivity|].
      rewrite removed_app.
      destruct Hrem2 as [-> | (_ & Hsome)].
      * rewrite app_nil_r. exact Hrem1.
      * rewrite Hfiles, moved_src in Hsome. now destruct Hsome.
    + injection Hrun as <- <- <-. now apply rotate_step_removed in Hstep.
Qed.

(** X9. A rotation removes at most one file, and only the oldest backup:
    whatever the outcome of [_rotate], the removals among its calls are
    none, or the single removal of the file at index [_max_files], which
    then existed. Every other backup is only ever renamed. *)
Theorem X9_rotation_removes_only_oldest (s : t) (w : world) (r : outcome unit)
    (s' : t) (w' : world) :
  named s → _rotate (s, w) = (r, (s', w')) →
  ∃ evs, trace w' = trace w ++ evs
       ∧ (removed evs = []
          ∨ (removed evs = [name s (backups s)]
             ∧ is_Some (files w !! name s (backups s)))).
Proof.
  intros Hnamed. rewrite rotate_eq.
  destruct (after_close_spec s w)
    as (s0 & w0 & -> & Hfd & Hfn & Hname & _ & _ & _ & Hf0 & _ & Htr0).
  destruct (_rotate_loop (backups s) (s0, w0)) as [[[]|e] [s1 w1]] eqn:Hloop.
  - pose proof Hloop as Hloop'.
    apply rotate_loop_removed in Hloop' as (evs & Htr & Hrem).
    apply rotate_loop_returns in Hloop as (-> & _ & _ & _).
    assert (named s0) as Hnamed0 by (unfold named in *; rewrite Hfn, Hname; exact Hnamed).
    rewrite (reopen_eq _ _ Hfd Hnamed0).
    rewrite Hname, Hf0 in Hrem.
    destruct (fault w1 (OpOpen (name s0 0))) as [c|]; intros [= <- <- <-]; cbn;
      rewrite Htr, Htr0, <- !app_assoc;
      (eexists; split; [reflexivity|]);
      rewrite !removed_app; cbn; rewrite app_nil_r;
      (replace (removed (close_events s)) with (@nil filename_t)
         by (unfold close_events; now destruct (FileHelper._fd (_file_helper s))));
      exact Hrem.
  - intros [= <- <- <-].
    apply rotate_loop_removed in Hloop as (evs & Htr & Hrem).
    rewrite Hname, Hf0 in Hrem.
    exists (close_events s ++ evs). split; [rewrite Htr, Htr0, <- app_assoc; reflexivity|].
    rewrite removed_app.
    replace (removed (close_events s)) with (@nil filename_t)
      by (unfold close_events; now destruct (FileHelper._fd (_file_helper s))).
    exact Hrem.
Qed.

Lemma X9_rotation_removes_witness :
  named fixtures.sink
  ∧ ∃ evs, trace (snd (snd (_rotate (fixtures.sink, fixtures.calm))))
           = trace fixtures.calm ++ evs
         ∧ removed evs = ["log.2.txt"].
Proof.
  assert (named fixtures.sink) as Hnamed by reflexivity.
  split; [exact Hnamed|].
  assert (_rotate (fixtures.sink, fixtures.calm)
          = (fst (_rotate (fixtures.sink, fixtures.calm)),
             (fst (snd (_rotate (fixtures.sink, fixtures.calm))),
              snd (snd (_rotate (fixtures.sink, fixtures.calm))))))
    as Hrun by (vm_compute; reflexivity).
  destruct (X9_rotation_removes_only_oldest _ _ _ _ _ Hnamed Hrun) as (evs & Htr & Hrem).
  exists evs. split; [exact Htr|].
  assert (removed (trace (snd (snd (_rotate (fixtures.sink, fixtures.calm)))))
          = ["log.2.txt"]) as Hall by (vm_compute; reflexivity).
  rewrite Htr in Hall. exact Hall.
Defined.
End RotatingAccounting.

(** ** The rotation schedule *)

Section DailySchedule.
Import daily_file_sink daily calendar_facts daily_facts.

Lemma day_start_next off t : day_start off (t + 86400) = day_start off t + 86400.
Proof.
  unfold day_start. replace (t + 86400 + off) with (t + off + 1 * 86400) by lia.
  rewrite Z.div_add by lia. lia.
Qed.

(** X10. Local time being at the fixed offset [gmtoff w] from UTC and the
    clock reading between the epoch and 48 hours before the end of the
    64-bit nanosecond count, the instant [_next_rotation_tp] returns is at
    the configured time of day, [_rotation_h]:[_rotation_m]:00 local time,
    and lies after the clock reading it was computed from and at most 24
    hours after it. *)
Theorem X10_next_rotation_within_a_day (s : t) (w : world) :
  valid_time s → 0 <= clock w (ticks w) <= chrono.max_rep - chrono.hours 48 →
  ∃ tp,
    _next_rotation_tp (s, w)
    = (Returned tp, (s, emit (EvNow (clock w (ticks w))) (tick w)))
    ∧ clock w (ticks w) < tp <= clock w (ticks w) + chrono.hours 24
    ∧ tm_hour (Calendar.localtime (gmtoff w) (chrono.to_time_t tp)) = _rotation_h s
    ∧ tm_min (Calendar.localtime (gmtoff w) (chrono.to_time_t tp)) = _rotation_m s
    ∧ tm_sec (Calendar.localtime (gmtoff w) (chrono.to_time_t tp)) = 0.
Proof.
  intros Hvalid [Hnow Hmax]. rewrite next_rotation_tp_run.
  rewrite computed_tp_exact; [|exact Hvalid|].
  2:{ unfold safe_reading, chrono.min_rep, chrono.max_rep, chrono.hours,
        chrono.ticks_per_second in *. lia. }
  eexists. split; [reflexivity|].
  pose proof (next_tp_future s (gmtoff w) (clock w (ticks w)) Hvalid) as Hfuture.
  destruct Hvalid as [Hh Hm].
  set (now := clock w (ticks w)) in *. set (off := gmtoff w) in *.
  pose proof (day_start_bounds off (chrono.to_time_t now)) as Hday.
  pose proof (to_time_t_lower now Hnow) as Hlow.
  unfold next_tp in *.
  destruct (bool_decide (candidate s off now > now)) eqn:Hc.
  - apply bool_decide_eq_true in Hc. split.
    + unfold candidate, chrono.hours, chrono.ticks_per_second in *. lia.
    + unfold candidate. rewrite to_time_t_seconds, localtime_in_day by assumption.
      repeat split.
  - apply bool_decide_eq_false in Hc. split.
    + unfold chrono.hours, chrono.ticks_per_second. lia.
    + replace (candidate s off now + 24 * 3600 * 1000000000)
        with ((day_start off (chrono.to_time_t now + 86400)
               + _rotation_h s * 3600 + _rotation_m s * 60) * chrono.ticks_per_second).
      * rewrite to_time_t_seconds, localtime_in_day by assumption. repeat split.
      * rewrite day_start_next.
        unfold candidate, chrono.ticks_per_second. lia.
Qed.

Lemma X10_next_rotation_witness :
  (valid_time fixtures.noon_sink
   ∧ 0 <= fixtures.at_2024_01_01_13h <= chrono.max_rep - chrono.hours 48)
  ∧ ∃ tp,
      fst (_next_rotation_tp (fixtures.noon_sink, quiet_world fixtures.at_2024_01_01_13h))
      = Returned tp
      ∧ fixtures.at_2024_01_01_13h < tp <= fixtures.at_2024_01_01_13h + chrono.hours 24
      ∧ tm_hour (Calendar.localtime 0 (chrono.to_time_t tp)) = 12.
Proof.
  assert (valid_time fixtures.noon_sink) as Hvalid by (unfold valid_time; cbn; lia).
  assert (0 <= fixtures.at_2024_01_01_13h <= chrono.max_rep - chrono.hours 48) as Hnow
    by (vm_compute; split; discriminate).
  split; [auto|].
  destruct (X10_next_rotation_within_a_day fixtures.noon_sink
              (quiet_world fixtures.at_2024_01_01_13h) Hvalid Hnow)
    as (tp & Hrun & Hin & Hh & _).
  exists tp. split; [now rewrite Hrun|]. split; [exact Hin | exact Hh].
Defined.
End DailySchedule.

(** ** Dated file names *)

Section DatedNames.
Import daily_file_sink daily calendar_facts daily_facts.

Lemma pretty_N_char_digit (x : N) : is_digit (pretty_N_char x) = true.
Proof. unfold pretty_N_char. repeat case_match; reflexivity. Qed.

Lemma pretty_N_go_digits (x : N) : ∀ s,
  digits_only s = true → digits_only (pretty_N_go x s) = true.
Proof.
  induction (N.lt_wf_0 x) as [x _ IH]; intros s Hs.
  destruct (N.eq_dec x 0%N) as [->|Hx]; [now rewrite pretty_N_go_0|].
  rewrite pretty_N_go_step by lia. apply IH.
  - apply N.div_lt; lia.
  - cbn. now rewrite pretty_N_char_digit, Hs.
Qed.

(** The decimal form of a positive number starts with a digit other than
    zero. *)
Lemma pretty_N_go_head (x : N) : ∀ s,
  (0 < x)%N → ∃ c rest, pretty_N_go x s = String c rest ∧ c ≠ "0"%char.
Proof.
  induction (N.lt_wf_0 x) as [x _ IH]; intros s Hx.
  rewrite pretty_N_go_step by exact Hx.
  destruct (N.eq_dec (x `div` 10)%N 0%N) as [Hsmall|Hbig].
  - rewrite Hsmall, pretty_N_go_0. eexists _, _. split; [reflexivity|].
    apply N.div_small_iff in Hsmall; [|lia].
    rewrite N.mod_small by exact Hsmall.
    assert (x = 1 ∨ x = 2 ∨ x = 3 ∨ x = 4 ∨ x = 5 ∨ x = 6 ∨ x = 7 ∨ x = 8 ∨ x = 9)%N
      as Hcases by lia.
    destruct Hcases as [->|[->|[->|[->|[->|[->|[->|[->| ->]]]]]]]]; discriminate.
  - apply IH; [apply N.div_lt; lia | now apply N.neq_0_lt_0].
Qed.

Lemma pretty_Z_digits (z : Z) : 0 <= z → digits_only (pretty z) = true.
Proof.
  intros Hz. destruct z as [|p|p]; [reflexivity| |lia].
  change (pretty (Z.pos p)) with (pretty_N_go (N.pos p) "").
  now apply pretty_N_go_digits.
Qed.

Lemma pretty_Z_head (z : Z) :
  0 <= z → pretty z = "0" ∧ z = 0
           ∨ ∃ c rest, pretty z = String c rest ∧ c ≠ "0"%char.
Proof.
  intros Hz. destruct z as [|p|p]; [left; split; reflexivity| |lia].
  right. change (pretty (Z.pos p)) with (pretty_N_go (N.pos p) "").
  apply pretty_N_go_head. lia.
Qed.

Lemma zeros_digits (n : nat) : digits_only (fmt.zeros n) = true.
Proof. induction n; [reflexivity|]. cbn. exact IHn. Qed.

Lemma digits_only_app (a b : string) :
  digits_only a = true → digits_only b = true → digits_only (a +:+ b) = true.
Proof.
  intros Ha Hb. induction a as [|c a IH]; [exact Hb|].
  rewrite string_app_cons. cbn in *. apply andb_true_iff in Ha as [-> Ha].
  cbn. now apply IH.
Qed.

Lemma d0_digits (width : nat) (z : Z) : 0 <= z → digits_only (fmt.d0 width z) = true.
Proof.
  intros Hz. unfold fmt.d0. rewrite (proj2 (Z.ltb_ge z 0)) by lia.
  apply digits_only_app; [apply zeros_digits | now apply pretty_Z_digits].
Qed.

(** Zero padding hides nothing: a padded decimal form determines the
    number. *)
Lemma zeros_pretty_inj (k1 : nat) : ∀ (k2 : nat) (z1 z2 : Z),
  0 <= z1 → 0 <= z2 →
  fmt.zeros k1 +:+ pretty z1 = fmt.zeros k2 +:+ pretty z2 → z1 = z2.
Proof.
  assert (∀ k z1 z2, 0 <= z1 → 0 <= z2 →
            pretty z1 = String "0" (fmt.zeros k +:+ pretty z2) → False) as Hshort.
  { intros k z1 z2 Hz1 Hz2 Heq.
    destruct (pretty_Z_head z1 Hz1) as [(H0 & _) | (c & rest & Hc & Hne)].
    - rewrite H0 in Heq. injection Heq as Heq.
      apply (f_equal String.length) in Heq. rewrite string_length_app in Heq.
      destruct (pretty_Z_head z2 Hz2) as [(H2 & _) | (c & rest & H2 & _)];
        rewrite H2 in Heq; cbn in Heq; lia.
    - rewrite Hc in Heq. injection Heq as -> _. now apply Hne. }
  induction k1 as [|k1 IH]; intros [|k2] z1 z2 Hz1 Hz2 Heq;
    cbn [fmt.zeros] in Heq; rewrite ?string_app_cons, ?string_app_nil_l in Heq.
  - now apply (inj pretty) in Heq.
  - exfalso. exact (Hshort k2 z1 z2 Hz1 Hz2 Heq).
  - exfalso. symmetry in Heq. exact (Hshort k1 z2 z1 Hz2 Hz1 Heq).
  - injection Heq as Heq. now apply (IH k2).
Qed.

Lemma d0_inj (width : nat) (z1 z2 : Z) :
  0 <= z1 → 0 <= z2 → fmt.d0 width z1 = fmt.d0 width z2 → z1 = z2.
Proof.
  intros Hz1 Hz2. unfold fmt.d0.
  rewrite (proj2 (Z.ltb_ge z1 0)), (proj2 (Z.ltb_ge z2 0)) by lia.
  now apply zeros_pretty_inj.
Qed.

(** Two digit strings, each followed by the same separator that is not a
    digit, are equal when what they start is. *)
Lemma digits_split (c : ascii) (a1 : string) : ∀ (a2 r1 r2 : string),
  is_digit c = false → digits_only a1 = true → digits_only a2 = true →
  a1 +:+ String c r1 = a2 +:+ String c r2 → a1 = a2 ∧ r1 = r2.
Proof.
  induction a1 as [|x a1 IH]; intros [|y a2] r1 r2 Hc H1 H2 Heq.
  - injection Heq as ->. now split.
  - rewrite string_app_cons, string_app_nil_l in Heq. injection Heq as -> _.
    cbn in H2. rewrite Hc in H2. discriminate.
  - rewrite string_app_cons, string_app_nil_l in Heq. injection Heq as <- _.
    cbn in H1. rewrite Hc in H1. discriminate.
  - rewrite !string_app_cons in Heq. injection Heq as -> Heq.
    cbn in H1, H2. apply andb_true_iff in H1 as [_ H1]. apply andb_true_iff in H2 as [_ H2].
    destruct (IH a2 r1 r2 Hc H1 H2 Heq) as [-> ->]. now split.
Qed.

Lemma d0_field (c : ascii) (width : nat) (z1 z2 : Z) (r1 r2 : string) :
  is_digit c = false → 0 <= z1 → 0 <= z2 →
  fmt.d0 width z1 +:+ String c "" +:+ r1 = fmt.d0 width z2 +:+ String c "" +:+ r2 →
  z1 = z2 ∧ r1 = r2.
Proof.
  intros Hc Hz1 Hz2 Heq.
  rewrite !string_app_cons, !string_app_nil_l in Heq.
  apply digits_split in Heq as [Hd ->]; [|exact Hc|now apply d0_digits..].
  split; [now apply d0_inj in Hd | reflexivity].
Qed.

Lemma default_name_fields (d1 d2 : tm) (basename extension : filename_t) :
  plain_date d1 → plain_date d2 →
  @name_format default_daily_file_name_calculator d1 basename extension
  = @name_format default_daily_file_name_calculator d2 basename extension →
  same_minute d1 d2.
Proof.
  intros (Hy1 & Hm1 & Hd1 & Hh1 & Hi1) (Hy2 & Hm2 & Hd2 & Hh2 & Hi2) Heq.
  cbn [name_format default_daily_file_name_calculator] in Heq.
  do 2 apply String.app_inj in Heq.
  apply d0_field in Heq as [Hy Heq]; [|reflexivity|assumption..].
  apply d0_field in Heq as [Hm Heq]; [|reflexivity|assumption..].
  apply d0_field in Heq as [Hd Heq]; [|reflexivity|assumption..].
  apply d0_field in Heq as [Hh Heq]; [|reflexivity|assumption..].
  apply d0_field in Heq as [Hi _]; [|reflexivity|assumption..].
  unfold same_minute. repeat split; lia.
Qed.

Lemma dateonly_name_fields (d1 d2 : tm) (basename extension : filename_t) :
  plain_date d1 → plain_date d2 →
  @name_format dateonly_daily_file_name_calculator d1 basename extension
  = @name_format dateonly_daily_file_name_calculator d2 basename extension
  ↔ same_day d1 d2.
Proof.
  intros (Hy1 & Hm1 & Hd1 & _) (Hy2 & Hm2 & Hd2 & _). split.
  - intros Heq. cbn [name_format dateonly_daily_file_name_calculator] in Heq.
    do 2 apply String.app_inj in Heq.
    apply d0_field in Heq as [Hy Heq]; [|reflexivity|assumption..].
    apply d0_field in Heq as [Hm Heq]; [|reflexivity|assumption..].
    apply d0_field in Heq as [Hd _]; [|reflexivity|assumption..].
    unfold same_day. repeat split; lia.
  - intros (Hy & Hm & Hd). cbn [name_format dateonly_daily_file_name_calculator].
    now rewrite Hy, Hm, Hd.
Qed.

(** X11. The names of [default_daily_file_name_calculator] tell minutes
    apart: two dates with fields that are not negative get the same name,
    for the same base and extension, only if they agree on the year, the
    month, the day, the hour and the minute. *)
Theorem X11_default_names_tell_minutes_apart (d1 d2 : tm) (basename extension : filename_t) :
  plain_date d1 → plain_date d2 →
  @name_format default_daily_file_name_calculator d1 basename extension
  = @name_format default_daily_file_name_calculator d2 basename extension →
  same_minute d1 d2.
Proof. apply default_name_fields. Qed.

Lemma X11_default_names_witness :
  (plain_date (mkTm 0 0 11 1 0 124) ∧ plain_date (mkTm 59 0 11 1 0 124)
   ∧ same_minute (mkTm 0 0 11 1 0 124) (mkTm 59 0 11 1 0 124))
  ∧ @name_format default_daily_file_name_calculator (mkTm 0 0 11 1 0 124) "log" "txt"
    ≠ @name_format default_daily_file_name_calculator (mkTm 0 0 13 1 0 124) "log" "txt".
Proof.
  assert (plain_date (mkTm 0 0 11 1 0 124)) as H1 by (unfold plain_date; cbn; lia).
  assert (plain_date (mkTm 59 0 11 1 0 124)) as H1' by (unfold plain_date; cbn; lia).
  assert (plain_date (mkTm 0 0 13 1 0 124)) as H2 by (unfold plain_date; cbn; lia).
  split.
  - split; [exact H1|]. split; [exact H1'|].
    apply (X11_default_names_tell_minutes_apart _ _ "log" "txt" H1 H1').
    vm_compute. reflexivity.
  - intros Heq.
    destruct (X11_default_names_tell_minutes_apart _ _ _ _ H1 H2 Heq) as (_ & _ & _ & Hh & _).
    discriminate Hh.
Defined.

(** X12. The names of [dateonly_daily_file_name_calculator] tell days
    apart, and nothing more: two dates with fields that are not negative
    get the same name, for the same base and extension, exactly when they
    agree on the year, the month and the day. *)
Theorem X12_dateonly_names_tell_days_apart (d1 d2 : tm) (basename extension : filename_t) :
  plain_date d1 → plain_date d2 →
  @name_format dateonly_daily_file_name_calculator d1 basename extension
  = @name_format dateonly_daily_file_name_calculator d2 basename extension
  ↔ same_day d1 d2.
Proof. apply dateonly_name_fields. Qed.

Lemma X12_dateonly_names_witness :
  (plain_date (mkTm 0 0 11 1 0 124) ∧ plain_date (mkTm 0 0 13 1 0 124))
  ∧ @name_format dateonly_daily_file_name_calculator (mkTm 0 0 11 1 0 124) "log" "txt"
    = @name_format dateonly_daily_file_name_calculator (mkTm 0 0 13 1 0 124) "log" "txt".
Proof.
  assert (plain_date (mkTm 0 0 11 1 0 124)) as H1 by (unfold plain_date; cbn; lia).
  assert (plain_date (mkTm 0 0 13 1 0 124)) as H2 by (unfold plain_date; cbn; lia).
  split; [auto|].
  apply (X12_dateonly_names_tell_days_apart _ _ "log" "txt" H1 H2).
  repeat split.
Defined.

(** The date of a day from the year 0 on has no negative field. *)
Lemma civil_from_days_nonneg (z : Z) :
  -719468 <= z →
  0 <= (Calendar.civil_from_days z).1.1 ∧ 1 <= (Calendar.civil_from_days z).1.2
  ∧ 1 <= (Calendar.civil_from_days z).2.
Proof.
  intros Hz. unfold Calendar.civil_from_days. cbn [fst snd].
  set (z' := z + 719468).
  set (era := z' / 146097). set (doe := z' mod 146097).
  assert (0 <= era) as Hera by (apply Z.div_pos; lia).
  assert (0 <= doe < 146097) as Hdoe by (apply Z.mod_pos_bound; lia).
  set (c := Z.min (doe / 36524) 3).
  assert (0 <= c <= 3) as Hc by (unfold c; pose proof (Z.div_pos doe 36524); lia).
  set (r := doe - c * 36524).
  assert (0 <= r <= 36524) as Hr.
  { unfold r, c. pose proof (Z.div_mod doe 36524).
    pose proof (Z.mod_pos_bound doe 36524). lia. }
  set (q := r / 1461).
  assert (0 <= q) as Hq by (apply Z.div_pos; lia).
  set (r2 := r - q * 1461).
  assert (0 <= r2 <= 1460) as Hr2.
  { unfold r2, q. pose proof (Z.div_mod r 1461).
    pose proof (Z.mod_pos_bound r 1461). lia. }
  set (y1 := Z.min (r2 / 365) 3).
  assert (0 <= y1 <= 3) as Hy1 by (unfold y1; pose proof (Z.div_pos r2 365); lia).
  set (doy := r2 - y1 * 365).
  assert (0 <= doy <= 365) as Hdoy.
  { unfold doy, y1. pose proof (Z.div_mod r2 365).
    pose proof (Z.mod_pos_bound r2 365). lia. }
  set (mp := (5 * doy + 2) / 153).
  assert (0 <= mp) as Hmp by (apply Z.div_pos; lia).
  assert (153 * mp <= 5 * doy + 2) as Hmul by (apply Z.mul_div_le; lia).
  assert ((153 * mp + 2) / 5 <= doy) as Hd.
  { assert ((153 * mp + 2) / 5 < doy + 1) by (apply Z.div_lt_upper_bound; lia). lia. }
  split; [destruct (_ <=? 2); lia|]. split; [destruct (mp <? 10) eqn:E; lia | lia].
Qed.

Lemma localtime_plain (off t : Z) : 0 <= t + off → plain_date (Calendar.localtime off t).
Proof.
  intros Ht. unfold Calendar.localtime.
  assert (0 <= (t + off) / 86400) as Hday by (apply Z.div_pos; lia).
  pose proof (civil_from_days_nonneg ((t + off) / 86400) ltac:(lia)) as (Hy & Hm & Hd).
  destruct (Calendar.civil_from_days ((t + off) / 86400)) as [[y m] d]. cbn [fst snd] in *.
  pose proof (Z.mod_pos_bound (t + off) 86400 ltac:(lia)) as Hsod.
  unfold plain_date. cbn [tm_year tm_mon tm_mday tm_hour tm_min].
  split; [lia|]. split; [lia|]. split; [lia|]. split.
  - apply Z.div_pos; lia.
  - apply Z.mod_pos_bound. lia.
Qed.

(** The first second of the local minute of [t], from its calendar fields. *)
Lemma mktime_minute (off t : Z) :
  Calendar.mktime off
    (mkTm 0 (tm_min (Calendar.localtime off t)) (tm_hour (Calendar.localtime off t))
          (tm_mday (Calendar.localtime off t)) (tm_mon (Calendar.localtime off t))
          (tm_year (Calendar.localtime off t)))
  = (t + off) / 60 * 60 - off.
Proof.
  rewrite mktime_localtime. unfold day_start, Calendar.localtime.
  destruct (Calendar.civil_from_days ((t + off) / 86400)) as [[y m] d].
  cbn [tm_hour tm_min].
  set (l := t + off). set (sod := l mod 86400).
  pose proof (Z.div_mod l 86400 ltac:(lia)) as Hl. fold sod in Hl.
  pose proof (Z.mod_pos_bound l 86400 ltac:(lia)) as Hsod. fold sod in Hsod.
  pose proof (Z.div_mod sod 60 ltac:(lia)) as Hs60.
  pose proof (Z.mod_pos_bound sod 60 ltac:(lia)) as Hs60b.
  pose proof (Z.div_mod (sod / 60) 60 ltac:(lia)) as Hm60.
  rewrite (Z.div_div sod 60 60) in Hm60 by lia. change (60 * 60) with 3600 in Hm60.
  assert (l / 60 = 1440 * (l / 86400) + sod / 60) as Hq.
  { symmetry. apply (Z.div_unique _ _ _ (sod mod 60)); lia. }
  rewrite Hq. lia.
Qed.

(** X13. Two instants get the same name from
    [default_daily_file_name_calculator] only within one local minute, and
    from [dateonly_daily_file_name_calculator] exactly within one local day:
    a rotation opens a file other than the active one when the minute,
    respectively the day, has changed since the active file was named. *)
Theorem X13_same_name_same_minute (s : t) (off t1 t2 : Z) :
  0 <= chrono.to_time_t t1 + off → 0 <= chrono.to_time_t t2 + off →
  (@dated_name default_daily_file_name_calculator s off t1
   = @dated_name default_daily_file_name_calculator s off t2 →
   (chrono.to_time_t t1 + off) / 60 = (chrono.to_time_t t2 + off) / 60)
  ∧ (@dated_name dateonly_daily_file_name_calculator s off t1
     = @dated_name dateonly_daily_file_name_calculator s off t2
     ↔ (chrono.to_time_t t1 + off) / 86400 = (chrono.to_time_t t2 + off) / 86400).
Proof.
  intros H1 H2. unfold dated_name.
  set (u1 := chrono.to_time_t t1) in *. set (u2 := chrono.to_time_t t2) in *.
  pose proof (localtime_plain off u1 H1) as Hp1.
  pose proof (localtime_plain off u2 H2) as Hp2.
  split; [|split].
  - intros Heq. apply default_name_fields in Heq as (Hy & Hm & Hd & Hh & Hi); [|assumption..].
    pose proof (mktime_minute off u1) as M1. pose proof (mktime_minute off u2) as M2.
    rewrite Hy, Hm, Hd, Hh, Hi in M1. rewrite M1 in M2. lia.
  - intros Heq. apply dateonly_name_fields in Heq as (Hy & Hm & Hd); [|assumption..].
    pose proof (mktime_localtime off u1 0 0 0) as M1.
    pose proof (mktime_localtime off u2 0 0 0) as M2.
    rewrite Hy, Hm, Hd in M1. rewrite M1 in M2. unfold day_start in M2. lia.
  - intros Hday. apply dateonly_name_fields; [assumption..|].
    unfold same_day, Calendar.localtime. rewrite Hday.
    destruct (Calendar.civil_from_days _) as [[y m] d]. repeat split.
Qed.

Lemma X13_same_name_witness :
  (0 <= chrono.to_time_t fixtures.at_2024_01_01_11h + 0
   ∧ 0 <= chrono.to_time_t fixtures.at_2024_01_01_13h + 0)
  ∧ @dated_name dateonly_daily_file_name_calculator (fixtures.midnight_sink 0) 0
      fixtures.at_2024_01_01_11h
    = @dated_name dateonly_daily_file_name_calculator (fixtures.midnight_sink 0) 0
        fixtures.at_2024_01_01_13h
  ∧ @dated_name default_daily_file_name_calculator (fixtures.midnight_sink 0) 0
      fixtures.at_2024_01_01_11h
    ≠ @dated_name default_daily_file_name_calculator (fixtures.midnight_sink 0) 0
        fixtures.at_2024_01_01_13h.
Proof.
  assert (0 <= chrono.to_time_t fixtures.at_2024_01_01_11h + 0) as H1
    by (vm_compute; discriminate).
  assert (0 <= chrono.to_time_t fixtures.at_2024_01_01_13h + 0) as H2
    by (vm_compute; discriminate).
  split; [auto|].
  destruct (X13_same_name_same_minute (fixtures.midnight_sink 0) 0 _ _ H1 H2) as [Hmin Hday].
  split.
  - apply Hday. vm_compute. reflexivity.
  - intros Heq. apply Hmin in Heq. vm_compute in Heq. discriminate Heq.
Defined.
End DatedNames.

Section DailyWrites.
Import daily_file_sink daily daily_facts.
Context `{FileNameCalc}.

(** X14. Until the rotation is due a time-triggered sink is a plain
    appender: records handed to [_sink_it] while every clock reading is
    before [_rotation_tp] all return, leave the sink as it was, end up in
    the active file in the order written after what it held, and each costs
    one clock reading and one write; no file is opened or closed. *)
Theorem X14_writes_before_rotation_append (msgs : list log_msg) : ∀ (s : t) (w : world) c,
  FileHelper._fd (_file_helper s) = true →
  files w !! FileHelper._filename (_file_helper s) = Some c →
  (∀ k, (k < length msgs)%nat → clock w (ticks w + k) < _rotation_tp s) →
  ∃ w', each _sink_it msgs (s, w) = (Returned tt, (s, w'))
      ∧ files w' = <[FileHelper._filename (_file_helper s) := c +:+ bytes_of msgs]> (files w)
      ∧ trace w' = trace w ++ quiet_events (FileHelper._filename (_file_helper s))
                                (clock w) (ticks w) msgs.
Proof.
  induction msgs as [|m msgs IH]; intros s w c Hfd Hc Hearly.
  - exists w. cbn. rewrite string_app_nil_r, app_nil_r, insert_id by exact Hc.
    repeat split; reflexivity.
  - cbn [each]. rewrite bind_run, daily_sink_it_eq. cbv zeta.
    pose proof (Hearly O ltac:(cbn; lia)) as H0. rewrite Nat.add_0_r in H0.
    rewrite bool_decide_eq_false_2 by lia.
    rewrite daily_write_eq, Hfd.
    set (fn := FileHelper._filename (_file_helper s)) in *.
    set (w1 := emit (EvWrite fn (formatted m))
                 (set_files (<[fn := default "" (files w !! fn) +:+ formatted m]> (files w))
                    (emit (EvNow (clock w (ticks w))) (tick w)))).
    assert (files w1 !! fn = Some (c +:+ formatted m)) as Hc1.
    { unfold w1. cbn. now rewrite lookup_insert_eq, Hc. }
    assert (∀ k, (k < length msgs)%nat → clock w1 (ticks w1 + k) < _rotation_tp s) as Hearly1.
    { intros k Hk. unfold w1. cbn [clock ticks emit set_files tick].
      replace (S (ticks w) + k)%nat with (ticks w + S k)%nat by lia.
      apply Hearly. cbn. lia. }
    destruct (IH s w1 (c +:+ formatted m) Hfd Hc1 Hearly1) as (w' & Hrun & Hfiles & Htr).
    exists w'. split; [exact Hrun|]. fold fn in Hfiles, Htr. split.
    + rewrite Hfiles. unfold w1. cbn [files emit set_files tick].
      now rewrite insert_insert_eq, string_app_assoc.
    + rewrite Htr. unfold w1. cbn [trace clock ticks emit set_files tick quiet_events].
      rewrite <- !app_assoc. reflexivity.
Qed.

(** X15. Local time being at the fixed offset [gmtoff w] from UTC, a
    constructor with a valid rotation time whose open is not refused, run
    at a first clock reading at least 48 hours away from both ends of the
    64-bit count, returns a sink that keeps its arguments, is due at the
    instant computed from that first reading, which is after it, and has
    open, without truncating it, the file named after the calendar fields
    of a second reading of the clock; a missing file is created empty and
    no other file changes. The single-path constructor does the same on the
    two parts of its path. *)
Theorem X15_daily_ctor_opens_dated_file (base ext : filename_t) (h m : Z) (w : world) :
  let now1 := clock w (ticks w) in
  let now2 := clock w (S (ticks w)) in
  let name := name_format (Calendar.localtime (gmtoff w) (chrono.to_time_t now2)) base ext in
  0 <= h <= 23 → 0 <= m <= 59 → safe_reading now1 → fault w (OpOpen name) = None →
  ∃ s w',
    ctor2 base ext h m w = (Returned s, w')
    ∧ s = mk ext base h m (next_tp s (gmtoff w) now1) (FileHelper.mk true name)
    ∧ now1 < _rotation_tp s
    ∧ files w' = <[name := default "" (files w !! name)]> (files w)
    ∧ trace w' = trace w ++ [EvNow now1; EvTime (chrono.to_time_t now2);
                             EvOpen name false None]
    ∧ ∀ filename, split_filename filename = Returned (base, ext) →
        ctor filename h m w = (Returned s, w').
Proof.
  intros now1 now2 name Hh Hm Hsafe Hopen.
  assert (invalid_rotation_time h m = false) as Hinv
    by (apply invalid_rotation_time_false; lia).
  set (s0 := mk ext base h m 0 FileHelper.init).
  assert (valid_time s0) as Hvalid0 by (unfold valid_time; cbn; lia).
  pose proof (computed_tp_exact s0 (gmtoff w) now1 Hvalid0 Hsafe) as Hexact.
  set (s := mk ext base h m (next_tp s0 (gmtoff w) now1) (FileHelper.mk true name)).
  set (w' := emit (EvOpen name false None)
               (set_files (<[name := default "" (files w !! name)]> (files w))
                  (emit (EvTime (chrono.to_time_t now2))
                     (tick (emit (EvNow now1) (tick w)))))).
  assert (ctor2 base ext h m w = (Returned s, w')) as Hrun.
  { unfold ctor2. rewrite bind_run, Hinv. unfold ret at 1.
    rewrite bind_run, next_rotation_tp_run, bind_run.
    unfold modify at 1. cbn [fst snd]. rewrite bind_run.
    match goal with |- context [env (calc_filename base ext) (?s1, ?w1)] =>
      change (env (calc_filename base ext) (s1, w1))
        with (env (calc_filename (_base_filename s1) (_extension s1)) (s1, w1))
    end.
    rewrite calc_filename_run, open_eq. cbn [gmtoff emit tick fault clock ticks].
    unfold dated_name. cbn [_base_filename _extension set_rotation_tp].
    fold s0 now1 now2 name. rewrite Hopen, Hexact. reflexivity. }
  exists s, w'. split; [exact Hrun|]. split; [reflexivity|]. split.
  { pose proof (next_tp_future s0 (gmtoff w) now1 Hvalid0).
    cbn. unfold next_tp, candidate in *. cbn in *. lia. }
  split; [reflexivity|]. split.
  { unfold w'. cbn. rewrite <- !app_assoc. reflexivity. }
  intros filename Hsplit.
  unfold ctor, ctor_body. rewrite bind_run, Hinv. unfold ret at 1.
  rewrite bind_run, next_rotation_tp_run, bind_run.
  unfold modify at 1. cbn [fst snd]. rewrite Hsplit.
  rewrite bind_run. unfold modify at 1.
  cbn [fst snd _rotation_h _rotation_m _rotation_tp _file_helper set_rotation_tp].
  rewrite bind_run.
  match goal with |- context [env (calc_filename base ext) (?s1, ?w1)] =>
    change (env (calc_filename base ext) (s1, w1))
      with (env (calc_filename (_base_filename s1) (_extension s1)) (s1, w1))
  end.
  rewrite calc_filename_run, open_eq. cbn [gmtoff emit tick fault clock ticks].
  unfold dated_name. cbn [_base_filename _extension].
  fold s0 now1 now2 name. rewrite Hopen.
  change (computed_tp (mk "" "" h m 0 FileHelper.init) (gmtoff w) now1)
    with (computed_tp s0 (gmtoff w) now1).
  rewrite Hexact. reflexivity.
Qed.
End DailyWrites.

Section DailyWritesExamples.
Import daily_file_sink daily daily_facts.

Lemma X14_writes_before_rotation_witness :
  ∃ w', each _sink_it [fixtures.short_msg; fixtures.long_msg]
          (fixtures.midnight_sink fixtures.at_2024_01_02_00_00_00, morning_world)
        = (Returned tt, (fixtures.midnight_sink fixtures.at_2024_01_02_00_00_00, w'))
      ∧ files w' = <["log_2024-01-01_11-00.txt" := "xababcdef"]> (files morning_world)
      ∧ trace w' = [EvNow fixtures.at_2024_01_01_11h;
                    EvWrite "log_2024-01-01_11-00.txt" "ab";
                    EvNow fixtures.at_2024_01_01_11h;
                    EvWrite "log_2024-01-01_11-00.txt" "abcdef"].
Proof.
  apply (X14_writes_before_rotation_append [fixtures.short_msg; fixtures.long_msg]
           (fixtures.midnight_sink fixtures.at_2024_01_02_00_00_00) morning_world "x").
  - reflexivity.
  - reflexivity.
  - intros k Hk. destruct k as [|[|k]]; [reflexivity | reflexivity | cbn in Hk; lia].
Defined.

Lemma X15_daily_ctor_witness :
  (0 <= 12 <= 23 ∧ 0 <= 0 <= 59 ∧ safe_reading fixtures.at_2024_01_01_11h)
  ∧ ∃ s w',
      ctor2 "log" "txt" 12 0 fixtures.noon_world = (Returned s, w')
      ∧ ctor "log.txt" 12 0 fixtures.noon_world = (Returned s, w')
      ∧ fixtures.at_2024_01_01_11h < _rotation_tp s
      ∧ files w' !! name_format (Calendar.localtime 0 1704106800) "log" "txt" = Some "".
Proof.
  assert (0 <= 12 <= 23) as Hh by lia. assert (0 <= 0 <= 59) as Hm by lia.
  assert (safe_reading fixtures.at_2024_01_01_11h) as Hsafe
    by (vm_compute; split; discriminate).
  split; [auto|].
  destruct (X15_daily_ctor_opens_dated_file "log" "txt" 12 0 fixtures.noon_world
              Hh Hm Hsafe eq_refl)
    as (s & w' & Hrun & _ & Htp & Hfiles & _ & Hctor).
  exists s, w'. split; [exact Hrun|]. split; [apply Hctor; vm_compute; reflexivity|].
  split; [exact Htp|]. rewrite Hfiles. apply lookup_insert_eq.
Defined.
End DailyWritesExamples.
